(** * Personal Library Manager: a shallow embedding of [LibraryManager]

    The program keeps one SQLite table [books] behind one connection and
    offers add / view / remove / toggle / search / statistics / export /
    import.  The embedding follows [library_management.py] method by method.

    Conventions of the model.
    - A Python value that can come out of [json.load], or be handed to a
      method, is a [pyval].  The numbers of a file and of the table are
      integers: values of SQLite's storage classes REAL and BLOB are outside
      the model.  The one float of the program, the percentage of
      [get_statistics], is an IEEE 754 binary64 value.
    - Text is held as the bytes of its UTF-8 encoding, written with
      [string]: what SQLite stores and compares.  A [str] with a lone
      surrogate has no encoding and is no value of the model.
    - The connection is a pair of tables: what is committed and what the
      connection currently sees.  Python's [sqlite3] opens a transaction
      before the first INSERT / UPDATE / DELETE and keeps it open until
      [commit]; every query of the same connection reads the pending state.
    - A method that prints and returns [True] / [False] / [None] returns here
      a value that says which message was printed. *)

From Stdlib Require Import ZArith List String Ascii Bool Lia.
From Stdlib Require Import Permutation Sorted DecimalString.
From Stdlib Require Import Floats.SpecFloat.
Import ListNotations.
Open Scope string_scope.
Open Scope list_scope.
Open Scope Z_scope.

Set Warnings "-register-all".

(** ** Python values *)

Inductive pyval : Type :=
| PyNone
| PyBool (b : bool)
| PyInt (z : Z)
| PyStr (s : string)
| PyList (l : list pyval)
| PyDict (d : list (string * pyval)).

(** The characters of a string, each as a one-character [str]:
    what iterating over a [str] yields. *)
Fixpoint chars (s : string) : list pyval :=
  match s with
  | EmptyString => []
  | String c s' => PyStr (String c EmptyString) :: chars s'
  end.

(** [bool(v)] / [not v] / [if v]. *)
Definition truthy (v : pyval) : bool :=
  match v with
  | PyNone => false
  | PyBool b => b
  | PyInt z => negb (z =? 0)
  | PyStr s => negb (s =? "")%string
  | PyList l => match l with [] => false | _ => true end
  | PyDict d => match d with [] => false | _ => true end
  end.

(** [len(v)]; [None] is the [TypeError] of a value without a length. *)
Definition py_len (v : pyval) : option nat :=
  match v with
  | PyStr s => Some (String.length s)
  | PyList l => Some (List.length l)
  | PyDict d => Some (List.length d)
  | _ => None
  end.

(** [for x in v]; a dict yields its keys.  [None] is the [TypeError]. *)
Definition py_iter (v : pyval) : option (list pyval) :=
  match v with
  | PyStr s => Some (chars s)
  | PyList l => Some l
  | PyDict d => Some (map (fun kv => PyStr (fst kv)) d)
  | _ => None
  end.

Fixpoint assoc (k : string) (d : list (string * pyval)) : option pyval :=
  match d with
  | [] => None
  | (k', v) :: d' => if (k =? k')%string then Some v else assoc k d'
  end.

(** [v[k]] for a string key [k]: only a dict answers; a missing key is a
    [KeyError], any other receiver a [TypeError].  Both are [None]. *)
Definition py_getitem (v : pyval) (k : string) : option pyval :=
  match v with
  | PyDict d => assoc k d
  | _ => None
  end.

(** ** The storage engine: values, affinity, the [books] table *)

Inductive sqlval : Type :=
| SqlNull
| SqlInt (z : Z)
| SqlText (s : string).

Definition sqlval_eqb (a b : sqlval) : bool :=
  match a, b with
  | SqlNull, SqlNull => true
  | SqlInt x, SqlInt y => x =? y
  | SqlText x, SqlText y => (x =? y)%string
  | _, _ => false
  end.

Definition max_int64 : Z := 9223372036854775807.
Definition min_int64 : Z := -9223372036854775808.

Definition in_int64 (z : Z) : bool := (min_int64 <=? z) && (z <=? max_int64).

(** What a fetched column value is on the Python side. *)
Definition fetch_value (v : sqlval) : pyval :=
  match v with
  | SqlNull => PyNone
  | SqlInt z => PyInt z
  | SqlText s => PyStr s
  end.

Definition text_of_int (z : Z) : string := NilZero.string_of_int (Z.to_int z).

Definition is_space (c : ascii) : bool :=
  match c with
  | " "%char | "009"%char | "010"%char | "011"%char | "012"%char | "013"%char => true
  | _ => false
  end.

Definition is_digit (c : ascii) : bool :=
  let n := nat_of_ascii c in (Nat.leb 48 n) && (Nat.leb n 57).

Fixpoint skip_spaces (s : string) : string :=
  match s with
  | String c s' => if is_space c then skip_spaces s' else s
  | EmptyString => EmptyString
  end.

(** Digits of an integer literal, most significant first, then only spaces. *)
Fixpoint digits_then_spaces (acc : Z) (seen : bool) (s : string) : option Z :=
  match s with
  | EmptyString => if seen then Some acc else None
  | String c s' =>
      if is_digit c
      then digits_then_spaces (10 * acc + (Z.of_nat (nat_of_ascii c) - 48)) true s'
      else if seen && is_space c
           then match skip_spaces s' with EmptyString => Some acc | _ => None end
           else None
  end.

(** The integer a text denotes when it is a well-formed integer literal
    (spaces around it and a sign allowed). *)
Definition int_of_text (s : string) : option Z :=
  match skip_spaces s with
  | String "-"%char s' => option_map Z.opp (digits_then_spaces 0 false s')
  | String "+"%char s' => digits_then_spaces 0 false s'
  | s' => digits_then_spaces 0 false s'
  end.

(** Column type affinity of the declared types of [books]:
    TEXT for title, author, genre, added_date; INTEGER for id and
    publication_year; NUMERIC for the declared type BOOLEAN.  The values of
    the model are NULL, integers and text.  A text that is an integer
    literal is stored in an INTEGER or NUMERIC column as that integer; a
    text with a fraction or an exponent, which the engine would store as a
    number as well, is not covered: it stays as it is. *)
Inductive affinity : Type := TEXT | INTEGER | NUMERIC.

Definition apply_affinity (a : affinity) (v : sqlval) : sqlval :=
  match a, v with
  | TEXT, SqlInt z => SqlText (text_of_int z)
  | (INTEGER | NUMERIC), SqlText s =>
      match int_of_text s with
      | Some z => if in_int64 z then SqlInt z else v
      | None => v
      end
  | _, _ => v
  end.

(** A row of [books], in the column order of [SELECT *]. *)
Record book : Type := mkBook {
  id : Z;
  title : sqlval;
  author : sqlval;
  publication_year : sqlval;
  genre : sqlval;
  read_status : sqlval;
  added_date : sqlval
}.

(** The table: its rows in rowid order, and the AUTOINCREMENT counter
    ([sqlite_sequence]), the largest id ever handed out. *)
Record table : Type := mkTable {
  rows : list book;
  seq : Z
}.

Definition max_rowid (rs : list book) : Z :=
  fold_right (fun b m => Z.max (id b) m) 0 rs.

Definition is_null (v : sqlval) : bool :=
  match v with SqlNull => true | _ => false end.

(** [INSERT INTO books (title, author, publication_year, genre,
    read_status, added_date) VALUES (...)] on bound values.
    [None] is the error of a failed statement, which changes nothing:
    a NULL in a NOT NULL column, or no id left beyond the largest one
    (there the engine also gives up what is pending, which the model
    keeps).  The new id is one more than the largest id ever handed out. *)
Definition sql_insert (t : table) (ti au ye ge st da : sqlval) : option table :=
  if is_null ti || is_null au then None
  else
    let m := Z.max (seq t) (max_rowid (rows t)) in
    if max_int64 <=? m then None
    else
      let b := {| id := m + 1;
                  title := apply_affinity TEXT ti;
                  author := apply_affinity TEXT au;
                  publication_year := apply_affinity INTEGER ye;
                  genre := apply_affinity TEXT ge;
                  read_status := apply_affinity NUMERIC st;
                  added_date := apply_affinity TEXT da |} in
      Some {| rows := rows t ++ [b]; seq := m + 1 |}.

(** [DELETE FROM books WHERE id = ?] *)
Definition sql_delete_id (t : table) (i : Z) : table :=
  {| rows := filter (fun b => negb (id b =? i)) (rows t); seq := seq t |}.

(** [DELETE FROM books]: the AUTOINCREMENT counter survives. *)
Definition sql_delete_all (t : table) : table :=
  {| rows := []; seq := Z.max (seq t) (max_rowid (rows t)) |}.

Definition set_read_status (v : sqlval) (b : book) : book :=
  {| id := id b; title := title b; author := author b;
     publication_year := publication_year b; genre := genre b;
     read_status := v; added_date := added_date b |}.

(** [UPDATE books SET read_status = ? WHERE id = ?], the new value already
    bound. *)
Definition sql_update_status (t : table) (v : sqlval) (i : Z) : table :=
  {| rows := map (fun b => if id b =? i
                           then set_read_status (apply_affinity NUMERIC v) b
                           else b) (rows t);
     seq := seq t |}.

(** [SELECT ... FROM books WHERE id = ?] followed by [fetchone()]. *)
Definition sql_select_id (t : table) (i : Z) : option book :=
  find (fun b => id b =? i) (rows t).

(** ** ORDER BY: NULL, then integers, then text in character order *)

Definition sqlval_leb (a b : sqlval) : bool :=
  match a, b with
  | SqlNull, _ => true
  | SqlInt _, SqlNull => false
  | SqlInt x, SqlInt y => x <=? y
  | SqlInt _, SqlText _ => true
  | SqlText _, (SqlNull | SqlInt _) => false
  | SqlText x, SqlText y => String.leb x y
  end.

Definition title_leb (a b : book) : bool := sqlval_leb (title a) (title b).

Fixpoint insert_by_title (x : book) (l : list book) : list book :=
  match l with
  | [] => [x]
  | y :: l' => if title_leb x y then x :: l else y :: insert_by_title x l'
  end.

(** Rows with equal titles keep their rowid order. *)
Definition sort_by_title (l : list book) : list book :=
  fold_right insert_by_title [] l.

(** ** The connection *)

Record library : Type := mkLibrary {
  committed : table;   (* what is durable *)
  working : table      (* what [self.cursor] reads and writes *)
}.

(** [self.conn.commit()] *)
Definition commit (t : table) : library :=
  {| committed := t; working := t |}.

(** A statement ran without [commit]: the change is pending. *)
Definition pending (lib : library) (t : table) : library :=
  {| committed := committed lib; working := t |}.

(** The catalog the program shows: the rows the connection reads. *)
Definition catalog (lib : library) : list book := rows (working lib).

(** ** Exceptions

    [except sqlite3.Error] catches only [SqliteError]; [except Exception]
    catches every one of these. *)
Inductive exn : Type :=
| SqliteError      (* sqlite3.Error: unsupported type, constraint, full *)
| OverflowError    (* an integer beyond 64 bits given to a placeholder *)
| KeyError
| TypeError
| OSError
| ValueError.      (* json.JSONDecodeError *)

Definition result (A : Type) : Type := (exn + A)%type.

Definition ret {A : Type} (a : A) : result A := inr a.
Definition raise {A : Type} (e : exn) : result A := inl e.
Definition bind {A B : Type} (m : result A) (k : A -> result B) : result B :=
  match m with
  | inl e => inl e
  | inr a => k a
  end.

Notation "x <- m ;; k" := (bind m (fun x => k))
  (at level 61, m at next level, right associativity).

Definition is_sqlite_error (e : exn) : bool :=
  match e with SqliteError => true | _ => false end.

(** Binding a Python value to a [?] placeholder: a list or a dict is
    refused by [sqlite3] with one of its own errors, an integer that does
    not fit 64 bits with [OverflowError]; [True] / [False] are 1 / 0.
    The [OverflowError] is what a connection raises whose last statement
    went well; after a statement that failed, the module reports that
    failure again, as one of its own errors. *)
Definition bind_value (v : pyval) : result sqlval :=
  match v with
  | PyNone => ret SqlNull
  | PyBool b => ret (SqlInt (if b then 1 else 0))
  | PyInt z => if in_int64 z then ret (SqlInt z) else raise OverflowError
  | PyStr s => ret (SqlText s)
  | PyList _ | PyDict _ => raise SqliteError
  end.

(** [self.cursor.execute(INSERT ..., (title, author, publication_year,
    genre, read_status, added_date))] *)
Definition execute_insert (t : table)
    (vtitle vauthor vyear vgenre vstatus vdate : pyval) : result table :=
  ti <- bind_value vtitle ;;
  au <- bind_value vauthor ;;
  ye <- bind_value vyear ;;
  ge <- bind_value vgenre ;;
  st <- bind_value vstatus ;;
  da <- bind_value vdate ;;
  match sql_insert t ti au ye ge st da with
  | Some t' => ret t'
  | None => raise SqliteError
  end.

(** ** [add_book] *)

Inductive add_outcome : Type :=
| BookAdded          (* prints "Book added successfully!", returns True *)
| ErrorAddingBook    (* prints "Error adding book: ...", returns False *)
| AddRaised (e : exn).  (* the exception leaves the method *)

(** [now] is [datetime.datetime.now().strftime("%Y-%m-%d %H:%M:%S")]. *)
Definition add_book (now : string)
    (vtitle vauthor vyear vgenre vstatus : pyval) (lib : library)
  : add_outcome * library :=
  match execute_insert (working lib) vtitle vauthor vyear vgenre vstatus (PyStr now) with
  | inr t' => (BookAdded, commit t')
  | inl e => if is_sqlite_error e then (ErrorAddingBook, lib) else (AddRaised e, lib)
  end.

(** ** [view_all_books] *)

(** What a fetched column value counts as in [if book[5]]. *)
Definition sql_truthy (v : sqlval) : bool := truthy (fetch_value v).

Definition status_text (b : bool) : string :=
  if b then "Read ✓" else "Unread ✗".

(** One line of the printed table. *)
Record table_row : Type := mkRow {
  row_id : Z;
  row_title : sqlval;
  row_author : sqlval;
  row_year : sqlval;
  row_genre : sqlval;
  row_status : string;
  row_added : sqlval
}.

Definition format_row (b : book) : table_row :=
  {| row_id := id b; row_title := title b; row_author := author b;
     row_year := publication_year b; row_genre := genre b;
     row_status := status_text (sql_truthy (read_status b));
     row_added := added_date b |}.

Inductive listing : Type :=
| NothingToShow                    (* the "empty" / "no books found" message *)
| Table (books : list book).       (* the rows fetched, printed by [tabulate] *)

Definition show (bs : list book) : listing :=
  match bs with
  | [] => NothingToShow
  | _ => Table bs
  end.

Definition printed_rows (l : listing) : list table_row :=
  match l with
  | NothingToShow => []
  | Table bs => map format_row bs
  end.

Definition fetched (l : listing) : list book :=
  match l with
  | NothingToShow => []
  | Table bs => bs
  end.

(** [SELECT * FROM books ORDER BY title] *)
Definition view_all_books (lib : library) : listing :=
  show (sort_by_title (rows (working lib))).

(** ** [remove_book] *)

Inductive remove_outcome : Type :=
| BookRemoved (t : sqlval)   (* "Book '<title>' removed successfully!", True *)
| NoBookFound                (* "No book found with ID ...", False *)
| RemoveRaised (e : exn).

Definition remove_book (book_id : Z) (lib : library) : remove_outcome * library :=
  match bind_value (PyInt book_id) with
  | inl e => (RemoveRaised e, lib)
  | inr _ =>
      match sql_select_id (working lib) book_id with
      | None => (NoBookFound, lib)
      | Some b => (BookRemoved (title b), commit (sql_delete_id (working lib) book_id))
      end
  end.

(** ** [update_read_status] *)

Inductive update_outcome : Type :=
| StatusUpdated (t : sqlval) (new_status : bool)
| NoBookToUpdate
| UpdateRaised (e : exn).

Definition update_read_status (book_id : Z) (lib : library)
  : update_outcome * library :=
  match bind_value (PyInt book_id) with
  | inl e => (UpdateRaised e, lib)
  | inr _ =>
      match sql_select_id (working lib) book_id with
      | None => (NoBookToUpdate, lib)
      | Some b =>
          let new_status := negb (sql_truthy (read_status b)) in
          (StatusUpdated (title b) new_status,
           commit (sql_update_status (working lib)
                     (SqlInt (if new_status then 1 else 0)) book_id))
      end
  end.

(** ** [search_books] *)

(** The three columns the menu offers for [search_by]. *)
Inductive search_field : Type := ByTitle | ByAuthor | ByGenre.

Definition field_value (f : search_field) (b : book) : sqlval :=
  match f with
  | ByTitle => title b
  | ByAuthor => author b
  | ByGenre => genre b
  end.

Definition lower (c : ascii) : ascii :=
  let n := nat_of_ascii c in
  if (Nat.leb 65 n) && (Nat.leb n 90) then ascii_of_nat (n + 32) else c.

Definition nocase_eqb (c d : ascii) : bool := (lower c =? lower d)%char.

(** Text is held as the bytes of its UTF-8 encoding.  A character, as
    SQLite reads one ([sqlite3Utf8Read]), is one byte and, when that byte
    is 0xC0 or more, the continuation bytes (0x80 to 0xBF) that follow. *)
Definition is_lead (c : ascii) : bool := Nat.leb 192 (nat_of_ascii c).

Definition is_continuation (c : ascii) : bool :=
  let n := nat_of_ascii c in (Nat.leb 128 n) && (Nat.leb n 191).

Fixpoint skip_continuation (s : string) : string :=
  match s with
  | String c s' => if is_continuation c then skip_continuation s' else s
  | EmptyString => EmptyString
  end.

(** What is left of a text after its first character. *)
Definition after_char (s : string) : option string :=
  match s with
  | EmptyString => None
  | String c s' => Some (if is_lead c then skip_continuation s' else s')
  end.

(** The suffixes of a text that begin at a character, the text itself
    first and the empty text last; [inside] says that the bytes read so
    far are within a character begun before. *)
Fixpoint char_suffixes_from (inside : bool) (s : string) : list string :=
  match s with
  | EmptyString => [EmptyString]
  | String c s' =>
      if inside && is_continuation c
      then char_suffixes_from true s'
      else s :: char_suffixes_from (is_lead c) s'
  end.

Definition char_suffixes (s : string) : list string := char_suffixes_from false s.

(** The LIKE operator: [%] stands for any run of characters, [_] for any
    single character, letters of ASCII compare without case. *)
Fixpoint like (p : string) : string -> bool :=
  match p with
  | EmptyString => fun s => match s with EmptyString => true | _ => false end
  | String c p' =>
      if (c =? "%")%char
      then fun s => existsb (like p') (char_suffixes s)
      else if (c =? "_")%char
      then fun s => match after_char s with
                    | Some s' => like p' s'
                    | None => false
                    end
      else fun s => match s with
                    | EmptyString => false
                    | String d s' => nocase_eqb c d && like p' s'
                    end
  end.

(** LIKE reads pattern and text as C strings: each ends at its first NUL. *)
Fixpoint c_string (s : string) : string :=
  match s with
  | EmptyString => EmptyString
  | String c s' => if (c =? "000")%char then EmptyString else String c (c_string s')
  end.

(** [<column> LIKE ?] once the pattern is accepted: NULL never matches, a
    number is matched as its text. *)
Definition sql_like (v : sqlval) (pattern : string) : bool :=
  match v with
  | SqlNull => false
  | SqlInt z => like (c_string pattern) (text_of_int z)
  | SqlText s => like (c_string pattern) (c_string s)
  end.

(** SQLITE_MAX_LIKE_PATTERN_LENGTH: a pattern of more bytes makes LIKE fail
    with "LIKE or GLOB pattern too complex" on the first row it is tried
    on. *)
Definition like_pattern_limit : Z := 50000.

Inductive search_outcome : Type :=
| ErrorSearching          (* "Error searching books: ..." *)
| Searched (l : listing). (* the results, or "No books found matching ..." *)

(** The rows a search shows. *)
Definition found (o : search_outcome) : list book :=
  match o with
  | ErrorSearching => []
  | Searched l => fetched l
  end.

(** [SELECT * FROM books WHERE {search_by} LIKE ? ORDER BY title] with the
    parameter [f"%{search_term}%"]. *)
Definition search_books (search_term : string) (search_by : search_field)
    (lib : library) : search_outcome :=
  let pattern := ("%" ++ search_term ++ "%")%string in
  match rows (working lib) with
  | [] => Searched NothingToShow
  | books =>
      if like_pattern_limit <? Z.of_nat (String.length pattern)
      then ErrorSearching
      else Searched
             (show (sort_by_title
                      (filter (fun b => sql_like (field_value search_by b) pattern)
                              books)))
  end.

(** ** [get_statistics] *)

(** [GROUP BY key] with [COUNT( * )], then the two orderings the queries
    ask for.  Generic in the type of the key. *)
Section Histogram.
Context {K : Type}.
Variable key_eqb : K -> K -> bool.
Variable key_leb : K -> K -> bool.

Fixpoint bump (k : K) (g : list (K * Z)) : list (K * Z) :=
  match g with
  | [] => [(k, 1)]
  | (k', n) :: g' =>
      if key_eqb k k' then (k', n + 1) :: g' else (k', n) :: bump k g'
  end.

(** One group per distinct key, with the number of rows in it. *)
Definition tally (ks : list K) : list (K * Z) :=
  fold_left (fun g k => bump k g) ks [].

Fixpoint insert_by_key (x : K * Z) (l : list (K * Z)) : list (K * Z) :=
  match l with
  | [] => [x]
  | y :: l' => if key_leb (fst x) (fst y) then x :: l else y :: insert_by_key x l'
  end.

(** [ORDER BY key] *)
Definition sort_by_key (l : list (K * Z)) : list (K * Z) :=
  fold_right insert_by_key [] l.

Fixpoint insert_by_count (x : K * Z) (l : list (K * Z)) : list (K * Z) :=
  match l with
  | [] => [x]
  | y :: l' => if snd y <=? snd x then x :: l else y :: insert_by_count x l'
  end.

(** [ORDER BY count DESC]; groups with equal counts keep their order. *)
Definition sort_by_count_desc (l : list (K * Z)) : list (K * Z) :=
  fold_right insert_by_count [] l.

Definition group_by_key (ks : list K) : list (K * Z) :=
  sort_by_key (tally ks).
(** The count listed for a key, if the key is listed. *)
Fixpoint listed (k : K) (g : list (K * Z)) : option Z :=
  match g with
  | [] => None
  | (k', n) :: g' => if key_eqb k k' then Some n else listed k g'
  end.

(** How many of the rows have the key. *)
Definition occurrences (k : K) (ks : list K) : Z :=
  Z.of_nat (List.length (filter (key_eqb k) ks)).

Definition plus_count (o : option Z) (n : Z) : option Z :=
  match o with
  | Some a => Some (a + n)
  | None => if n =? 0 then None else Some n
  end.

Definition by_key (a b : K * Z) : Prop := key_leb (fst a) (fst b) = true.

End Histogram.

(** The number a text counts as in arithmetic: its leading integer, or 0
    (a text whose leading number has a fraction or an exponent is not
    covered). *)
Fixpoint leading_digits (acc : Z) (s : string) : Z :=
  match s with
  | String c s' =>
      if is_digit c
      then leading_digits (10 * acc + (Z.of_nat (nat_of_ascii c) - 48)) s'
      else acc
  | EmptyString => acc
  end.

Definition number_of_text (s : string) : Z :=
  match skip_spaces s with
  | String "-"%char s' => - leading_digits 0 s'
  | String "+"%char s' => leading_digits 0 s'
  | s' => leading_digits 0 s'
  end.

(** [(publication_year / 10) * 10]: integer division truncates toward
    zero; NULL stays NULL ([None]). *)
Definition decade_of (b : book) : option Z :=
  match publication_year b with
  | SqlNull => None
  | SqlInt y => Some (Z.quot y 10 * 10)
  | SqlText s => Some (Z.quot (number_of_text s) 10 * 10)
  end.

Definition option_Z_eqb (a b : option Z) : bool :=
  match a, b with
  | None, None => true
  | Some x, Some y => x =? y
  | _, _ => false
  end.

(** NULL sorts before every number. *)
Definition option_Z_leb (a b : option Z) : bool :=
  match a, b with
  | None, _ => true
  | Some _, None => false
  | Some x, Some y => x <=? y
  end.

(** [SELECT (publication_year / 10) * 10 as decade, COUNT( * ) FROM books
    GROUP BY decade ORDER BY decade] *)
Definition decade_counts (t : table) : list (option Z * Z) :=
  group_by_key option_Z_eqb option_Z_leb (map decade_of (rows t)).

(** The lines under "Books by Decade:": [if decade is not None]. *)
Fixpoint decade_lines (ds : list (option Z * Z)) : list (Z * Z) :=
  match ds with
  | [] => []
  | (None, _) :: ds' => decade_lines ds'
  | (Some d, n) :: ds' => (d, n) :: decade_lines ds'
  end.

(** [SELECT genre, COUNT( * ) as count FROM books GROUP BY genre ORDER BY
    count DESC], and the same for author.  The engine forms the groups in
    the direction the ORDER BY names, here descending by key, and its sort
    by count keeps groups of equal count in that order. *)
Definition counts_by (f : book -> sqlval) (t : table) : list (sqlval * Z) :=
  sort_by_count_desc (rev (group_by_key sqlval_eqb sqlval_leb (map f (rows t)))).

(** [SELECT COUNT( * ) FROM books] *)
Definition count_all (t : table) : Z := Z.of_nat (List.length (rows t)).

(** [read_status = 1] *)
Definition is_read (b : book) : bool := sqlval_eqb (read_status b) (SqlInt 1).

(** [SELECT COUNT( * ) FROM books WHERE read_status = 1] *)
Definition count_read (t : table) : Z :=
  Z.of_nat (List.length (filter is_read (rows t))).

(** *** Python floats: IEEE 754 binary64 *)

Definition prec : Z := 53.
Definition emax : Z := 1024.

Definition float_of_int (z : Z) : spec_float := binary_normalize prec emax z 0 false.
Definition float_div : spec_float -> spec_float -> spec_float := SFdiv prec emax.
Definition float_mul : spec_float -> spec_float -> spec_float := SFmul prec emax.

(** [n / 2^k] rounded to the nearest integer, ties to even. *)
Definition round_half_even_shift (n : Z) (k : Z) : Z :=
  let q := Z.shiftr n k in
  let r := n - Z.shiftl q k in
  match Z.compare (2 * r) (Z.shiftl 1 k) with
  | Lt => q
  | Gt => q + 1
  | Eq => if Z.even q then q else q + 1
  end.

(** The value of a non-negative finite float in tenths, correctly rounded:
    the digits [f"{x:.1f}"] prints. *)
Definition tenths (x : spec_float) : Z :=
  match x with
  | S754_finite false m e =>
      if 0 <=? e then Z.shiftl (Zpos m * 10) e
      else round_half_even_shift (Zpos m * 10) (- e)
  | _ => 0
  end.

Definition format_1f (x : spec_float) : string :=
  let t := tenths x in
  (text_of_int (t / 10) ++ "." ++ text_of_int (t mod 10))%string.

Record statistics : Type := mkStats {
  total_books : Z;
  read_books : Z;
  percent_read : spec_float;
  percent_line : string;                 (* f"{percent_read:.1f}" *)
  top_genres : list (sqlval * Z);        (* genres[:5] *)
  top_authors : list (sqlval * Z);       (* authors[:5] *)
  decades : list (Z * Z)                 (* every decade that is not None *)
}.

Inductive statistics_outcome : Type :=
| EmptyLibrary                     (* "Your library is empty. ..." *)
| Statistics (s : statistics).

(** [read_books / total_books * 100]: the quotient of two ints is the
    float nearest to it, which for counts below 2^53 is the quotient of the
    two counts as floats; the product with the int 100 is the product with
    the float 100. *)
Definition get_statistics (lib : library) : statistics_outcome :=
  let t := working lib in
  let total := count_all t in
  if total =? 0 then EmptyLibrary
  else
    let read := count_read t in
    let percent :=
      if 0 <? total
      then float_mul (float_div (float_of_int read) (float_of_int total))
                     (float_of_int 100)
      else float_of_int 0 in
    Statistics
      {| total_books := total;
         read_books := read;
         percent_read := percent;
         percent_line := format_1f percent;
         top_genres := firstn 5 (counts_by genre t);
         top_authors := firstn 5 (counts_by author t);
         decades := decade_lines (decade_counts t) |}.

(** ** Files *)

(** What a path holds.  A JSON file is kept as the value [json.load]
    returns for it; [json.dump] writes the value it is given. *)
Inductive file : Type :=
| NoFile                 (* [os.path.exists] is false *)
| Unopenable             (* exists, [open] raises [OSError] *)
| NotJson                (* [json.load] raises *)
| JsonFile (j : pyval).

Definition filesystem : Type := string -> file.

Definition write_file (fs : filesystem) (path : string) (f : file) : filesystem :=
  fun p => if (p =? path)%string then f else fs p.

(** ** [export_library] *)

Definition book_dict (b : book) : pyval :=
  PyDict [("id", PyInt (id b));
          ("title", fetch_value (title b));
          ("author", fetch_value (author b));
          ("publication_year", fetch_value (publication_year b));
          ("genre", fetch_value (genre b));
          ("read_status", PyBool (sql_truthy (read_status b)));
          ("added_date", fetch_value (added_date b))].

Inductive export_outcome : Type :=
| Exported               (* "Library exported successfully", True *)
| NothingToExport        (* "Your library is empty. Nothing to export!", False *)
| ErrorExporting (e : exn).   (* "Error exporting library: ...", False *)

Definition export_library (filename : string) (lib : library) (fs : filesystem)
  : export_outcome * filesystem :=
  match rows (working lib) with
  | [] => (NothingToExport, fs)
  | books =>
      match fs filename with
      | Unopenable => (ErrorExporting OSError, fs)
      | _ => (Exported, write_file fs filename (JsonFile (PyList (map book_dict books))))
      end
  end.

(** ** [import_library] *)

(** [book[key]] inside the loop. *)
Definition getitem (v : pyval) (key : string) : result pyval :=
  match v with
  | PyDict d => match assoc key d with Some x => ret x | None => raise KeyError end
  | _ => raise TypeError
  end.

(** One turn of [for book in books]: the six subscripts, then the INSERT. *)
Definition import_record (t : table) (book : pyval) : result table :=
  vtitle <- getitem book "title" ;;
  vauthor <- getitem book "author" ;;
  vyear <- getitem book "publication_year" ;;
  vgenre <- getitem book "genre" ;;
  vstatus <- getitem book "read_status" ;;
  vdate <- getitem book "added_date" ;;
  execute_insert t vtitle vauthor vyear vgenre vstatus vdate.

(** The loop: the table reached, and the exception that stopped it if any. *)
Fixpoint import_books (t : table) (books : list pyval) : option exn * table :=
  match books with
  | [] => (None, t)
  | book :: rest =>
      match import_record t book with
      | inl e => (Some e, t)
      | inr t' => import_books t' rest
      end
  end.

Fixpoint lower_string (s : string) : string :=
  match s with
  | EmptyString => EmptyString
  | String c s' => String (lower c) (lower_string s')
  end.

Inductive import_outcome : Type :=
| Imported (count : nat)      (* "Successfully imported <count> books!", True *)
| FileNotFound                (* "File ... not found!", False *)
| NoBooksInFile               (* "No books found in the import file!", False *)
| ImportCancelled             (* "Import cancelled.", False *)
| ErrorImporting (e : exn).   (* "Error importing library: ...", False *)

Definition import_returns (o : import_outcome) : bool :=
  match o with Imported _ => true | _ => false end.

(** [confirm] is what the user types at the prompt
    "Importing <count> books will replace your current library. Continue?". *)
Definition import_library (filename : string) (confirm : string)
    (lib : library) (fs : filesystem) : import_outcome * library :=
  match fs filename with
  | NoFile => (FileNotFound, lib)
  | Unopenable => (ErrorImporting OSError, lib)
  | NotJson => (ErrorImporting ValueError, lib)
  | JsonFile books =>
      if negb (truthy books) then (NoBooksInFile, lib)
      else
        match py_len books, py_iter books with
        | Some count, Some items =>
            if negb (lower_string confirm =? "y")%string then (ImportCancelled, lib)
            else
              let cleared := sql_delete_all (working lib) in
              match import_books cleared items with
              | (Some e, t) => (ErrorImporting e, pending lib t)
              | (None, t) => (Imported count, commit t)
              end
        | _, _ => (ErrorImporting TypeError, lib)
        end
  end.

(** ** The menu's "Add New Book" (option 2 of [main]) *)

Inductive shell_add_outcome : Type :=
| TitleEmpty             (* "Title cannot be empty. Operation cancelled." *)
| AuthorEmpty            (* "Author cannot be empty. Operation cancelled." *)
| Called (o : add_outcome).

(** [title] and [author] are the two lines typed; [year], [genre] and
    [read] are what the year loop, [get_genre_selection] and the y/n loop
    hand over. *)
Definition shell_add (now : string) (title author : string) (year : Z)
    (genre : string) (read : bool) (lib : library) : shell_add_outcome * library :=
  if (title =? "")%string then (TitleEmpty, lib)
  else if (author =? "")%string then (AuthorEmpty, lib)
  else
    let (o, lib') := add_book now (PyStr title) (PyStr author) (PyInt year)
                       (PyStr genre) (PyBool read) lib in
    (Called o, lib').

Definition genres : list string :=
  ["Fiction"; "Non-Fiction"; "Science Fiction"; "Fantasy";
   "Mystery"; "AI"; "Codding"; "Biography";
   "History"; "Self-Help"; "Poetry"; "Science";
   "Philosophy"; "Religion"; "Art"; "Other"].

(** ** Vocabulary of the statements, and sample data *)

(** [a] may stand before [b] in a listing ordered by title. *)
Definition by_title (a b : book) : Prop := title_leb a b = true.

(** The id space of the table is not used up. *)
Definition has_free_id (t : table) : Prop :=
  Z.max (seq t) (max_rowid (rows t)) < max_int64.

(** [True] / [False] as stored. *)
Definition bool_int (b : bool) : Z := if b then 1 else 0.

(** Two books, as the menu's add flow stores them. *)
Definition dune : book :=
  {| id := 1; title := SqlText "Dune"; author := SqlText "Herbert";
     publication_year := SqlInt 1965; genre := SqlText "Science Fiction";
     read_status := SqlInt 0; added_date := SqlText "2024-01-01 10:00:00" |}.

Definition emma : book :=
  {| id := 2; title := SqlText "Emma"; author := SqlText "Austen";
     publication_year := SqlInt 1815; genre := SqlText "Fiction";
     read_status := SqlInt 1; added_date := SqlText "2024-01-02 09:30:00" |}.

Definition two_books : library := commit {| rows := [dune; emma]; seq := 2 |}.



(** A text without the character NUL. *)
Fixpoint no_nul (s : string) : bool :=
  match s with
  | EmptyString => true
  | String c s' => negb (c =? "000")%char && no_nul s'
  end.

(** A text that does not begin in the middle of a character, as every
    text does that is the encoding of a [str]. *)
Definition starts_char (s : string) : bool :=
  match s with
  | EmptyString => true
  | String c _ => negb (is_continuation c)
  end.

(** With its two [%] the term stays within the length LIKE accepts. *)
Definition within_like_limit (term : string) : Prop :=
  Z.of_nat (String.length term) + 2 <= like_pattern_limit.

Fixpoint prefix_nocase (t s : string) : bool :=
  match t, s with
  | EmptyString, _ => true
  | String _ _, EmptyString => false
  | String c t', String d s' => nocase_eqb c d && prefix_nocase t' s'
  end.

(** [t] occurs in [s] from some character on, letters compared without
    case. *)
Definition contains_nocase (t s : string) : bool :=
  existsb (prefix_nocase t) (char_suffixes s).

(** [t] occurs in [s], said with concatenation. *)
Definition occurs_in (t s : string) : Prop :=
  exists pre mid post : string,
    s = (pre ++ mid ++ post)%string /\ lower_string mid = lower_string t.

(** The text LIKE compares: none for NULL, the digits of a number, a text
    up to its first NUL. *)
Definition field_text (v : sqlval) : option string :=
  match v with
  | SqlNull => None
  | SqlInt z => Some (text_of_int z)
  | SqlText s => Some (c_string s)
  end.

Definition field_contains (term : string) (v : sqlval) : bool :=
  match field_text v with
  | None => false
  | Some s => contains_nocase term s
  end.



(** A record of an import file with every key. *)
Definition complete_record : pyval :=
  PyDict [("id", PyInt 10); ("title", PyStr "Ulysses"); ("author", PyStr "Joyce");
          ("publication_year", PyInt 1922); ("genre", PyStr "Fiction");
          ("read_status", PyBool false);
          ("added_date", PyStr "2023-05-05 08:00:00")].

(** A record without the key "author". *)
Definition incomplete_record : pyval :=
  PyDict [("id", PyInt 11); ("title", PyStr "Walden");
          ("publication_year", PyInt 1854); ("genre", PyStr "Non-Fiction");
          ("read_status", PyBool true);
          ("added_date", PyStr "2023-05-06 08:00:00")].

(** A file system with one JSON file. *)
Definition one_file (path : string) (j : pyval) : filesystem :=
  write_file (fun _ => NoFile) path (JsonFile j).

(** [complete_record] as the row it becomes when it gets id 3. *)
Definition ulysses : book :=
  {| id := 3; title := SqlText "Ulysses"; author := SqlText "Joyce";
     publication_year := SqlInt 1922; genre := SqlText "Fiction";
     read_status := SqlInt 0; added_date := SqlText "2023-05-05 08:00:00" |}.

(** The six fields of a book other than its id. *)
Definition fields_of (b : book)
  : sqlval * sqlval * sqlval * sqlval * sqlval * sqlval :=
  (title b, author b, publication_year b, genre b, read_status b, added_date b).

(** A value the column can hold as it is: storing it again gives it back. *)
Definition storable (a : affinity) (v : sqlval) : bool :=
  sqlval_eqb (apply_affinity a v) v
  && match v with SqlInt z => in_int64 z | _ => true end.

(** A boolean as the table stores it. *)
Definition is_boolean (v : sqlval) : bool :=
  sqlval_eqb v (SqlInt 0) || sqlval_eqb v (SqlInt 1).

(** A row as the table can hold it: title and author are not NULL, and
    every column holds a value of its own affinity. *)
Definition well_stored (b : book) : bool :=
  negb (is_null (title b)) && storable TEXT (title b)
  && negb (is_null (author b)) && storable TEXT (author b)
  && storable INTEGER (publication_year b)
  && storable TEXT (genre b)
  && storable NUMERIC (read_status b)
  && storable TEXT (added_date b).

(** A row as the data model has it: moreover the read status is a boolean,
    stored as 0 or 1. *)
Definition well_typed (b : book) : bool :=
  well_stored b && is_boolean (read_status b).

(** What a row becomes when it is exported and inserted again with id [i]. *)
Definition reinserted (i : Z) (b : book) : book :=
  {| id := i; title := title b; author := author b;
     publication_year := publication_year b; genre := genre b;
     read_status := SqlInt (bool_int (sql_truthy (read_status b)));
     added_date := added_date b |}.

Fixpoint renumber (m : Z) (bs : list book) : list book :=
  match bs with
  | [] => []
  | b :: bs' => reinserted (m + 1) b :: renumber (m + 1) bs'
  end.

(** How many books of the catalog fall in decade [d]. *)
Definition books_in_decade (d : Z) (bs : list book) : Z :=
  Z.of_nat (List.length (filter (fun b => option_Z_eqb (Some d) (decade_of b)) bs)).

(** A record whose year is -5. *)
Definition ancient_record : pyval :=
  PyDict [("id", PyInt 1); ("title", PyStr "Odes"); ("author", PyStr "Horace");
          ("publication_year", PyInt (-5)); ("genre", PyStr "Poetry");
          ("read_status", PyBool true);
          ("added_date", PyStr "2024-02-02 02:02:02")].

Definition empty_library : library := commit {| rows := []; seq := 0 |}.

(** The library reached by importing [ancient_record] into an empty one. *)
Definition ancient_library : library :=
  snd (import_library "old.json" "y" empty_library
         (one_file "old.json" (PyList [ancient_record]))).

(** The record of a shift places the fraction [a / b]: it lies from
    [shr_m] up to, but not at, [shr_m + 1]; the round bit and the sticky
    bit tell whether it is at [shr_m], below the middle, at it or above. *)
Definition located (mrs : shr_record) (a b : Z) : Prop :=
  let rem := a - shr_m mrs * b in
  0 <= rem < b
  /\ match shr_r mrs, shr_s mrs with
     | false, false => rem = 0
     | false, true => 0 < rem /\ 2 * rem < b
     | true, false => 2 * rem = b
     | true, true => b < 2 * rem
     end.

(** The float [x] is the fraction [a / b] to within [2^-k] of it. *)
Definition float_near (k : Z) (x : spec_float) (a b : Z) : Prop :=
  match x with
  | S754_zero _ => a = 0
  | S754_finite false m e =>
      2 ^ k * Z.abs (Zpos m * 2 ^ Z.max e 0 * b - a * 2 ^ Z.max (- e) 0)
      <= a * 2 ^ Z.max (- e) 0
  | _ => False
  end.

(** Title and author are not NULL. *)
Definition has_title_and_author (b : book) : Prop :=
  title b <> SqlNull /\ author b <> SqlNull.

(** Title and author are text, and not the empty text. *)
Definition has_nonempty_title_and_author (b : book) : Prop :=
  (exists s, title b = SqlText s /\ s <> "")
  /\ (exists s, author b = SqlText s /\ s <> "").

(** ** Opening and closing the database *)

(** The [books] table of the database file: [None] before the first
    [CREATE TABLE]. *)
Definition database : Type := option table.

(** [CREATE TABLE IF NOT EXISTS books (...)] and [commit]. *)
Definition setup_db (d : database) : table :=
  match d with
  | Some t => t
  | None => {| rows := []; seq := 0 |}
  end.

(** [LibraryManager(db_name)]: [connect_db] then [setup_db].  [reachable]
    says whether [sqlite3.connect] succeeds; when it does not, [connect_db]
    prints the error and calls [exit(1)] ([None]). *)
Definition LibraryManager (reachable : bool) (d : database) : option library :=
  if reachable then Some (commit (setup_db d)) else None.

(** [close]: the connection goes, and with it whatever was not committed.
    What stays is the database file. *)
Definition close (lib : library) : database := Some (committed lib).

(** ** The prompts of [main] *)

(** The largest id ever handed out by the table. *)
Definition id_mark (t : table) : Z := Z.max (seq t) (max_rowid (rows t)).

Section Prompts.

(** The builtin [int] on a line of input; [None] is its [ValueError]. *)
Variable int : string -> option Z.

(** [datetime.datetime.now().year] *)
Variable current_year : Z.

(** The lines typed, in order; a prompt takes the first.  When none is
    left [input] raises [EOFError], which nothing catches ([None]). *)
Definition lines : Type := list string.

(** The loop "Enter publication year (or press Enter for current year)". *)
Fixpoint read_year (inputs : lines) : option (Z * lines) :=
  match inputs with
  | [] => None
  | year_input :: rest =>
      if (year_input =? "")%string then Some (current_year, rest)
      else
        match int year_input with
        | None => read_year rest
        | Some publication_year =>
            if (publication_year <? 1000) || (current_year <? publication_year)
            then read_year rest
            else Some (publication_year, rest)
        end
  end.

(** [get_genre_selection]: the loop "Enter genre number (1-16)". *)
Fixpoint get_genre_selection (inputs : lines) : option (string * lines) :=
  match inputs with
  | [] => None
  | line :: rest =>
      match int line with
      | None => get_genre_selection rest
      | Some choice =>
          if (1 <=? choice) && (choice <=? Z.of_nat (List.length genres))
          then Some (nth (Z.to_nat (choice - 1)) genres "", rest)
          else get_genre_selection rest
      end
  end.

(** The loop "Have you read this book? (y/n)". *)
Fixpoint read_yes_no (inputs : lines) : option (bool * lines) :=
  match inputs with
  | [] => None
  | read_input :: rest =>
      if (lower_string read_input =? "y")%string
         || (lower_string read_input =? "n")%string
      then Some ((lower_string read_input =? "y")%string, rest)
      else read_yes_no rest
  end.

(** Choice 2 of the menu, "Add New Book", on the lines typed. *)
Definition add_new_book (now : string) (inputs : lines) (lib : library)
  : option (shell_add_outcome * lines * library) :=
  match inputs with
  | [] => None
  | title :: inputs1 =>
      if (title =? "")%string then Some (TitleEmpty, inputs1, lib)
      else
        match inputs1 with
        | [] => None
        | author :: inputs2 =>
            if (author =? "")%string then Some (AuthorEmpty, inputs2, lib)
            else
              match read_year inputs2 with
              | None => None
              | Some (publication_year, inputs3) =>
                  match get_genre_selection inputs3 with
                  | None => None
                  | Some (genre, inputs4) =>
                      match read_yes_no inputs4 with
                      | None => None
                      | Some (read_status, inputs5) =>
                          let (o, lib') :=
                            add_book now (PyStr title) (PyStr author)
                                     (PyInt publication_year) (PyStr genre)
                                     (PyBool read_status) lib in
                          Some (Called o, inputs5, lib')
                      end
                  end
              end
        end
  end.




End Prompts.

(** A book as the menu's "Add New Book" can make it in year [current_year]. *)
Definition menu_book (current_year : Z) (now : string) (b : book) : Prop :=
  has_nonempty_title_and_author b
  /\ (exists y, publication_year b = SqlInt y /\ 1000 <= y <= current_year
                \/ publication_year b = SqlInt current_year)
  /\ (exists g, genre b = SqlText g /\ In g genres)
  /\ (read_status b = SqlInt 0 \/ read_status b = SqlInt 1)
  /\ added_date b = SqlText now.

(** The fields an update of the read status must leave alone. *)
Definition fixed_fields (b : book)
  : Z * sqlval * sqlval * sqlval * sqlval * sqlval :=
  (id b, title b, author b, publication_year b, genre b, added_date b).

(** The sum of the counts of a histogram. *)
Definition total_count {K : Type} (g : list (K * Z)) : Z :=
  fold_right (fun kn acc => snd kn + acc) 0 g.

(** [a] may stand before [b] in a list ordered by count, descending: it
    has more rows, or as many and a key that is not smaller. *)
Definition by_count_then_key_desc {K : Type} (key_leb : K -> K -> bool)
    (a b : K * Z) : Prop :=
  snd b < snd a \/ (snd b = snd a /\ key_leb (fst b) (fst a) = true).

(** How many books have the value [v] in the column [f]. *)
Definition books_with (f : book -> sqlval) (v : sqlval) (bs : list book) : Z :=
  Z.of_nat (List.length (filter (fun b => sqlval_eqb v (f b)) bs)).

(** The upper-case form of a letter, as LIKE folds it. *)
Definition upper (c : ascii) : ascii :=
  let n := nat_of_ascii c in
  if (Nat.leb 97 n) && (Nat.leb n 122) then ascii_of_nat (n - 32) else c.

Fixpoint upper_string (s : string) : string :=
  match s with
  | EmptyString => EmptyString
  | String c s' => String (upper c) (upper_string s')
  end.

(** The row an INSERT of bound values makes under the id [i]. *)
Definition row_of (i : Z) (ti au ye ge st da : sqlval) : book :=
  {| id := i;
     title := apply_affinity TEXT ti;
     author := apply_affinity TEXT au;
     publication_year := apply_affinity INTEGER ye;
     genre := apply_affinity TEXT ge;
     read_status := apply_affinity NUMERIC st;
     added_date := apply_affinity TEXT da |}.

(** An integer value fits 64 bits. *)
Definition in_range (v : sqlval) : bool :=
  match v with SqlInt z => in_int64 z | _ => true end.





(** A call of one of the methods that write to the table. *)
Inductive call : Type :=
| CallAdd (now : string) (vtitle vauthor vyear vgenre vstatus : pyval)
| CallRemove (book_id : Z)
| CallUpdate (book_id : Z)
| CallImport (filename confirm : string) (fs : filesystem).

Definition run_call (c : call) (lib : library) : library :=
  match c with
  | CallAdd now v1 v2 v3 v4 v5 => snd (add_book now v1 v2 v3 v4 v5 lib)
  | CallRemove i => snd (remove_book i lib)
  | CallUpdate i => snd (update_read_status i lib)
  | CallImport f c fs => snd (import_library f c lib fs)
  end.

(** The calls one after the other. *)
Definition run_calls (cs : list call) (lib : library) : library :=
  fold_left (fun l c => run_call c l) cs lib.

(** One statement that changes the table, as the methods issue them. *)
Inductive statement : table -> table -> Prop :=
| stmt_insert (t : table) (ti au ye ge st da : sqlval) :
    in_range ti = true -> in_range au = true -> in_range ye = true ->
    in_range ge = true -> in_range st = true -> in_range da = true ->
    is_null ti = false -> is_null au = false -> id_mark t < max_int64 ->
    statement t {| rows := rows t ++ [row_of (id_mark t + 1) ti au ye ge st da];
                   seq := id_mark t + 1 |}
| stmt_delete (t : table) (i : Z) : statement t (sql_delete_id t i)
| stmt_update (t : table) (b : bool) (i : Z) :
    statement t (sql_update_status t (SqlInt (bool_int b)) i)
| stmt_delete_all (t : table) : statement t (sql_delete_all t).

(** Statements one after the other. *)
Inductive writes : table -> table -> Prop :=
| writes_none (t : table) : writes t t
| writes_more (t1 t2 t3 : table) :
    statement t1 t2 -> writes t2 t3 -> writes t1 t3.

(** No id of the second table was free for reuse in the first: each is the
    id of a row of the first, or above everything the first handed out. *)
Definition ids_kept_or_new (t t' : table) : Prop :=
  id_mark t <= id_mark t'
  /\ forall b, In b (rows t') ->
               (exists b0, In b0 (rows t) /\ id b0 = id b) \/ id_mark t < id b.

(** The AUTOINCREMENT counter is not behind the ids of the rows, as in
    every table the program made itself. *)
Definition counter_ok (t : table) : Prop := max_rowid (rows t) <= seq t.

(** A call as [main] makes it: an add with a boolean read status, a remove
    or an update.  ([main] never calls [import_library].) *)
Definition boolean_call (c : call) : bool :=
  match c with
  | CallAdd _ _ _ _ _ (PyBool _) => true
  | CallRemove _ | CallUpdate _ => true
  | _ => false
  end.

(** Every row of the second table whose id the first had handed out is a
    row of the first, up to its read status. *)
Definition old_rows_fixed (t t' : table) : Prop :=
  forall b', In b' (rows t') -> id b' <= id_mark t ->
             exists b, In b (rows t) /\ fixed_fields b = fixed_fields b'.

(** The book has a year, so it has a decade. *)
Definition has_year (b : book) : bool := negb (is_null (publication_year b)).

Definition is_some {A : Type} (o : option A) : bool :=
  match o with Some _ => true | None => false end.

(** The record export writes for a book: the seven keys, with the read
    status as a JSON boolean. *)
Definition exported_as (j : pyval) (b : book) : Prop :=
  getitem j "id" = inr (PyInt (id b))
  /\ getitem j "title" = inr (fetch_value (title b))
  /\ getitem j "author" = inr (fetch_value (author b))
  /\ getitem j "publication_year" = inr (fetch_value (publication_year b))
  /\ getitem j "genre" = inr (fetch_value (genre b))
  /\ getitem j "read_status" = inr (PyBool (sql_truthy (read_status b)))
  /\ getitem j "added_date" = inr (fetch_value (added_date b)).

(** A line the genre prompt does not accept. *)
Definition no_genre_number (int : string -> option Z) (line : string) : Prop :=
  match int line with
  | None => True
  | Some k => k < 1 \/ 16 < k
  end.

(** A line the year prompt does not accept. *)
Definition no_year (int : string -> option Z) (current_year : Z)
    (line : string) : Prop :=
  line <> ""
  /\ match int line with
     | None => True
     | Some y => y < 1000 \/ current_year < y
     end.

(** * Properties *)

(** ** Sorting by title *)

Lemma sqlval_leb_total (a b : sqlval) :
  sqlval_leb a b = true \/ sqlval_leb b a = true.
Proof.
  destruct a as [|x|x], b as [|y|y]; simpl; auto.
  - destruct (Z.leb_spec x y); auto. right. apply Z.leb_le. lia.
  - apply String.leb_total.
Qed.

Lemma insert_by_title_perm (x : book) (l : list book) :
  Permutation (insert_by_title x l) (x :: l).
Proof.
  induction l as [|y l IH]; simpl.
  - reflexivity.
  - destruct (title_leb x y).
    + reflexivity.
    + rewrite IH. apply perm_swap.
Qed.

Lemma sort_by_title_perm (l : list book) : Permutation (sort_by_title l) l.
Proof.
  induction l as [|x l IH]; simpl.
  - constructor.
  - rewrite insert_by_title_perm. now constructor.
Qed.

Lemma insert_by_title_sorted (x : book) (l : list book) :
  Sorted by_title l -> Sorted by_title (insert_by_title x l).
Proof.
  induction l as [|y l IH]; simpl; intros Hs.
  - repeat constructor.
  - destruct (title_leb x y) eqn:Hxy.
    + constructor; [assumption | constructor; exact Hxy].
    + inversion Hs as [|? ? Hl Hhd]; subst.
      constructor; [now apply IH|].
      assert (Hyx : by_title y x).
      { unfold by_title, title_leb in *.
        destruct (sqlval_leb_total (title x) (title y)); congruence. }
      destruct l as [|z l]; simpl.
      * constructor. exact Hyx.
      * destruct (title_leb x z); constructor; [exact Hyx|].
        now inversion Hhd.
Qed.

Lemma sort_by_title_sorted (l : list book) : Sorted by_title (sort_by_title l).
Proof.
  induction l as [|x l IH]; simpl.
  - constructor.
  - now apply insert_by_title_sorted.
Qed.

Lemma fetched_show (bs : list book) : fetched (show bs) = bs.
Proof. now destruct bs. Qed.

Lemma in_sort_by_title (b : book) (l : list book) :
  In b (sort_by_title l) <-> In b l.
Proof.
  split; apply Permutation_in;
    [apply sort_by_title_perm | symmetry; apply sort_by_title_perm].
Qed.

(** ** Ids *)

Lemma max_rowid_ge (rs : list book) (b : book) :
  In b rs -> id b <= max_rowid rs.
Proof.
  induction rs as [|r rs IH]; simpl; [tauto|].
  intros [->|H]; [lia|]. specialize (IH H). lia.
Qed.

Lemma max_rowid_nonneg (rs : list book) : 0 <= max_rowid rs.
Proof. induction rs; simpl; lia. Qed.

(** ** add *)




(** ** Lookup by id *)




Lemma unique_id (l : list book) (b b' : book) :
  NoDup (map id l) -> In b l -> In b' l -> id b = id b' -> b = b'.
Proof.
  induction l as [|x l IH]; simpl; [tauto|].
  intros Hnd Hb Hb' Heq. inversion Hnd as [|? ? Hnotin Hnd']; subst.
  destruct Hb as [->|Hb], Hb' as [->|Hb']; auto.
  - exfalso. apply Hnotin. rewrite Heq. now apply in_map.
  - exfalso. apply Hnotin. rewrite <- Heq. now apply in_map.
Qed.


(** ** remove *)




(** ** toggle *)




Lemma boolean_status (v : sqlval) :
  v = SqlInt 0 \/ v = SqlInt 1 -> SqlInt (bool_int (sql_truthy v)) = v.
Proof. intros [->| ->]; reflexivity. Qed.





(** ** search *)

Lemma nocase_eqb_eq (c d : ascii) : nocase_eqb c d = true <-> lower c = lower d.
Proof. unfold nocase_eqb. apply Ascii.eqb_eq. Qed.

Lemma prefix_nocase_iff (t s : string) :
  prefix_nocase t s = true <->
  exists mid post, s = (mid ++ post)%string /\ lower_string mid = lower_string t.
Proof.
  revert s. induction t as [|c t IH]; intros s; simpl.
  - split; [intros _|reflexivity]. now exists EmptyString, s.
  - destruct s as [|d s].
    + split; [discriminate|]. intros (mid & post & H1 & H2).
      destruct mid; simpl in *; discriminate.
    + rewrite andb_true_iff, nocase_eqb_eq, IH. split.
      * intros (Hc & mid & post & -> & Hm).
        exists (String d mid), post. simpl. split; [reflexivity|]. congruence.
      * intros (mid & post & H1 & H2).
        destruct mid as [|e mid]; simpl in *; [discriminate|].
        injection H1 as -> ->. injection H2 as H2 H3.
        split; [congruence|]. now exists mid, post.
Qed.


Lemma char_suffixes_from_start (pre s' : string) (inside : bool) :
  starts_char s' = true -> In s' (char_suffixes_from inside (pre ++ s')).
Proof.
  intros Hs. revert inside. induction pre as [|c pre IH]; intros inside; simpl.
  - destruct s' as [|c s'']; simpl; [now left|].
    simpl in Hs. apply negb_true_iff in Hs. rewrite Hs, andb_false_r. now left.
  - destruct (inside && is_continuation c); [apply IH|right; apply IH].
Qed.

Lemma char_suffixes_self (s : string) : In s (char_suffixes s).
Proof. destruct s; unfold char_suffixes; simpl; now left. Qed.

Lemma char_suffixes_from_empty (s : string) (inside : bool) :
  In EmptyString (char_suffixes_from inside s).
Proof.
  revert inside. induction s as [|c s IH]; intros inside; simpl; [now left|].
  destruct (inside && is_continuation c); [apply IH|right; apply IH].
Qed.

Lemma lower_keeps_continuation (c : ascii) :
  is_continuation (lower c) = is_continuation c.
Proof. destruct c as [[] [] [] [] [] [] [] []]; reflexivity. Qed.


(** A term that begins with a character occurs only where a character
    begins: every occurrence is found. *)
Lemma contains_nocase_complete (t s : string) :
  starts_char t = true -> occurs_in t s -> contains_nocase t s = true.
Proof.
  unfold contains_nocase, occurs_in. intros Ht (pre & mid & post & -> & Hm).
  apply existsb_exists. destruct t as [|c t].
  - exists EmptyString. split; [apply char_suffixes_from_empty|reflexivity].
  - exists (mid ++ post)%string. split.
    + apply char_suffixes_from_start.
      destruct mid as [|d mid]; simpl in *; [discriminate|].
      injection Hm as Hc _.
      rewrite <- (lower_keeps_continuation d), Hc, lower_keeps_continuation.
      exact Ht.
    + apply prefix_nocase_iff. now exists mid, post.
Qed.

Lemma like_percent (p s : string) :
  like (String "%" p) s = existsb (like p) (char_suffixes s).
Proof. reflexivity. Qed.


Lemma like_any (s : string) : like "%" s = true.
Proof.
  rewrite like_percent. apply existsb_exists. exists EmptyString.
  split; [apply char_suffixes_from_empty|reflexivity].
Qed.


Lemma existsb_ext_all {A : Type} (f g : A -> bool) (l : list A) :
  (forall x, f x = g x) -> existsb f l = existsb g l.
Proof. intros H. induction l as [|x l IH]; simpl; [reflexivity|]. now rewrite H, IH. Qed.


Lemma c_string_no_nul (s : string) : no_nul s = true -> c_string s = s.
Proof.
  induction s as [|c s IH]; simpl; [reflexivity|].
  intros H. apply andb_true_iff in H. destruct H as [Hc Hs].
  apply negb_true_iff in Hc. rewrite Hc, IH by assumption. reflexivity.
Qed.

Lemma no_nul_app (s t : string) :
  no_nul (s ++ t) = no_nul s && no_nul t.
Proof.
  induction s as [|c s IH]; simpl; [reflexivity|].
  now rewrite IH, andb_assoc.
Qed.

Lemma length_app_string (s t : string) :
  String.length (s ++ t) = (String.length s + String.length t)%nat.
Proof. induction s as [|c s IH]; simpl; [reflexivity|]. now rewrite IH. Qed.

Lemma pattern_length (term : string) :
  Z.of_nat (String.length ("%" ++ term ++ "%"))
  = Z.of_nat (String.length term) + 2.
Proof.
  change ("%" ++ term ++ "%")%string with (String "%" (term ++ "%")).
  cbn [String.length]. rewrite length_app_string. simpl String.length. lia.
Qed.

Lemma c_string_pattern (term : string) :
  no_nul term = true ->
  c_string ("%" ++ term ++ "%") = ("%" ++ term ++ "%")%string.
Proof.
  intros H. apply c_string_no_nul.
  change ("%" ++ term ++ "%")%string with (String "%" (term ++ "%")).
  cbn [no_nul]. rewrite no_nul_app, H. reflexivity.
Qed.



Lemma field_contains_complete (term : string) (v : sqlval) :
  starts_char term = true ->
  (exists s, field_text v = Some s /\ occurs_in term s) ->
  field_contains term v = true.
Proof.
  unfold field_contains. intros Ht (s & -> & Ho).
  now apply contains_nocase_complete.
Qed.


(** A search whose pattern LIKE accepts: the rows the pattern matches,
    ordered by title. *)
Lemma search_books_within_limit (lib : library) (term : string) (field : search_field) :
  within_like_limit term ->
  search_books term field lib
  = Searched
      (show (sort_by_title
               (filter (fun b => sql_like (field_value field b) ("%" ++ term ++ "%"))
                       (catalog lib)))).
Proof.
  unfold within_like_limit, search_books, catalog. intros Hl.
  destruct (rows (working lib)) as [|b0 bs]; [reflexivity|].
  rewrite pattern_length.
  destruct (like_pattern_limit <? Z.of_nat (String.length term) + 2) eqn:E;
    [apply Z.ltb_lt in E; lia|reflexivity].
Qed.




(** ** import: the three guards *)

(** C3.  Import answers with a failure and leaves the connection as it was
    when the file does not exist, when the file holds no records, or when
    the answer at the prompt is not "y" / "Y"; whenever import changes
    anything, the file existed, held records, and the answer was
    affirmative. *)
Theorem import_library_guards (filename confirm : string) (lib : library)
    (fs : filesystem) :
  (fs filename = NoFile ->
   import_library filename confirm lib fs = (FileNotFound, lib))
  /\ (forall j, fs filename = JsonFile j -> truthy j = false ->
      import_library filename confirm lib fs = (NoBooksInFile, lib))
  /\ (lower_string confirm <> "y" ->
      exists o, import_library filename confirm lib fs = (o, lib)
                /\ import_returns o = false)
  /\ (forall o lib', import_library filename confirm lib fs = (o, lib') ->
      lib' <> lib ->
      exists j, fs filename = JsonFile j /\ truthy j = true
                /\ lower_string confirm = "y").
Proof.
  unfold import_library. repeat split.
  - intros ->. reflexivity.
  - intros j -> ->. reflexivity.
  - intros Hno. apply String.eqb_neq in Hno.
    destruct (fs filename) as [| | |j]; try (eexists; split; reflexivity).
    destruct (truthy j); simpl; [|eexists; split; reflexivity].
    destruct (py_len j), (py_iter j); try (eexists; split; reflexivity).
    rewrite Hno. simpl. eexists; split; reflexivity.
  - intros o lib' H Hne.
    destruct (fs filename) as [| | |j]; try (injection H as _ <-; contradiction).
    exists j. destruct (truthy j); simpl in H; [|injection H as _ <-; contradiction].
    destruct (py_len j), (py_iter j); try (injection H as _ <-; contradiction).
    destruct (lower_string confirm =? "y")%string eqn:E; simpl in H;
      [|injection H as _ <-; contradiction].
    apply String.eqb_eq in E. auto.
Qed.

Lemma import_library_guards_witness :
  import_library "missing.json" "y" two_books (fun _ => NoFile)
  = (FileNotFound, two_books)
  /\ import_library "empty.json" "y" two_books (one_file "empty.json" (PyList []))
     = (NoBooksInFile, two_books).
Proof.
  split.
  - apply (import_library_guards "missing.json" "y" two_books (fun _ => NoFile)).
    reflexivity.
  - apply (proj1 (proj2 (import_library_guards "empty.json" "y" two_books
                           (one_file "empty.json" (PyList []))))
             (PyList [])); reflexivity.
Defined.

(** ** import: a record that fails after the catalog was cleared *)

(** C1 does not hold of the code.  With the catalog [dune; emma], a file of
    one complete record followed by one without "author", and the answer
    "y": the import reports an error, yet the connection now shows a
    catalog without the two books and with the first imported record; the
    change is pending, and the commit of the next operation (here an add)
    makes it durable. *)
Lemma import_library_failure_leaves_partial_state :
  let fs := one_file "library_export.json"
              (PyList [complete_record; incomplete_record]) in
  exists lib' : library,
    import_library "library_export.json" "y" two_books fs
      = (ErrorImporting KeyError, lib')
    /\ catalog lib' = [ulysses]
    /\ fetched (view_all_books lib') = [ulysses]
    /\ rows (committed lib') = [dune; emma]
    /\ exists lib'' : library,
         add_book "2024-06-01 00:00:00" (PyStr "Emma") (PyStr "Austen")
                  (PyInt 1815) (PyStr "Fiction") (PyBool true) lib'
           = (BookAdded, lib'')
         /\ map title (rows (committed lib'')) = [SqlText "Ulysses"; SqlText "Emma"].
Proof.
  simpl. eexists. split; [reflexivity|]. repeat split.
  eexists. split; reflexivity.
Qed.

(** ** export then import *)

Lemma sqlval_eqb_eq (a b : sqlval) : sqlval_eqb a b = true <-> a = b.
Proof.
  destruct a, b; simpl; split; try discriminate; try reflexivity.
  - intros H. apply Z.eqb_eq in H. now subst.
  - intros [= ->]. apply Z.eqb_refl.
  - intros H. apply String.eqb_eq in H. now subst.
  - intros [= ->]. apply String.eqb_refl.
Qed.

Lemma storable_rebind (a : affinity) (v : sqlval) :
  storable a v = true ->
  bind_value (fetch_value v) = inr v /\ apply_affinity a v = v.
Proof.
  unfold storable. rewrite andb_true_iff, sqlval_eqb_eq. intros [Haff Hrange].
  split; [|exact Haff].
  destruct v; simpl; try reflexivity. now rewrite Hrange.
Qed.

Lemma max_rowid_app (l : list book) (b : book) :
  max_rowid (l ++ [b]) = Z.max (max_rowid l) (id b).
Proof.
  induction l as [|x l IH]; simpl.
  - pose proof (max_rowid_nonneg []). simpl in *. lia.
  - rewrite IH. lia.
Qed.

Lemma import_record_dict (t : table) (b : book) :
  well_stored b = true ->
  has_free_id t ->
  let m := Z.max (seq t) (max_rowid (rows t)) in
  import_record t (book_dict b)
  = inr {| rows := rows t ++ [reinserted (m + 1) b]; seq := m + 1 |}.
Proof.
  unfold well_stored, has_free_id. rewrite !andb_true_iff, !negb_true_iff.
  intros [[[[[[[Ht1 Ht2] Ha1] Ha2] Hy] Hg] _] Hd] Hfree.
  set (m := Z.max (seq t) (max_rowid (rows t))) in *.
  apply storable_rebind in Ht2, Ha2, Hy, Hg, Hd.
  destruct Ht2 as [Bt At], Ha2 as [Ba Aa], Hy as [By Ay], Hg as [Bg Ag],
           Hd as [Bd Ad].
  unfold import_record, book_dict, getitem. cbn [assoc String.eqb Ascii.eqb Bool.eqb bind ret].
  unfold execute_insert. rewrite Bt, Ba, By, Bg, Bd.
  cbn [bind bind_value ret]. unfold sql_insert. rewrite Ht1, Ha1. cbn [orb].
  fold m. cbv zeta. destruct (max_int64 <=? m) eqn:E; [apply Z.leb_le in E; lia|].
  rewrite At, Aa, Ay, Ag, Ad.
  unfold reinserted. destruct (sql_truthy (read_status b)); reflexivity.
Qed.

Lemma import_books_dicts (bs : list book) (t : table) :
  forallb well_stored bs = true ->
  Z.max (seq t) (max_rowid (rows t)) + Z.of_nat (List.length bs) <= max_int64 ->
  exists t' : table,
    import_books t (map book_dict bs) = (None, t')
    /\ rows t' = rows t ++ renumber (Z.max (seq t) (max_rowid (rows t))) bs
    /\ Z.max (seq t') (max_rowid (rows t'))
       = Z.max (seq t) (max_rowid (rows t)) + Z.of_nat (List.length bs).
Proof.
  revert t. induction bs as [|b bs IH]; intros t Hws Hroom.
  - exists t. simpl. rewrite app_nil_r. repeat split. lia.
  - simpl in Hws. apply andb_true_iff in Hws. destruct Hws as [Hb Hbs].
    set (m := Z.max (seq t) (max_rowid (rows t))) in *.
    assert (Hfree : has_free_id t).
    { unfold has_free_id. fold m. simpl List.length in Hroom. lia. }
    pose proof (import_record_dict t b Hb Hfree) as Hrec. fold m in Hrec.
    cbv zeta in Hrec.
    set (t1 := {| rows := rows t ++ [reinserted (m + 1) b]; seq := m + 1 |}) in *.
    assert (Hm1 : Z.max (seq t1) (max_rowid (rows t1)) = m + 1).
    { unfold t1; simpl. rewrite max_rowid_app. simpl.
      pose proof (max_rowid_nonneg (rows t)). unfold m. lia. }
    destruct (IH t1 Hbs) as (t' & Himp & Hrows & Hmax).
    { rewrite Hm1. simpl List.length in Hroom. lia. }
    exists t'. simpl. rewrite Hrec. split; [exact Himp|]. split.
    + rewrite Hrows, Hm1. unfold t1; simpl. now rewrite <- app_assoc.
    + rewrite Hmax, Hm1. simpl List.length. lia.
Qed.

Lemma fields_of_renumber (m : Z) (bs : list book) :
  forallb (fun b => is_boolean (read_status b)) bs = true ->
  map fields_of (renumber m bs) = map fields_of bs.
Proof.
  revert m. induction bs as [|b bs IH]; intros m H; [reflexivity|].
  simpl in H. apply andb_true_iff in H. destruct H as [Hb Hbs].
  simpl. rewrite IH by assumption. f_equal.
  unfold fields_of, reinserted; simpl. f_equal. f_equal.
  unfold is_boolean in Hb. apply orb_true_iff in Hb.
  rewrite !sqlval_eqb_eq in Hb. now apply boolean_status.
Qed.

Lemma renumber_ids (bs : list book) (m : Z) (b : book) :
  In b (renumber m bs) -> m < id b.
Proof.
  revert m. induction bs as [|x bs IH]; intros m; simpl; [tauto|].
  intros [<-|H]; [simpl; lia|]. apply IH in H. lia.
Qed.

Lemma forallb_and {A : Type} (f g : A -> bool) (l : list A) :
  forallb (fun x => f x && g x) l = true ->
  forallb f l = true /\ forallb g l = true.
Proof.
  induction l as [|x l IH]; simpl; [auto|].
  rewrite !andb_true_iff. tauto.
Qed.

(** C2.  For every non-empty catalog of well-typed books (with a writable
    path, the answer "y", and as many free ids as there are books): export
    succeeds, importing the exported file succeeds, and the catalog
    afterwards carries the same (title, author, publication_year, genre,
    read_status, added_date) tuples, in the same order and so as the same
    multiset, under ids that are all new. *)
Theorem export_import_round_trip (path confirm : string) (lib : library)
    (fs : filesystem) :
  catalog lib <> [] ->
  forallb well_typed (catalog lib) = true ->
  fs path <> Unopenable ->
  lower_string confirm = "y" ->
  Z.max (seq (working lib)) (max_rowid (catalog lib))
    + Z.of_nat (List.length (catalog lib)) <= max_int64 ->
  exists (fs' : filesystem) (lib' : library),
    export_library path lib fs = (Exported, fs')
    /\ import_library path confirm lib fs'
       = (Imported (List.length (catalog lib)), lib')
    /\ map fields_of (catalog lib') = map fields_of (catalog lib)
    /\ Permutation (map fields_of (catalog lib')) (map fields_of (catalog lib))
    /\ (forall b b', In b (catalog lib) -> In b' (catalog lib') -> id b < id b')
    /\ committed lib' = working lib'.
Proof.
  intros Hne Hwt Hfs Hy Hroom.
  apply forallb_and in Hwt. destruct Hwt as [Hws Hbool].
  set (bs := catalog lib) in *.
  set (cleared := sql_delete_all (working lib)).
  assert (Hm0 : Z.max (seq cleared) (max_rowid (rows cleared))
                = Z.max (seq (working lib)) (max_rowid bs)).
  { unfold cleared, sql_delete_all, bs, catalog; simpl.
    pose proof (max_rowid_nonneg (rows (working lib))). lia. }
  destruct (import_books_dicts bs cleared Hws) as (t' & Himp & Hrows & Hmax).
  { rewrite Hm0. exact Hroom. }
  exists (write_file fs path (JsonFile (PyList (map book_dict bs)))), (commit t').
  assert (Hrows' : rows t' = renumber (Z.max (seq (working lib)) (max_rowid bs)) bs).
  { rewrite Hrows, Hm0. reflexivity. }
  split; [|split; [|split; [|split; [|split]]]].
  - unfold export_library. fold (catalog lib). fold bs.
    destruct bs as [|b0 bs0] eqn:Ebs; [contradiction|].
    destruct (fs path); try reflexivity. contradiction.
  - unfold import_library, write_file. rewrite String.eqb_refl.
    destruct bs as [|b0 bs0] eqn:Ebs; [contradiction|]. rewrite <- Ebs in *.
    assert (Ht : truthy (PyList (map book_dict bs)) = true) by (rewrite Ebs; reflexivity).
    rewrite Ht. cbn [negb py_len py_iter]. rewrite Hy. cbn [String.eqb Ascii.eqb Bool.eqb negb].
    fold cleared. rewrite Himp. now rewrite length_map.
  - unfold catalog at 1. simpl. rewrite Hrows'. now apply fields_of_renumber.
  - unfold catalog at 1. simpl. rewrite Hrows'.
    rewrite fields_of_renumber by assumption. reflexivity.
  - intros b b' Hb Hb'. unfold catalog in Hb'. simpl in Hb'. rewrite Hrows' in Hb'.
    apply renumber_ids in Hb'. apply max_rowid_ge in Hb. lia.
  - reflexivity.
Qed.

Lemma export_import_round_trip_witness :
  exists (fs' : filesystem) (lib' : library),
    export_library "library_export.json" two_books (fun _ => NoFile) = (Exported, fs')
    /\ import_library "library_export.json" "Y" two_books fs' = (Imported 2, lib')
    /\ map fields_of (catalog lib') = map fields_of [dune; emma].
Proof.
  destruct (export_import_round_trip "library_export.json" "Y" two_books
              (fun _ => NoFile))
    as (fs' & lib' & H1 & H2 & H3 & _).
  - discriminate.
  - reflexivity.
  - discriminate.
  - reflexivity.
  - vm_compute. discriminate.
  - exists fs', lib'. auto.
Defined.

(** ** Histograms *)

Section HistogramFacts.
Context {K : Type}.
Variable key_eqb : K -> K -> bool.
Variable key_leb : K -> K -> bool.
Hypothesis key_eqb_eq : forall a b, key_eqb a b = true <-> a = b.
Hypothesis key_leb_total : forall a b, key_leb a b = true \/ key_leb b a = true.

Local Abbreviation listed := (listed key_eqb).
Local Abbreviation occurrences := (occurrences key_eqb).
Local Abbreviation by_key := (by_key key_leb).

Lemma key_eqb_refl (k : K) : key_eqb k k = true.
Proof. now apply key_eqb_eq. Qed.

Lemma listed_bump_same (k : K) (g : list (K * Z)) :
  listed k (bump key_eqb k g) = plus_count (listed k g) 1.
Proof.
  induction g as [|[k' n] g IH]; simpl.
  - now rewrite key_eqb_refl.
  - destruct (key_eqb k k') eqn:E; simpl; rewrite E; [reflexivity|exact IH].
Qed.

Lemma listed_bump_other (k k0 : K) (g : list (K * Z)) :
  key_eqb k k0 = false -> listed k (bump key_eqb k0 g) = listed k g.
Proof.
  intros Hne. induction g as [|[k' n] g IH]; simpl.
  - now rewrite Hne.
  - destruct (key_eqb k0 k') eqn:E; simpl.
    + apply key_eqb_eq in E. subst k'. now rewrite Hne.
    + now rewrite IH.
Qed.

Lemma plus_count_plus (o : option Z) (a b : Z) :
  0 <= a -> 0 <= b -> plus_count (plus_count o a) b = plus_count o (a + b).
Proof.
  intros Ha Hb. destruct o as [x|]; simpl.
  - f_equal. lia.
  - destruct (a =? 0) eqn:Ea; simpl.
    + apply Z.eqb_eq in Ea. subst. reflexivity.
    + apply Z.eqb_neq in Ea.
      destruct (a + b =? 0) eqn:Eab; [apply Z.eqb_eq in Eab; lia|reflexivity].
Qed.

Lemma occurrences_nonneg (k : K) (ks : list K) : 0 <= occurrences k ks.
Proof. unfold occurrences. lia. Qed.

Lemma listed_fold (ks : list K) (g : list (K * Z)) (k : K) :
  listed k (fold_left (fun g k => bump key_eqb k g) ks g)
  = plus_count (listed k g) (occurrences k ks).
Proof.
  revert g. induction ks as [|k0 ks IH]; intros g.
  - unfold occurrences. simpl. destruct (listed k g); simpl; [f_equal; lia|reflexivity].
  - simpl fold_left. rewrite IH. unfold occurrences. simpl filter.
    destruct (key_eqb k k0) eqn:E.
    + apply key_eqb_eq in E. subst k0. rewrite listed_bump_same.
      fold (occurrences k ks). rewrite plus_count_plus.
      * f_equal. simpl List.length. unfold occurrences. lia.
      * lia.
      * apply occurrences_nonneg.
    + now rewrite listed_bump_other.
Qed.

Lemma listed_tally (ks : list K) (k : K) :
  listed k (tally key_eqb ks)
  = if occurrences k ks =? 0 then None else Some (occurrences k ks).
Proof. unfold tally. now rewrite listed_fold. Qed.

Lemma keys_bump (k : K) (g : list (K * Z)) (x : K) :
  In x (map fst (bump key_eqb k g)) <-> x = k \/ In x (map fst g).
Proof.
  induction g as [|[k' n] g IH]; simpl.
  - intuition.
  - destruct (key_eqb k k') eqn:E; simpl.
    + apply key_eqb_eq in E. subst. intuition.
    + rewrite IH. intuition.
Qed.

Lemma nodup_bump (k : K) (g : list (K * Z)) :
  NoDup (map fst g) -> NoDup (map fst (bump key_eqb k g)).
Proof.
  induction g as [|[k' n] g IH]; simpl; intros Hnd.
  - repeat constructor. simpl. tauto.
  - inversion Hnd as [|? ? Hnotin Hnd']; subst.
    destruct (key_eqb k k') eqn:E; simpl.
    + now constructor.
    + constructor; [|now apply IH].
      rewrite keys_bump. intros [->|H]; [|contradiction].
      rewrite key_eqb_refl in E. discriminate.
Qed.

Lemma nodup_tally (ks : list K) : NoDup (map fst (tally key_eqb ks)).
Proof.
  unfold tally.
  assert (H : forall g, NoDup (map fst g) ->
              NoDup (map fst (fold_left (fun g k => bump key_eqb k g) ks g))).
  { induction ks as [|k ks IH]; intros g Hg; simpl; [exact Hg|].
    apply IH. now apply nodup_bump. }
  apply H. constructor.
Qed.

Lemma listed_in (g : list (K * Z)) (k : K) (n : Z) :
  NoDup (map fst g) -> (In (k, n) g <-> listed k g = Some n).
Proof.
  induction g as [|[k' n'] g IH]; simpl; intros Hnd.
  - split; [tauto|discriminate].
  - inversion Hnd as [|? ? Hnotin Hnd']; subst.
    destruct (key_eqb k k') eqn:E.
    + apply key_eqb_eq in E. subst k'. split.
      * intros [[= ->]|H]; [reflexivity|].
        exfalso. apply Hnotin. now apply (in_map fst) in H.
      * intros [= ->]. now left.
    + rewrite <- IH by assumption. split.
      * intros [[= -> ->]|H]; [|exact H].
        rewrite key_eqb_refl in E. discriminate.
      * intros H. now right.
Qed.

Lemma insert_by_key_perm (x : K * Z) (l : list (K * Z)) :
  Permutation (insert_by_key key_leb x l) (x :: l).
Proof.
  induction l as [|y l IH]; simpl; [reflexivity|].
  destruct (key_leb (fst x) (fst y)); [reflexivity|].
  rewrite IH. apply perm_swap.
Qed.

Lemma sort_by_key_perm (l : list (K * Z)) :
  Permutation (sort_by_key key_leb l) l.
Proof.
  induction l as [|x l IH]; simpl; [constructor|].
  rewrite insert_by_key_perm. now constructor.
Qed.

Lemma insert_by_key_sorted (x : K * Z) (l : list (K * Z)) :
  Sorted by_key l -> Sorted by_key (insert_by_key key_leb x l).
Proof.
  induction l as [|y l IH]; simpl; intros Hs.
  - repeat constructor.
  - destruct (key_leb (fst x) (fst y)) eqn:Hxy.
    + constructor; [assumption | constructor; exact Hxy].
    + inversion Hs as [|? ? Hl Hhd]; subst.
      constructor; [now apply IH|].
      assert (Hyx : by_key y x).
      { unfold by_key. destruct (key_leb_total (fst x) (fst y)); congruence. }
      destruct l as [|z l]; simpl.
      * constructor. exact Hyx.
      * destruct (key_leb (fst x) (fst z)); constructor; [exact Hyx|].
        now inversion Hhd.
Qed.

Lemma sort_by_key_sorted (l : list (K * Z)) :
  Sorted by_key (sort_by_key key_leb l).
Proof.
  induction l as [|x l IH]; simpl; [constructor|].
  now apply insert_by_key_sorted.
Qed.

(** What [GROUP BY key ORDER BY key] lists: every key that occurs, once,
    with the number of its rows, in ascending order. *)
Lemma group_by_key_spec (ks : list K) :
  (forall k n, In (k, n) (group_by_key key_eqb key_leb ks)
               <-> n = occurrences k ks /\ 0 < n)
  /\ NoDup (map fst (group_by_key key_eqb key_leb ks))
  /\ Sorted by_key (group_by_key key_eqb key_leb ks).
Proof.
  unfold group_by_key. split; [|split].
  - intros k n.
    assert (Hp : In (k, n) (sort_by_key key_leb (tally key_eqb ks))
                 <-> In (k, n) (tally key_eqb ks)).
    { split; apply Permutation_in;
        [apply sort_by_key_perm | symmetry; apply sort_by_key_perm]. }
    rewrite Hp, (listed_in _ _ _ (nodup_tally ks)), listed_tally.
    pose proof (occurrences_nonneg k ks).
    destruct (occurrences k ks =? 0) eqn:E.
    + apply Z.eqb_eq in E. split; [discriminate|]. lia.
    + apply Z.eqb_neq in E. split.
      * intros [= <-]. lia.
      * intros [-> _]. reflexivity.
  - eapply Permutation_NoDup; [|apply nodup_tally].
    apply Permutation_map. symmetry. apply sort_by_key_perm.
  - apply sort_by_key_sorted.
Qed.
End HistogramFacts.

(** ** statistics: the decade histogram *)

Lemma option_Z_eqb_eq (a b : option Z) : option_Z_eqb a b = true <-> a = b.
Proof.
  destruct a as [x|], b as [y|]; simpl; split; try discriminate; try reflexivity.
  - intros H. apply Z.eqb_eq in H. now subst.
  - intros [= ->]. apply Z.eqb_refl.
Qed.

Lemma option_Z_leb_total (a b : option Z) :
  option_Z_leb a b = true \/ option_Z_leb b a = true.
Proof.
  destruct a as [x|], b as [y|]; simpl; auto.
  destruct (Z.leb_spec x y); auto. right. apply Z.leb_le. lia.
Qed.

Lemma option_Z_leb_trans (a b c : option Z) :
  option_Z_leb a b = true -> option_Z_leb b c = true -> option_Z_leb a c = true.
Proof.
  destruct a as [x|], b as [y|], c as [z|]; simpl; try discriminate; auto.
  rewrite !Z.leb_le. lia.
Qed.

Lemma in_decade_lines (ds : list (option Z * Z)) (d n : Z) :
  In (d, n) (decade_lines ds) <-> In (Some d, n) ds.
Proof.
  induction ds as [|[[d'|] n'] ds IH]; simpl.
  - tauto.
  - rewrite IH. split; (intros [H|H]; [left|now right]); congruence.
  - rewrite IH. split; [now right|]. intros [H|H]; [discriminate|exact H].
Qed.

Lemma decade_lines_ascending (ds : list (option Z * Z)) :
  StronglySorted (by_key option_Z_leb) ds -> NoDup (map fst ds) ->
  StronglySorted Z.lt (map fst (decade_lines ds)).
Proof.
  induction ds as [|[k n] ds IH]; simpl; intros Hs Hnd; [constructor|].
  inversion Hs as [|? ? Hs' Hall]; subst.
  inversion Hnd as [|? ? Hnotin Hnd']; subst.
  destruct k as [d|]; [|now apply IH].
  simpl. constructor; [now apply IH|].
  apply Forall_forall. intros d' Hd'. apply in_map_iff in Hd'.
  destruct Hd' as ([d'' n'] & <- & Hin). simpl.
  apply in_decade_lines in Hin.
  rewrite Forall_forall in Hall. pose proof (Hall _ Hin) as Hle.
  unfold by_key in Hle. simpl in Hle. apply Z.leb_le in Hle.
  assert (d <> d'').
  { intros ->. apply Hnotin. apply (in_map fst) in Hin. exact Hin. }
  lia.
Qed.

Lemma length_filter_map {A B : Type} (f : B -> bool) (g : A -> B) (l : list A) :
  List.length (filter f (map g l)) = List.length (filter (fun x => f (g x)) l).
Proof.
  induction l as [|x l IH]; simpl; [reflexivity|].
  destruct (f (g x)); simpl; now rewrite IH.
Qed.

Lemma decade_lines_spec (t : table) :
  (forall d n, In (d, n) (decade_lines (decade_counts t))
               <-> n = books_in_decade d (rows t) /\ 0 < n)
  /\ StronglySorted Z.lt (map fst (decade_lines (decade_counts t))).
Proof.
  destruct (group_by_key_spec option_Z_eqb option_Z_leb option_Z_eqb_eq
              option_Z_leb_total (map decade_of (rows t)))
    as (Hin & Hnd & Hsorted).
  fold (decade_counts t) in Hin, Hnd, Hsorted. split.
  - intros d n. rewrite in_decade_lines, Hin.
    unfold occurrences, books_in_decade. now rewrite length_filter_map.
  - apply decade_lines_ascending; [|exact Hnd].
    apply Sorted_StronglySorted; [|exact Hsorted].
    intros a b c. unfold by_key. apply option_Z_leb_trans.
Qed.

(** C9 as stated fails: the query divides with SQL's integer division,
    which truncates toward zero.  A book of the year -5 is listed under
    decade 0, while floor(-5 / 10) * 10 is -10. *)
Lemma decade_histogram_negative_year_counterexample :
  map publication_year (catalog ancient_library) = [SqlInt (-5)]
  /\ (exists s, get_statistics ancient_library = Statistics s
                /\ decades s = [(0, 1)])
  /\ (-5) / 10 * 10 = -10.
Proof.
  split; [reflexivity|]. split; [|reflexivity].
  eexists. split; reflexivity.
Qed.

(** C9, amended.  For every catalog, the decade histogram lists a decade
    [d] with count [n] exactly when [n > 0] books have
    [(publication_year / 10) * 10 = d], the division truncating toward zero
    (which is floor(publication_year / 10) * 10 for every year from 0 on);
    the decades come in strictly ascending order, none is left out, and a
    book whose year is NULL has no decade and is counted nowhere. *)
Theorem decade_histogram_spec (lib : library) (s : statistics) :
  get_statistics lib = Statistics s ->
  (forall d n, In (d, n) (decades s)
               <-> n = books_in_decade d (catalog lib) /\ 0 < n)
  /\ StronglySorted Z.lt (map fst (decades s))
  /\ (forall b y, publication_year b = SqlInt y ->
                  decade_of b = Some (Z.quot y 10 * 10)
                  /\ (0 <= y -> decade_of b = Some (y / 10 * 10)))
  /\ (forall b, publication_year b = SqlNull ->
                decade_of b = None
                /\ forall d, option_Z_eqb (Some d) (decade_of b) = false).
Proof.
  unfold get_statistics. destruct (count_all (working lib) =? 0); [discriminate|].
  intros [= <-]. simpl.
  destruct (decade_lines_spec (working lib)) as [H1 H2].
  split; [exact H1|]. split; [exact H2|]. split.
  - intros b y Hy. unfold decade_of. rewrite Hy. split; [reflexivity|].
    intros Hpos. now rewrite Z.quot_div_nonneg by lia.
  - intros b Hy. unfold decade_of. rewrite Hy. split; reflexivity.
Qed.

Lemma decade_histogram_spec_witness :
  exists s, get_statistics two_books = Statistics s
            /\ StronglySorted Z.lt (map fst (decades s))
            /\ In (1960, 1) (decades s).
Proof.
  eexists. split; [reflexivity|].
  destruct (decade_histogram_spec two_books _ eq_refl) as (H1 & H2 & _).
  split; [exact H2|]. apply H1. split; [reflexivity|reflexivity].
Defined.

(** ** statistics: the counts and the percentage *)

Lemma count_read_le (t : table) : 0 <= count_read t <= count_all t.
Proof.
  unfold count_read, count_all. split; [lia|].
  apply Nat2Z.inj_le, filter_length_le.
Qed.

Lemma is_read_boolean (b : book) :
  is_boolean (read_status b) = true -> is_read b = sql_truthy (read_status b).
Proof.
  unfold is_boolean, is_read. rewrite orb_true_iff, !sqlval_eqb_eq.
  intros [-> | ->]; reflexivity.
Qed.

Lemma round_half_even_shift_nearest (n k : Z) :
  0 <= n -> 0 < k ->
  2 * Z.abs (round_half_even_shift n k * 2 ^ k - n) <= 2 ^ k.
Proof.
  intros Hn Hk. unfold round_half_even_shift.
  rewrite Z.shiftr_div_pow2, !Z.shiftl_mul_pow2 by lia.
  assert (HP : 0 < 2 ^ k) by (apply Z.pow_pos_nonneg; lia).
  set (P := 2 ^ k) in *.
  pose proof (Z.div_mod n P ltac:(lia)) as Hdm.
  pose proof (Z.mod_pos_bound n P HP) as Hr.
  set (q := n / P) in *. set (r := n mod P) in *.
  replace (n - q * P) with r by lia. rewrite Z.mul_1_l.
  destruct (Z.compare_spec (2 * r) P); [destruct (Z.even q)| |]; nia.
Qed.

(** The text printed for a finite non-negative float [m * 2^e] is its
    value in tenths, rounded to a nearest integer. *)
Lemma tenths_nearest (m : positive) (e : Z) :
  (0 <= e -> tenths (S754_finite false m e) = Zpos m * 10 * 2 ^ e)
  /\ (e < 0 ->
      2 * Z.abs (tenths (S754_finite false m e) * 2 ^ (- e) - Zpos m * 10)
      <= 2 ^ (- e)).
Proof.
  unfold tenths. split; intros He.
  - destruct (0 <=? e) eqn:E; [|apply Z.leb_gt in E; lia].
    now rewrite Z.shiftl_mul_pow2.
  - destruct (0 <=? e) eqn:E; [apply Z.leb_le in E; lia|].
    apply round_half_even_shift_nearest; lia.
Qed.

(** *** The percentage in binary64

    The two roundings of [R / N * 100] and the rounding of "%.1f" are
    bounded below, from the definitions of [SpecFloat]: a mantissa of 53
    digits or more is rounded to within half a unit of the last place. *)

Lemma digits2_bounds (p : positive) :
  2 ^ (Zpos (digits2_pos p) - 1) <= Zpos p < 2 ^ Zpos (digits2_pos p).
Proof.
  induction p as [p IH|p IH|]; cbn [digits2_pos].
  - rewrite Pos2Z.inj_succ, (Pos2Z.inj_xI p).
    replace (Z.succ (Zpos (digits2_pos p)) - 1) with (Z.succ (Zpos (digits2_pos p) - 1)) by lia.
    rewrite !Z.pow_succ_r by lia.
    destruct IH as [Hlo Hhi]. revert Hlo Hhi.
    generalize (2 ^ (Zpos (digits2_pos p) - 1)) (2 ^ Zpos (digits2_pos p)). lia.
  - rewrite Pos2Z.inj_succ, (Pos2Z.inj_xO p).
    replace (Z.succ (Zpos (digits2_pos p)) - 1) with (Z.succ (Zpos (digits2_pos p) - 1)) by lia.
    rewrite !Z.pow_succ_r by lia.
    destruct IH as [Hlo Hhi]. revert Hlo Hhi.
    generalize (2 ^ (Zpos (digits2_pos p) - 1)) (2 ^ Zpos (digits2_pos p)). lia.
  - simpl. lia.
Qed.

Lemma digits2_unique (p : positive) (d : Z) :
  2 ^ (d - 1) <= Zpos p < 2 ^ d -> Zpos (digits2_pos p) = d.
Proof.
  intros [Hlo Hhi]. destruct (digits2_bounds p) as [Blo Bhi].
  set (k := Zpos (digits2_pos p)) in *.
  assert (Hk : 0 < k) by (unfold k; lia).
  assert (Hd : 0 < d).
  { destruct (Z.lt_ge_cases 0 d) as [|Hn]; [assumption|].
    destruct (Z.eq_dec d 0) as [->|Hd0]; [simpl in Hhi; lia|].
    rewrite Z.pow_neg_r in Hhi by lia. lia. }
  destruct (Z.lt_trichotomy k d) as [Hlt|[Heq|Hgt]]; [|exact Heq|].
  - assert (2 ^ k <= 2 ^ (d - 1)) by (apply Z.pow_le_mono_r; lia). lia.
  - assert (2 ^ d <= 2 ^ (k - 1)) by (apply Z.pow_le_mono_r; lia). lia.
Qed.

Lemma shr_1_spec (mrs : shr_record) (a b : Z) :
  0 <= shr_m mrs -> 0 < b -> located mrs a b ->
  0 <= shr_m (shr_1 mrs)
  /\ shr_m (shr_1 mrs) = shr_m mrs / 2
  /\ located (shr_1 mrs) a (2 * b).
Proof.
  destruct mrs as [m r s]. unfold located. cbn [shr_m shr_r shr_s].
  intros Hm Hb [Hrem Hloc].
  destruct m as [|[p|p|]|]; [| | | |lia].
  - cbn [shr_1 shr_m shr_r shr_s]. split; [lia|]. split; [reflexivity|].
    destruct r, s; cbn [orb]; lia.
  - cbn [shr_1 shr_m shr_r shr_s]. rewrite (Pos2Z.inj_xI p) in *.
    split; [lia|]. split.
    { apply Z.div_unique with (r := 1); lia. }
    destruct r, s; cbn [orb]; lia.
  - cbn [shr_1 shr_m shr_r shr_s]. rewrite (Pos2Z.inj_xO p) in *.
    split; [lia|]. split.
    { apply Z.div_unique with (r := 0); lia. }
    destruct r, s; cbn [orb]; lia.
  - cbn [shr_1 shr_m shr_r shr_s]. split; [lia|]. split; [reflexivity|].
    destruct r, s; cbn [orb]; lia.
Qed.

Lemma iter_pos_invariant {A : Type} (f : A -> A) (Inv : Z -> A -> Prop) :
  (forall k x, 0 <= k -> Inv k x -> Inv (k + 1) (f x)) ->
  forall n k x, 0 <= k -> Inv k x -> Inv (k + Zpos n) (iter_pos f n x).
Proof.
  intros Hstep. induction n as [n IH|n IH|]; intros k x Hk Hx; cbn [iter_pos].
  - replace (k + Zpos n~1) with (k + 1 + Zpos n + Zpos n) by lia.
    apply IH; [lia|]. apply IH; [lia|]. now apply Hstep.
  - replace (k + Zpos n~0) with (k + Zpos n + Zpos n) by lia.
    apply IH; [lia|]. now apply IH.
  - now apply Hstep.
Qed.

Lemma shr_spec (mrs : shr_record) (e n a b : Z) :
  0 <= n -> 0 <= shr_m mrs -> 0 < b -> located mrs a b ->
  snd (shr mrs e n) = e + n
  /\ 0 <= shr_m (fst (shr mrs e n))
  /\ shr_m (fst (shr mrs e n)) = shr_m mrs / 2 ^ n
  /\ located (fst (shr mrs e n)) a (b * 2 ^ n).
Proof.
  intros Hn Hm Hb Hloc. destruct n as [|p|p]; [| |lia].
  - cbn [shr fst snd]. rewrite Z.add_0_r, Z.pow_0_r, Z.div_1_r, Z.mul_1_r. auto.
  - cbn [shr fst snd]. split; [reflexivity|].
    pose (Inv := fun (k : Z) (x : shr_record) =>
                   0 <= shr_m x /\ shr_m x = shr_m mrs / 2 ^ k
                   /\ located x a (b * 2 ^ k)).
    assert (H : Inv (0 + Zpos p) (iter_pos shr_1 p mrs)).
    { apply iter_pos_invariant.
      - intros k x Hk (H1 & H2 & H3).
        assert (HP : 0 < 2 ^ k) by (apply Z.pow_pos_nonneg; lia).
        destruct (shr_1_spec x a (b * 2 ^ k) H1 ltac:(nia) H3) as (G1 & G2 & G3).
        unfold Inv. split; [exact G1|]. split.
        + rewrite G2, H2, Z.div_div by lia.
          now rewrite Z.pow_add_r, Z.pow_1_r by lia.
        + rewrite Z.pow_add_r, Z.pow_1_r by lia.
          replace (b * (2 ^ k * 2)) with (2 * (b * 2 ^ k)) by lia. exact G3.
      - lia.
      - unfold Inv. rewrite Z.pow_0_r, Z.div_1_r, Z.mul_1_r. auto. }
    exact H.
Qed.

Lemma round_nearest_even_spec (mrs : shr_record) (a b : Z) :
  0 < b -> located mrs a b ->
  let M := round_nearest_even (shr_m mrs) (loc_of_shr_record mrs) in
  shr_m mrs <= M <= shr_m mrs + 1 /\ 2 * Z.abs (M * b - a) <= b.
Proof.
  destruct mrs as [m r s]. unfold located. cbn [shr_m shr_r shr_s].
  intros Hb [Hrem Hloc].
  destruct r, s; cbn [loc_of_shr_record round_nearest_even];
    try destruct (Z.even m); lia.
Qed.

Lemma located_of_loc_exact (m : Z) : located (shr_record_of_loc m loc_Exact) m 1.
Proof. unfold located. cbn. lia. Qed.

Lemma shr_m_of_loc (m : Z) (l : location) : shr_m (shr_record_of_loc m l) = m.
Proof. destruct l as [|[]]; reflexivity. Qed.

Lemma fexp_normal (k : Z) : -1074 <= k - 53 -> fexp prec emax k = k - 53.
Proof. intros H. unfold fexp, emin, prec, emax. apply Z.max_l. lia. Qed.

Lemma pow2_split (n k : Z) : 0 <= n -> 0 <= k -> 2 ^ (n + k) = 2 ^ n * 2 ^ k.
Proof. intros. apply Z.pow_add_r; assumption. Qed.

(** Rounding a mantissa of [d >= 53] digits to 53 digits, to nearest, when
    the result is a normal number: the result is within half a unit of its
    last place of the fraction [a / b] that the mantissa and the location
    stand for. *)
Lemma binary_round_aux_normal (sx : bool) (mx ex d a b : Z) (l : location) :
  53 <= d -> 2 ^ (d - 1) <= mx < 2 ^ d -> 0 < b ->
  located (shr_record_of_loc mx l) a b ->
  -1074 <= ex + d - 53 -> ex + d - 53 < 971 ->
  exists (M : positive) (e : Z),
    binary_round_aux prec emax sx mx ex l = S754_finite sx M e
    /\ 2 ^ 52 <= Zpos M < 2 ^ 53
    /\ ex + d - 53 <= e <= ex + d - 52
    /\ 2 * Z.abs (Zpos M * 2 ^ (e - ex) * b - a) <= b * 2 ^ (d - 53).
Proof.
  intros Hd [Hlo Hhi] Hb Hloc Hemin Hemax.
  assert (Hpos : 0 < 2 ^ (d - 1)) by (apply Z.pow_pos_nonneg; lia).
  destruct mx as [|p|p]; try lia.
  assert (Hdig : Zdigits2 (Zpos p) = d) by (apply digits2_unique; split; assumption).
  set (n := d - 53) in *.
  assert (HPn : 0 < 2 ^ n) by (apply Z.pow_pos_nonneg; lia).
  assert (E1 : 2 ^ (d - 1) = 2 ^ n * 2 ^ 52).
  { rewrite <- pow2_split by lia. f_equal. lia. }
  assert (E2 : 2 ^ d = 2 ^ n * 2 ^ 53).
  { rewrite <- pow2_split by lia. f_equal. lia. }
  unfold binary_round_aux, shr_fexp. rewrite Hdig.
  rewrite (fexp_normal (d + ex)) by lia.
  replace (d + ex - 53 - ex) with n by lia.
  destruct (shr_spec (shr_record_of_loc (Zpos p) l) ex n a b
              ltac:(lia) ltac:(rewrite shr_m_of_loc; lia) Hb Hloc)
    as (S1 & S2 & S3 & S4).
  destruct (shr (shr_record_of_loc (Zpos p) l) ex n) as [mrs' e'].
  cbn [fst snd] in S1, S2, S3, S4. rewrite shr_m_of_loc in S3. subst e'.
  assert (Hm' : 2 ^ 52 <= shr_m mrs' < 2 ^ 53).
  { rewrite S3. split.
    - apply Z.div_le_lower_bound; lia.
    - apply Z.div_lt_upper_bound; lia. }
  destruct (round_nearest_even_spec mrs' a (b * 2 ^ n) ltac:(nia) S4) as [R1 R2].
  set (M0 := round_nearest_even (shr_m mrs') (loc_of_shr_record mrs')) in *.
  clearbody M0.
  destruct (Z.lt_ge_cases M0 (2 ^ 53)) as [Hlt|Hge].
  - (* the rounded mantissa still has 53 digits *)
    destruct M0 as [|q|q]; try lia.
    assert (Hq : Zdigits2 (Zpos q) = 53) by (apply digits2_unique; simpl Z.sub; lia).
    rewrite Hq, (fexp_normal (53 + (ex + n))) by lia.
    replace (53 + (ex + n) - 53 - (ex + n)) with 0 by lia.
    cbn [shr shr_record_of_loc shr_m].
    replace (Z.leb (ex + n) (emax - prec)) with true
      by (symmetry; apply Z.leb_le; unfold emax, prec; lia).
    exists q, (ex + n). split; [reflexivity|]. split; [lia|]. split; [lia|].
    replace (ex + n - ex) with n by lia.
    replace (Zpos q * 2 ^ n * b) with (Zpos q * (b * 2 ^ n)) by lia. exact R2.
  - (* the rounded mantissa is 2^53: one more shift *)
    assert (HM0 : M0 = 9007199254740992) by (change (2 ^ 53) with 9007199254740992 in *; lia).
    subst M0.
    change (Zdigits2 9007199254740992) with 54.
    rewrite (fexp_normal (54 + (ex + n))) by lia.
    replace (54 + (ex + n) - 53 - (ex + n)) with 1 by lia.
    cbn [shr shr_record_of_loc shr_m iter_pos shr_1 fst snd].
    replace (Z.leb (ex + n + 1) (emax - prec)) with true
      by (symmetry; apply Z.leb_le; unfold emax, prec; lia).
    exists 4503599627370496%positive, (ex + n + 1).
    split; [reflexivity|]. split; [split; [reflexivity|reflexivity]|].
    split; [lia|].
    replace (ex + n + 1 - ex) with (n + 1) by lia.
    rewrite pow2_split by lia.
    replace (4503599627370496 * (2 ^ n * 2 ^ 1) * b)
      with (9007199254740992 * (b * 2 ^ n)) by (change (2 ^ 1) with 2; lia).
    exact R2.
Qed.

Lemma pos_iter_xO (p k : positive) : Zpos (Pos.iter xO p k) = Zpos p * 2 ^ Zpos k.
Proof.
  induction k as [|k IH] using Pos.peano_ind.
  - cbn [Pos.iter]. rewrite (Pos2Z.inj_xO p). change (2 ^ 1) with 2. lia.
  - rewrite Pos.iter_succ, (Pos2Z.inj_xO (Pos.iter xO p k)), IH, Pos2Z.inj_succ.
    rewrite Z.pow_succ_r by lia. lia.
Qed.

(** The relative form of the bound of [binary_round_aux_normal]. *)
Lemma half_ulp_relative (K a b q d : Z) :
  53 <= d -> 0 < b -> 2 ^ (d - 1) <= q -> q * b <= a ->
  2 * Z.abs (K * b - a) <= b * 2 ^ (d - 53) ->
  2 ^ 53 * Z.abs (K * b - a) <= a.
Proof.
  intros Hd Hb Hq Ha H.
  assert (E : 2 ^ (d - 1) = 2 ^ 52 * 2 ^ (d - 53)).
  { rewrite <- pow2_split by lia. f_equal. lia. }
  assert (HP : 0 < 2 ^ (d - 53)) by (apply Z.pow_pos_nonneg; lia).
  change (2 ^ 53) with (2 ^ 52 * 2). change (2 ^ 52) with 4503599627370496 in *.
  nia.
Qed.

(** A positive integer below [2^53] is a float, exactly. *)
Lemma float_of_int_exact (z : Z) :
  0 < z < 2 ^ 53 ->
  exists (M : positive) (e : Z),
    float_of_int z = S754_finite false M e
    /\ 2 ^ 52 <= Zpos M < 2 ^ 53
    /\ -52 <= e <= 0
    /\ Zpos M = z * 2 ^ (- e).
Proof.
  intros [Hz Hlt]. destruct z as [|p|p]; try lia.
  destruct (digits2_bounds p) as [Blo Bhi].
  unfold float_of_int, binary_normalize, binary_round.
  set (d := Zpos (digits2_pos p)) in *.
  assert (Hd1 : 1 <= d) by (unfold d; lia).
  assert (Hd53 : d <= 53).
  { destruct (Z.le_gt_cases d 53) as [|Hgt]; [assumption|].
    assert (2 ^ 53 <= 2 ^ (d - 1)) by (apply Z.pow_le_mono_r; lia). lia. }
  rewrite (fexp_normal (d + 0)) by lia.
  assert (Hal : exists mz : positive,
            shl_align p 0 (d + 0 - 53) = (mz, d - 53)
            /\ Zpos mz = Zpos p * 2 ^ (53 - d)).
  { unfold shl_align. destruct (Z.eq_dec d 53) as [E|E].
    - rewrite E. cbn. exists p. split; [reflexivity|]. lia.
    - destruct (53 - d) as [|k|k] eqn:Ek; try lia.
      replace (d + 0 - 53 - 0) with (Zneg k) by lia.
      exists (Pos.iter xO p k). split; [f_equal; lia|]. apply pos_iter_xO. }
  destruct Hal as (mz & -> & Hmz).
  assert (Hn : 2 ^ 52 <= Zpos mz < 2 ^ 53).
  { rewrite Hmz.
    assert (E1 : 2 ^ 52 = 2 ^ (d - 1) * 2 ^ (53 - d))
      by (rewrite <- pow2_split by lia; f_equal; lia).
    assert (E2 : 2 ^ 53 = 2 ^ d * 2 ^ (53 - d))
      by (rewrite <- pow2_split by lia; f_equal; lia).
    assert (HP : 0 < 2 ^ (53 - d)) by (apply Z.pow_pos_nonneg; lia).
    rewrite E1, E2. nia. }
  destruct (binary_round_aux_normal false (Zpos mz) (d - 53) 53 (Zpos mz) 1 loc_Exact)
    as (M & e & HR & HM & He & Hb); try lia.
  - apply located_of_loc_exact.
  - exists M, e. split; [exact HR|]. split; [exact HM|].
    change (2 ^ (53 - 53)) with 1 in Hb.
    assert (He' : e = d - 53).
    { destruct (Z.eq_dec e (d - 53)) as [|Hne]; [assumption|].
      replace (e - (d - 53)) with 1 in Hb by lia. change (2 ^ 1) with 2 in Hb. lia. }
    subst e. replace (d - 53 - (d - 53)) with 0 in Hb by lia.
    change (2 ^ 0) with 1 in Hb.
    split; [lia|]. replace (- (d - 53)) with (53 - d) by lia. lia.
Qed.

Lemma new_location_spec (nb q r : Z) :
  0 < nb -> 0 <= r < nb ->
  located (shr_record_of_loc q (new_location nb r)) (nb * q + r) nb.
Proof.
  intros Hnb Hr. unfold new_location.
  destruct (Z.even nb) eqn:E.
  - unfold new_location_even. destruct (Z.eqb_spec r 0) as [->|Hne].
    + unfold located. cbn. lia.
    + destruct (Z.compare_spec (2 * r) nb); unfold located; cbn [shr_record_of_loc shr_m shr_r shr_s]; lia.
  - assert (Hodd : Z.odd nb = true) by (rewrite <- Z.negb_even, E; reflexivity).
    apply Z.odd_spec in Hodd. destruct Hodd as [k Hk].
    unfold new_location_odd. destruct (Z.eqb_spec r 0) as [->|Hne].
    + unfold located. cbn. lia.
    + destruct (Z.compare_spec (2 * r + 1) nb); unfold located; cbn [shr_record_of_loc shr_m shr_r shr_s]; lia.
Qed.

(** Division of two normal positive floats: the quotient of their values,
    off by at most [2^-53] of it. *)
Lemma float_div_normal (m1 m2 : positive) (e1 e2 : Z) :
  2 ^ 52 <= Zpos m1 < 2 ^ 53 -> 2 ^ 52 <= Zpos m2 < 2 ^ 53 ->
  -1021 <= e1 - e2 <= 1021 ->
  exists (M : positive) (e : Z),
    float_div (S754_finite false m1 e1) (S754_finite false m2 e2)
    = S754_finite false M e
    /\ 2 ^ 52 <= Zpos M < 2 ^ 53
    /\ e1 - e2 - 53 <= e <= e1 - e2 - 51
    /\ 2 ^ 53 * Z.abs (Zpos M * 2 ^ (e - (e1 - e2 - 53)) * Zpos m2 - Zpos m1 * 2 ^ 53)
       <= Zpos m1 * 2 ^ 53.
Proof.
  intros H1 H2 He.
  assert (D1 : Zdigits2 (Zpos m1) = 53) by (apply digits2_unique; simpl Z.sub; lia).
  assert (D2 : Zdigits2 (Zpos m2) = 53) by (apply digits2_unique; simpl Z.sub; lia).
  unfold float_div, SFdiv, SFdiv_core_binary. rewrite D1, D2.
  rewrite (fexp_normal (53 + e1 - (53 + e2))) by lia.
  rewrite Z.min_l by lia.
  replace (e1 - e2 - (53 + e1 - (53 + e2) - 53)) with 53 by lia.
  cbv iota. rewrite Z.shiftl_mul_pow2 by lia.
  replace (53 + e1 - (53 + e2) - 53) with (e1 - e2 - 53) by lia.
  pose proof (Z_div_mod (Zpos m1 * 2 ^ 53) (Zpos m2) ltac:(lia)) as Hdm.
  destruct (Z.div_eucl (Zpos m1 * 2 ^ 53) (Zpos m2)) as [q r].
  destruct Hdm as [Hdm Hr]. cbn [xorb].
  assert (Hq : 2 ^ 52 <= q < 2 ^ 54).
  { change (2 ^ 52) with 4503599627370496 in *.
    change (2 ^ 53) with 9007199254740992 in *.
    change (2 ^ 54) with 18014398509481984. nia. }
  pose proof (new_location_spec (Zpos m2) q r ltac:(lia) Hr) as Hloc.
  rewrite <- Hdm in Hloc.
  destruct (Z.lt_ge_cases q (2 ^ 53)) as [Hlt|Hge].
  - destruct (binary_round_aux_normal false q (e1 - e2 - 53) 53 (Zpos m1 * 2 ^ 53)
                (Zpos m2) (new_location (Zpos m2) r))
      as (M & e & HR & HM & He' & Hb);
      try lia; try assumption; try (simpl Z.sub; lia).
    exists M, e. split; [exact HR|]. split; [exact HM|]. split; [lia|].
    apply (half_ulp_relative _ _ _ q 53); try lia; simpl Z.sub; lia.
  - destruct (binary_round_aux_normal false q (e1 - e2 - 53) 54 (Zpos m1 * 2 ^ 53)
                (Zpos m2) (new_location (Zpos m2) r))
      as (M & e & HR & HM & He' & Hb);
      try lia; try assumption; try (simpl Z.sub; lia).
    exists M, e. split; [exact HR|]. split; [exact HM|]. split; [lia|].
    apply (half_ulp_relative _ _ _ q 54); try lia; simpl Z.sub; lia.
Qed.

(** Multiplication of two normal positive floats: the product of their
    values, off by at most [2^-53] of it. *)
Lemma float_mul_normal (m1 m2 : positive) (e1 e2 : Z) :
  2 ^ 52 <= Zpos m1 < 2 ^ 53 -> 2 ^ 52 <= Zpos m2 < 2 ^ 53 ->
  -1126 <= e1 + e2 <= 917 ->
  exists (M : positive) (e : Z),
    float_mul (S754_finite false m1 e1) (S754_finite false m2 e2)
    = S754_finite false M e
    /\ 2 ^ 52 <= Zpos M < 2 ^ 53
    /\ e1 + e2 + 52 <= e <= e1 + e2 + 54
    /\ 2 ^ 53 * Z.abs (Zpos M * 2 ^ (e - (e1 + e2)) - Zpos m1 * Zpos m2)
       <= Zpos m1 * Zpos m2.
Proof.
  intros H1 H2 He.
  unfold float_mul, SFmul. cbn [xorb]. rewrite Pos2Z.inj_mul.
  set (P := Zpos m1 * Zpos m2).
  assert (HP : 2 ^ 104 <= P < 2 ^ 106).
  { unfold P. change (2 ^ 52) with 4503599627370496 in *.
    change (2 ^ 53) with 9007199254740992 in *.
    change (2 ^ 104) with (4503599627370496 * 4503599627370496).
    change (2 ^ 106) with (9007199254740992 * 9007199254740992). nia. }
  destruct (Z.lt_ge_cases P (2 ^ 105)) as [Hlt|Hge].
  - destruct (binary_round_aux_normal false P (e1 + e2) 105 P 1 loc_Exact)
      as (M & e & HR & HM & He' & Hb);
      try lia; try (simpl Z.sub; lia); try apply located_of_loc_exact.
    exists M, e. split; [exact HR|]. split; [exact HM|]. split; [lia|].
    rewrite <- (Z.mul_1_r (Zpos M * 2 ^ (e - (e1 + e2)))).
    apply (half_ulp_relative _ _ _ P 105); try lia; simpl Z.sub; lia.
  - destruct (binary_round_aux_normal false P (e1 + e2) 106 P 1 loc_Exact)
      as (M & e & HR & HM & He' & Hb);
      try lia; try (simpl Z.sub; lia); try apply located_of_loc_exact.
    exists M, e. split; [exact HR|]. split; [exact HM|]. split; [lia|].
    rewrite <- (Z.mul_1_r (Zpos M * 2 ^ (e - (e1 + e2)))).
    apply (half_ulp_relative _ _ _ P 106); try lia; simpl Z.sub; lia.
Qed.

Lemma abs_bound_div (A x y : Z) : 0 < A -> A * Z.abs x <= y * A -> Z.abs x <= y.
Proof. intros HA H. nia. Qed.

(** The arithmetic of the two roundings and of the rounding to tenths. *)
Lemma percentage_error (t N R M Mq m1 m2 G J J' Q A C : Z) :
  0 < A -> 0 < C -> 0 < J -> 0 < J' -> 0 < G -> 0 < m1 -> 0 < m2 -> 0 < Mq ->
  0 < Q -> 0 < R <= N ->
  A * Z.abs (Mq * J * m2 - m1 * A) <= m1 * A ->
  A * Z.abs (M * J' - Mq * C) <= Mq * C ->
  2 * Z.abs (t * G - 10 * M) <= G ->
  G * J * J' * m2 = Q * N ->
  C * m1 * A = 100 * R * Q ->
  2 * (A * A) * Z.abs (t * N - 1000 * R) <= N * (A * A + 2000 * (2 * A + 1))
  /\ A * A * Z.abs (M * N - 100 * R * G) <= 100 * R * G * (2 * A + 1).
Proof.
  intros HA HC HJ HJ' HG Hm1 Hm2 HMq HQ HR H1 H2 H3 E1 E2.
  apply abs_bound_div in H1; [|exact HA].
  set (X1 := Mq * J * m2 - m1 * A) in *.
  set (X2 := M * J' - Mq * C) in *.
  set (X3 := t * G - 10 * M) in *.
  assert (HK : Mq * J * m2 <= m1 * (A + 1)) by (unfold X1 in H1; lia).
  (* the product of the middle error with what follows it *)
  assert (B2 : A * (Z.abs X2 * (J * m2)) <= C * (m1 * (A + 1))).
  { assert (0 < J * m2) by nia.
    transitivity (Mq * C * (J * m2)); [|nia].
    rewrite Z.mul_assoc. apply Z.mul_le_mono_nonneg_r; lia. }
  assert (B1 : C * Z.abs X1 <= C * m1) by nia.
  assert (I2 : (M * N - 100 * R * G) * (J * J' * m2) = N * (X2 * (J * m2) + C * X1)).
  { unfold X1, X2.
    replace (N * ((M * J' - Mq * C) * (J * m2) + C * (Mq * J * m2 - m1 * A)))
      with (N * (M * J' * J * m2) - N * (C * m1 * A)) by ring.
    rewrite E2.
    replace ((M * N - 100 * R * G) * (J * J' * m2))
      with (N * (M * J' * J * m2) - 100 * R * (G * J * J' * m2)) by ring.
    rewrite E1. ring. }
  assert (HW : 0 < J * J' * m2) by nia.
  assert (F : A * A * Z.abs (M * N - 100 * R * G) * (J * J' * m2)
              <= 100 * R * G * (2 * A + 1) * (J * J' * m2)).
  { replace (A * A * Z.abs (M * N - 100 * R * G) * (J * J' * m2))
      with (A * A * Z.abs ((M * N - 100 * R * G) * (J * J' * m2)))
      by (rewrite Z.abs_mul, (Z.abs_eq (J * J' * m2)) by lia; ring).
    rewrite I2, Z.abs_mul, (Z.abs_eq N) by lia.
    replace (100 * R * G * (2 * A + 1) * (J * J' * m2))
      with (N * ((2 * A + 1) * (100 * R * Q)))
      by (replace (100 * R * G * (2 * A + 1) * (J * J' * m2))
            with ((2 * A + 1) * (100 * R) * (G * J * J' * m2)) by ring;
          rewrite E1; ring).
    rewrite <- E2.
    assert (T : Z.abs (X2 * (J * m2) + C * X1)
                <= Z.abs X2 * (J * m2) + C * Z.abs X1).
    { eapply Z.le_trans; [apply Z.abs_triangle|].
      rewrite (Z.abs_mul X2), (Z.abs_mul C), (Z.abs_eq (J * m2)), (Z.abs_eq C)
        by nia. lia. }
    assert (A * A * Z.abs (X2 * (J * m2) + C * X1) <= (2 * A + 1) * (C * m1 * A)) by nia.
    nia. }
  assert (Fl : A * A * Z.abs (M * N - 100 * R * G) <= 100 * R * G * (2 * A + 1)).
  { apply Z.mul_le_mono_pos_r with (p := J * J' * m2); assumption. }
  split; [|exact Fl].
  (* the tenths: half a tenth more *)
  assert (I3 : (t * N - 1000 * R) * G = X3 * N + 10 * (M * N - 100 * R * G)).
  { unfold X3. ring. }
  assert (G3 : 2 * (A * A) * Z.abs (t * N - 1000 * R) * G
               <= N * (A * A + 2000 * (2 * A + 1)) * G).
  { replace (2 * (A * A) * Z.abs (t * N - 1000 * R) * G)
      with (2 * (A * A) * Z.abs ((t * N - 1000 * R) * G))
      by (rewrite Z.abs_mul, (Z.abs_eq G) by lia; ring).
    rewrite I3.
    assert (T : Z.abs (X3 * N + 10 * (M * N - 100 * R * G))
                <= Z.abs X3 * N + 10 * Z.abs (M * N - 100 * R * G)).
    { eapply Z.le_trans; [apply Z.abs_triangle|].
      rewrite (Z.abs_mul X3), (Z.abs_mul 10), (Z.abs_eq N), (Z.abs_eq 10)
        by lia. lia. }
    assert (2 * Z.abs X3 * N <= G * N) by nia.
    assert (100 * R * G * (2 * A + 1) <= 100 * N * G * (2 * A + 1)) by nia.
    nia. }
  apply Z.mul_le_mono_pos_r with (p := G); assumption.
Qed.

Lemma float_of_int_100 :
  float_of_int 100 = S754_finite false 7036874417766400 (-46).
Proof. reflexivity. Qed.

(** The percentage of [R] out of [N], as the program computes and prints
    it: the float is within [2^-51] of [100 * R / N], and the tenths
    printed are within half a tenth, and a little, of [1000 * R / N]. *)
Lemma percentage_accuracy (R N : Z) :
  0 <= R <= N -> 0 < N < 2 ^ 53 ->
  let p := float_mul (float_div (float_of_int R) (float_of_int N))
                     (float_of_int 100) in
  float_near 51 p (100 * R) N
  /\ 2 * (2 ^ 53 * 2 ^ 53) * Z.abs (tenths p * N - 1000 * R)
     <= N * (2 ^ 53 * 2 ^ 53 + 2000 * (2 * 2 ^ 53 + 1)).
Proof.
  intros HR HN p. subst p.
  destruct (float_of_int_exact N HN) as (m2 & e2 & F2 & N2 & E2 & V2).
  rewrite F2, float_of_int_100.
  destruct (Z.eq_dec R 0) as [->|HR0].
  - change (float_of_int 0) with (S754_zero false).
    cbn [float_div SFdiv float_mul SFmul xorb float_near tenths].
    split; [reflexivity|]. change (2 ^ 53) with 9007199254740992. lia.
  - destruct (float_of_int_exact R ltac:(lia)) as (m1 & e1 & F1 & N1 & E1 & V1).
    rewrite F1.
    assert (P1 : 0 < 2 ^ (- e1)) by (apply Z.pow_pos_nonneg; lia).
    assert (P2 : 0 < 2 ^ (- e2)) by (apply Z.pow_pos_nonneg; lia).
    assert (He12 : e1 <= e2).
    { destruct (Z.le_gt_cases e1 e2) as [|Hgt]; [assumption|].
      assert (E : 2 ^ (- e2) = 2 ^ (- e1) * 2 ^ (e1 - e2))
        by (rewrite <- pow2_split by lia; f_equal; lia).
      assert (2 ^ 1 <= 2 ^ (e1 - e2)) by (apply Z.pow_le_mono_r; lia).
      change (2 ^ 1) with 2 in *. change (2 ^ 52) with 4503599627370496 in *.
      change (2 ^ 53) with 9007199254740992 in *. nia. }
    destruct (float_div_normal m1 m2 e1 e2 N1 N2 ltac:(lia))
      as (Mq & eq & Fq & Nq & Eq & Bq).
    rewrite Fq.
    destruct (float_mul_normal Mq 7036874417766400 eq (-46) Nq
                ltac:(split; [discriminate|reflexivity]) ltac:(lia))
      as (M & e & Fm & Nm & Em & Bm).
    rewrite Fm.
    assert (He : e < 0) by lia.
    destruct (tenths_nearest M e) as [_ Ht]. specialize (Ht He).
    set (t := tenths (S754_finite false M e)) in *.
    replace (Zpos M * 10) with (10 * Zpos M) in Ht by lia.
    assert (PJ : 0 < 2 ^ (eq - (e1 - e2 - 53))) by (apply Z.pow_pos_nonneg; lia).
    assert (PJ' : 0 < 2 ^ (e - (eq + -46))) by (apply Z.pow_pos_nonneg; lia).
    assert (PG : 0 < 2 ^ (- e)) by (apply Z.pow_pos_nonneg; lia).
    assert (PQ : 0 < 2 ^ (99 - e1)) by (apply Z.pow_pos_nonneg; lia).
    destruct (percentage_error t N R (Zpos M) (Zpos Mq) (Zpos m1) (Zpos m2)
                (2 ^ (- e)) (2 ^ (eq - (e1 - e2 - 53))) (2 ^ (e - (eq + -46)))
                (2 ^ (99 - e1)) (2 ^ 53) 7036874417766400)
      as [Bt Bf]; try lia; try assumption.
    + rewrite V2.
      replace (2 ^ (- e) * 2 ^ (eq - (e1 - e2 - 53)) * 2 ^ (e - (eq + -46))
               * (N * 2 ^ (- e2)))
        with (2 ^ (- e) * 2 ^ (eq - (e1 - e2 - 53)) * 2 ^ (e - (eq + -46))
              * 2 ^ (- e2) * N) by ring.
      rewrite <- !pow2_split by lia. f_equal. f_equal. lia.
    + rewrite V1.
      change 7036874417766400 with (100 * 2 ^ 46).
      replace (100 * 2 ^ 46 * (R * 2 ^ (- e1)) * 2 ^ 53)
        with (100 * R * (2 ^ (- e1) * 2 ^ 46 * 2 ^ 53)) by ring.
      rewrite <- !pow2_split by lia. f_equal. f_equal. lia.
    + split; [|exact Bt].
      cbn [float_near]. rewrite Z.max_r, Z.max_l by lia.
      change (2 ^ 0) with 1. rewrite Z.mul_1_r.
      set (X := Z.abs (Zpos M * N - 100 * R * 2 ^ (- e))) in *.
      set (Y := 100 * R * 2 ^ (- e)) in *.
      assert (0 <= X) by apply Z.abs_nonneg.
      change (2 ^ 53) with 9007199254740992 in Bf.
      change (2 ^ 51) with 2251799813685248. lia.
Qed.

(** C8.  On an empty catalog the statistics operation gives the
    "library is empty" answer, which carries no percentage at all: nothing
    is divided.  On a catalog of N > 0 books of which R are read it reports
    N and R, and (for N below 2^53, as every count of rows is) a percentage
    that is [100 * R / N] to within [2^-51] of it, printed with one decimal
    place: the text is the decimal digits of a whole number of tenths [t],
    with a point before the last digit, and [t] is within half a tenth, and
    a part in [2^42], of [1000 * R / N]; for N below 2^41 it is an integer
    nearest to [1000 * R / N]. *)
Theorem get_statistics_spec (lib : library) :
  (catalog lib = [] -> get_statistics lib = EmptyLibrary)
  /\ (catalog lib <> [] ->
      exists s : statistics,
        get_statistics lib = Statistics s
        /\ total_books s = Z.of_nat (List.length (catalog lib))
        /\ read_books s = Z.of_nat (List.length (filter is_read (catalog lib)))
        /\ 0 <= read_books s <= total_books s /\ 0 < total_books s
        /\ (forallb (fun b => is_boolean (read_status b)) (catalog lib) = true ->
            read_books s
            = Z.of_nat (List.length
                          (filter (fun b => sql_truthy (read_status b)) (catalog lib))))
        /\ (total_books s < 2 ^ 53 ->
            float_near 51 (percent_read s) (100 * read_books s) (total_books s)
            /\ exists t : Z,
                 0 <= t <= 1000
                 /\ percent_line s
                    = (NilZero.string_of_int (Z.to_int (t / 10)) ++ "."
                       ++ NilZero.string_of_int (Z.to_int (t mod 10)))%string
                 /\ 2 ^ 42 * Z.abs (t * total_books s - 1000 * read_books s)
                    <= (2 ^ 41 + 1) * total_books s
                 /\ (total_books s < 2 ^ 41 ->
                     2 * Z.abs (t * total_books s - 1000 * read_books s)
                     <= total_books s))).
Proof.
  unfold get_statistics, catalog. split.
  - intros H. unfold count_all. now rewrite H.
  - intros Hne.
    assert (Hpos : 0 < count_all (working lib)).
    { unfold count_all. destruct (rows (working lib)); [contradiction|]. simpl. lia. }
    destruct (count_all (working lib) =? 0) eqn:E; [apply Z.eqb_eq in E; lia|].
    destruct (0 <? count_all (working lib)) eqn:E2; [|apply Z.ltb_ge in E2; lia].
    pose proof (count_read_le (working lib)) as Hle.
    eexists. split; [reflexivity|].
    cbn [total_books read_books percent_read percent_line].
    split; [reflexivity|]. split; [reflexivity|].
    split; [exact Hle|]. split; [exact Hpos|]. split.
    + intros Hbool. unfold count_read. do 2 f_equal.
      apply filter_ext_in. intros b Hb. apply is_read_boolean.
      rewrite forallb_forall in Hbool. now apply Hbool.
    + intros Hbig.
      destruct (percentage_accuracy (count_read (working lib))
                  (count_all (working lib)) Hle (conj Hpos Hbig)) as [Hnear Ht].
      split; [exact Hnear|].
      set (N := count_all (working lib)) in *.
      set (R := count_read (working lib)) in *.
      unfold format_1f, text_of_int.
      set (t := tenths _) in *. exists t.
      set (X := Z.abs (t * N - 1000 * R)) in *.
      assert (HX : 0 <= X) by apply Z.abs_nonneg.
      change (2 ^ 53) with 9007199254740992 in Ht, Hbig.
      change (2 ^ 42) with 4398046511104. change (2 ^ 41) with 2199023255552.
      assert (HXN : X < N) by lia.
      split; [unfold X in HXN; nia|]. split; [reflexivity|].
      split; [lia|]. intros Hsmall. lia.
Qed.

Lemma get_statistics_spec_witness :
  get_statistics empty_library = EmptyLibrary
  /\ exists (s : statistics) (t : Z),
       get_statistics two_books = Statistics s
       /\ total_books s = 2 /\ read_books s = 1
       /\ percent_line s = "50.0"
       /\ 2 * Z.abs (t * 2 - 1000 * 1) <= 2
       /\ percent_line s
          = (NilZero.string_of_int (Z.to_int (t / 10)) ++ "."
             ++ NilZero.string_of_int (Z.to_int (t mod 10)))%string.
Proof.
  split.
  - apply (get_statistics_spec empty_library). reflexivity.
  - destruct (proj2 (get_statistics_spec two_books))
      as (s & Hs & _ & _ & _ & _ & _ & Hacc); [discriminate|].
    pose proof Hs as Hs'. vm_compute in Hs'. injection Hs' as <-.
    destruct (Hacc eq_refl) as (_ & t & _ & Hline & _ & Hnear).
    eexists. exists t. split; [exact Hs|]. split; [reflexivity|].
    split; [reflexivity|]. split; [reflexivity|].
    split; [exact (Hnear eq_refl)|exact Hline].
Defined.

(** ** Title and author of a new book *)

Lemma sql_insert_rows (t t' : table) (ti au ye ge st da : sqlval) :
  sql_insert t ti au ye ge st da = Some t' ->
  exists b, rows t' = rows t ++ [b] /\ has_title_and_author b
            /\ title b = apply_affinity TEXT ti
            /\ author b = apply_affinity TEXT au.
Proof.
  unfold sql_insert.
  destruct (is_null ti) eqn:E1; [discriminate|].
  destruct (is_null au) eqn:E2; [discriminate|]. cbn [orb]. cbv zeta.
  destruct (max_int64 <=? _); [discriminate|].
  intros [= <-]. eexists. split; [reflexivity|].
  split; [|split; reflexivity].
  unfold has_title_and_author.
  destruct ti, au; simpl in *; try discriminate; split; discriminate.
Qed.

Lemma execute_insert_rows (t t' : table) (v1 v2 v3 v4 v5 v6 : pyval) :
  execute_insert t v1 v2 v3 v4 v5 v6 = inr t' ->
  exists b, rows t' = rows t ++ [b] /\ has_title_and_author b.
Proof.
  unfold execute_insert, bind.
  destruct (bind_value v1); [discriminate|].
  destruct (bind_value v2); [discriminate|].
  destruct (bind_value v3); [discriminate|].
  destruct (bind_value v4); [discriminate|].
  destruct (bind_value v5); [discriminate|].
  destruct (bind_value v6); [discriminate|].
  destruct (sql_insert _ _ _ _ _ _ _) as [t1|] eqn:E; [|discriminate].
  intros [= <-]. apply sql_insert_rows in E.
  destruct E as (b & H1 & H2 & _). eauto.
Qed.

Lemma import_record_rows (t t' : table) (j : pyval) :
  import_record t j = inr t' ->
  exists b, rows t' = rows t ++ [b] /\ has_title_and_author b.
Proof.
  unfold import_record, bind.
  repeat (match goal with
          | |- context [getitem j ?k] => destruct (getitem j k); [discriminate|]
          end).
  apply execute_insert_rows.
Qed.

Lemma import_books_rows (items : list pyval) (t t' : table) (e : option exn) :
  import_books t items = (e, t') ->
  forall b, In b (rows t') -> In b (rows t) \/ has_title_and_author b.
Proof.
  revert t. induction items as [|j items IH]; simpl; intros t H b Hb.
  - injection H as _ <-. now left.
  - destruct (import_record t j) as [e0|t1] eqn:E.
    + injection H as _ <-. now left.
    + apply import_record_rows in E. destruct E as (b1 & Hrows & Hb1).
      destruct (IH _ H b Hb) as [Hin|Hok]; [|now right].
      rewrite Hrows in Hin. apply in_app_or in Hin.
      destruct Hin as [Hin|[<-|[]]]; auto.
Qed.

(** C10 as stated fails: the core layer stores an empty title and an empty
    author as they come, both in add and in import. *)
Lemma empty_title_counterexample :
  (exists lib',
     add_book "2024-04-04 04:04:04" (PyStr "") (PyStr "") (PyInt 2000)
              (PyStr "Other") (PyBool false) empty_library = (BookAdded, lib')
     /\ map title (catalog lib') = [SqlText ""]
     /\ map author (catalog lib') = [SqlText ""])
  /\ (exists lib',
        import_library "blank.json" "y" empty_library
          (one_file "blank.json"
             (PyList [PyDict [("title", PyStr ""); ("author", PyStr "");
                              ("publication_year", PyInt 2000);
                              ("genre", PyStr "Other");
                              ("read_status", PyBool false);
                              ("added_date", PyStr "2024-04-04 04:04:04")]]))
        = (Imported 1, lib')
        /\ map title (catalog lib') = [SqlText ""]
        /\ map author (catalog lib') = [SqlText ""]).
Proof.
  split; eexists; (split; [reflexivity|]); split; reflexivity.
Qed.

(** C10, amended.  Every book that add or import creates has a title and
    an author that are not NULL; and every book created through the menu's
    "Add New Book", which refuses an empty title or author before it calls
    add, has a non-empty text as title and as author. *)
Theorem new_books_have_title_and_author :
  (forall now v1 v2 v3 v4 v5 lib o lib' b,
      add_book now v1 v2 v3 v4 v5 lib = (o, lib') ->
      In b (catalog lib') ->
      In b (catalog lib) \/ has_title_and_author b)
  /\ (forall filename confirm lib fs o lib' b,
         import_library filename confirm lib fs = (o, lib') ->
         In b (catalog lib') ->
         In b (catalog lib) \/ has_title_and_author b)
  /\ (forall now ti au y g r lib o lib' b,
         shell_add now ti au y g r lib = (o, lib') ->
         In b (catalog lib') ->
         In b (catalog lib) \/ has_nonempty_title_and_author b).
Proof.
  split; [|split].
  - intros now v1 v2 v3 v4 v5 lib o lib' b. unfold add_book.
    destruct (execute_insert _ _ _ _ _ _ _) as [e|t'] eqn:E.
    + destruct (is_sqlite_error e); intros [= _ <-]; now left.
    + intros [= _ <-] Hb. apply execute_insert_rows in E.
      destruct E as (b1 & Hrows & Hb1). unfold catalog in Hb. simpl in Hb.
      rewrite Hrows in Hb. apply in_app_or in Hb.
      destruct Hb as [Hb|[<-|[]]]; auto.
  - intros filename confirm lib fs o lib' b. unfold import_library.
    destruct (fs filename) as [| | |j]; try (intros [= _ <-]; now left).
    destruct (truthy j); simpl; [|intros [= _ <-]; now left].
    destruct (py_len j), (py_iter j) as [items|]; try (intros [= _ <-]; now left).
    destruct (lower_string confirm =? "y")%string; simpl;
      [|intros [= _ <-]; now left].
    destruct (import_books _ items) as [[e|] t'] eqn:E;
      intros [= _ <-] Hb; unfold catalog in Hb; simpl in Hb;
      destruct (import_books_rows _ _ _ _ E b Hb) as [[]|Hok]; now right.
  - intros now ti au y g r lib o lib' b. unfold shell_add.
    destruct (ti =? "")%string eqn:Et; [intros [= _ <-]; now left|].
    destruct (au =? "")%string eqn:Ea; [intros [= _ <-]; now left|].
    apply String.eqb_neq in Et, Ea.
    unfold add_book, execute_insert, bind_value, bind, ret.
    destruct (in_int64 y); [|simpl; intros [= _ <-]; now left].
    destruct (sql_insert _ _ _ _ _ _ _) as [t'|] eqn:E;
      [|simpl; intros [= _ <-]; now left].
    intros [= _ <-] Hb. apply sql_insert_rows in E.
    destruct E as (b1 & Hrows & _ & Ht & Ha). unfold catalog in Hb. simpl in Hb.
    rewrite Hrows in Hb. apply in_app_or in Hb.
    destruct Hb as [Hb|[<-|[]]]; [now left|right].
    split; eexists; (split; [eassumption|assumption]).
Qed.

Lemma new_books_have_title_and_author_witness :
  Forall has_nonempty_title_and_author
    (catalog (snd (shell_add "2024-01-01 10:00:00" "Dune" "Herbert" 1965
                     "Science Fiction" false empty_library))).
Proof.
  apply Forall_forall. intros b Hb.
  destruct (proj2 (proj2 new_books_have_title_and_author)
              "2024-01-01 10:00:00" "Dune" "Herbert" 1965 "Science Fiction"
              false empty_library _ _ b eq_refl Hb) as [[]|H].
  exact H.
Defined.

(** * Further properties of the program *)

(** ** What an INSERT does *)

Lemma sql_insert_inv (t t' : table) (ti au ye ge st da : sqlval) :
  sql_insert t ti au ye ge st da = Some t' ->
  is_null ti = false /\ is_null au = false /\ id_mark t < max_int64
  /\ t' = {| rows := rows t ++ [row_of (id_mark t + 1) ti au ye ge st da];
             seq := id_mark t + 1 |}.
Proof.
  unfold sql_insert, id_mark.
  destruct (is_null ti); [discriminate|].
  destruct (is_null au); [discriminate|]. cbn [orb]. cbv zeta.
  destruct (max_int64 <=? _) eqn:E; [discriminate|].
  apply Z.leb_gt in E. intros [= <-]. repeat split. exact E.
Qed.

Lemma bind_value_in_range (v : pyval) (s : sqlval) :
  bind_value v = inr s -> in_range s = true.
Proof.
  destruct v as [|b|z|x|l|d]; simpl; try discriminate.
  - intros [= <-]. reflexivity.
  - intros [= <-]. now destruct b.
  - destruct (in_int64 z) eqn:E; [|discriminate]. intros [= <-]. exact E.
  - intros [= <-]. reflexivity.
Qed.

Lemma execute_insert_inv (t t' : table) (v1 v2 v3 v4 v5 v6 : pyval) :
  execute_insert t v1 v2 v3 v4 v5 v6 = inr t' ->
  exists ti au ye ge st da,
    bind_value v1 = inr ti /\ bind_value v2 = inr au /\ bind_value v3 = inr ye
    /\ bind_value v4 = inr ge /\ bind_value v5 = inr st /\ bind_value v6 = inr da
    /\ is_null ti = false /\ is_null au = false /\ id_mark t < max_int64
    /\ t' = {| rows := rows t ++ [row_of (id_mark t + 1) ti au ye ge st da];
               seq := id_mark t + 1 |}.
Proof.
  unfold execute_insert, bind.
  destruct (bind_value v1) as [|ti]; [discriminate|].
  destruct (bind_value v2) as [|au]; [discriminate|].
  destruct (bind_value v3) as [|ye]; [discriminate|].
  destruct (bind_value v4) as [|ge]; [discriminate|].
  destruct (bind_value v5) as [|st]; [discriminate|].
  destruct (bind_value v6) as [|da]; [discriminate|].
  destruct (sql_insert _ _ _ _ _ _ _) as [t1|] eqn:E; [|discriminate].
  intros [= <-]. apply sql_insert_inv in E.
  exists ti, au, ye, ge, st, da. tauto.
Qed.

Lemma import_record_inv (t t' : table) (j : pyval) :
  import_record t j = inr t' ->
  exists v1 v2 v3 v4 v5 v6,
    getitem j "title" = inr v1 /\ getitem j "author" = inr v2
    /\ getitem j "publication_year" = inr v3 /\ getitem j "genre" = inr v4
    /\ getitem j "read_status" = inr v5 /\ getitem j "added_date" = inr v6
    /\ execute_insert t v1 v2 v3 v4 v5 v6 = inr t'.
Proof.
  unfold import_record, bind.
  destruct (getitem j "title") as [|v1]; [discriminate|].
  destruct (getitem j "author") as [|v2]; [discriminate|].
  destruct (getitem j "publication_year") as [|v3]; [discriminate|].
  destruct (getitem j "genre") as [|v4]; [discriminate|].
  destruct (getitem j "read_status") as [|v5]; [discriminate|].
  destruct (getitem j "added_date") as [|v6]; [discriminate|].
  intros H. exists v1, v2, v3, v4, v5, v6. tauto.
Qed.

Lemma id_mark_ge (t : table) (b : book) : In b (rows t) -> id b <= id_mark t.
Proof. intros H. apply max_rowid_ge in H. unfold id_mark. lia. Qed.

Lemma id_mark_insert (t : table) (b : book) :
  id b = id_mark t + 1 ->
  id_mark {| rows := rows t ++ [b]; seq := id_mark t + 1 |} = id_mark t + 1.
Proof.
  intros Hb. unfold id_mark at 1. simpl. rewrite max_rowid_app, Hb.
  unfold id_mark. lia.
Qed.

Lemma max_rowid_filter (f : book -> bool) (l : list book) :
  max_rowid (filter f l) <= max_rowid l.
Proof.
  induction l as [|x l IH]; simpl; [lia|].
  destruct (f x); simpl; lia.
Qed.

Lemma map_id_update (t : table) (v : sqlval) (i : Z) :
  map id (rows (sql_update_status t v i)) = map id (rows t).
Proof.
  unfold sql_update_status; simpl. rewrite map_map. apply map_ext.
  intros b. now destruct (id b =? i).
Qed.

Lemma max_rowid_map_id (l l' : list book) :
  map id l = map id l' -> max_rowid l = max_rowid l'.
Proof.
  revert l'. induction l as [|x l IH]; intros [|y l']; simpl; try discriminate.
  - reflexivity.
  - intros [= Hxy Hl]. rewrite Hxy, (IH _ Hl). reflexivity.
Qed.

(** ** Every method writes through the same four statements *)

Lemma writes_one (t t' : table) : statement t t' -> writes t t'.
Proof. intros H. eapply writes_more; [exact H|constructor]. Qed.

Lemma writes_trans (t1 t2 t3 : table) :
  writes t1 t2 -> writes t2 t3 -> writes t1 t3.
Proof.
  induction 1 as [|a b c Hs Hw IH]; [auto|].
  intros H3. eapply writes_more; [exact Hs|now apply IH].
Qed.

Lemma execute_insert_statement (t t' : table) (v1 v2 v3 v4 v5 v6 : pyval) :
  execute_insert t v1 v2 v3 v4 v5 v6 = inr t' -> statement t t'.
Proof.
  intros H. apply execute_insert_inv in H.
  destruct H as (ti & au & ye & ge & st & da & B1 & B2 & B3 & B4 & B5 & B6
                 & N1 & N2 & Hm & ->).
  apply bind_value_in_range in B1, B2, B3, B4, B5, B6.
  now constructor.
Qed.

Lemma import_books_writes (items : list pyval) (t t' : table) (e : option exn) :
  import_books t items = (e, t') -> writes t t'.
Proof.
  revert t. induction items as [|j items IH]; simpl; intros t H.
  - injection H as _ <-. constructor.
  - destruct (import_record t j) as [e0|t1] eqn:E.
    + injection H as _ <-. constructor.
    + apply import_record_inv in E.
      destruct E as (v1 & v2 & v3 & v4 & v5 & v6 & _ & _ & _ & _ & _ & _ & E).
      eapply writes_more; [eapply execute_insert_statement; exact E|].
      now apply IH.
Qed.

Lemma add_book_writes now v1 v2 v3 v4 v5 lib :
  writes (working lib) (working (snd (add_book now v1 v2 v3 v4 v5 lib))).
Proof.
  unfold add_book.
  destruct (execute_insert _ _ _ _ _ _ _) as [e|t'] eqn:E.
  - destruct (is_sqlite_error e); constructor.
  - simpl. apply writes_one. eapply execute_insert_statement; exact E.
Qed.

Lemma remove_book_writes i lib :
  writes (working lib) (working (snd (remove_book i lib))).
Proof.
  unfold remove_book. destruct (bind_value (PyInt i)); [constructor|].
  destruct (sql_select_id (working lib) i); [|constructor].
  simpl. apply writes_one. constructor.
Qed.

Lemma update_read_status_writes i lib :
  writes (working lib) (working (snd (update_read_status i lib))).
Proof.
  unfold update_read_status. destruct (bind_value (PyInt i)); [constructor|].
  destruct (sql_select_id (working lib) i) as [b|]; [|constructor].
  simpl. apply writes_one.
  apply (stmt_update (working lib) (negb (sql_truthy (read_status b))) i).
Qed.

Lemma import_library_writes f c lib fs :
  writes (working lib) (working (snd (import_library f c lib fs))).
Proof.
  unfold import_library.
  destruct (fs f) as [| | |j]; try constructor.
  destruct (truthy j); simpl; [|constructor].
  destruct (py_len j), (py_iter j) as [items|]; try constructor.
  destruct (lower_string c =? "y")%string; simpl; [|constructor].
  destruct (import_books _ items) as [[e|] t'] eqn:E; simpl;
    (eapply writes_more; [apply stmt_delete_all|];
     eapply import_books_writes; exact E).
Qed.

Lemma run_call_writes (c : call) (lib : library) :
  writes (working lib) (working (run_call c lib)).
Proof.
  destruct c; simpl.
  - apply add_book_writes.
  - apply remove_book_writes.
  - apply update_read_status_writes.
  - apply import_library_writes.
Qed.

Lemma run_calls_writes (cs : list call) (lib : library) :
  writes (working lib) (working (run_calls cs lib)).
Proof.
  revert lib. induction cs as [|c cs IH]; intros lib; simpl.
  - constructor.
  - eapply writes_trans; [apply run_call_writes|apply IH].
Qed.

(** An invariant of the four statements is an invariant of every sequence
    of calls. *)
Lemma writes_invariant (P : table -> Prop) :
  (forall t t', statement t t' -> P t -> P t') ->
  forall t t', writes t t' -> P t -> P t'.
Proof.
  intros Hstep t t' Hw. induction Hw as [|a b c Hs Hw IH]; [auto|].
  intros Ha. apply IH. now apply (Hstep a b).
Qed.

(** ** Ids stay unique *)

Lemma nodup_ids_filter (f : book -> bool) (l : list book) :
  NoDup (map id l) -> NoDup (map id (filter f l)).
Proof.
  induction l as [|x l IH]; simpl; intros H; [constructor|].
  inversion H as [|? ? Hnotin Hnd]; subst.
  destruct (f x); simpl; [|now apply IH].
  constructor; [|now apply IH].
  intros Hin. apply Hnotin. apply in_map_iff in Hin.
  destruct Hin as (y & Hy & Hin). apply filter_In in Hin.
  apply in_map_iff. exists y. tauto.
Qed.

Lemma statement_unique_ids (t t' : table) :
  statement t t' -> NoDup (map id (rows t)) -> NoDup (map id (rows t')).
Proof.
  intros Hs Hnd. destruct Hs; [simpl|simpl| |simpl].
  - rewrite map_app. simpl.
    eapply Permutation_NoDup; [apply Permutation_cons_append|].
    constructor; [|exact Hnd].
    intros Hin. apply in_map_iff in Hin. destruct Hin as (b & Hb & Hin).
    apply id_mark_ge in Hin. lia.
  - now apply nodup_ids_filter.
  - now rewrite map_id_update.
  - constructor.
Qed.

(** X1.  Whatever is called, in whatever order and with whatever
    arguments, two books of the catalog never share an id. *)
Theorem ids_stay_unique (cs : list call) (lib : library) :
  NoDup (map id (catalog lib)) ->
  NoDup (map id (catalog (run_calls cs lib))).
Proof.
  unfold catalog.
  apply (writes_invariant (fun t => NoDup (map id (rows t)))
           statement_unique_ids).
  apply run_calls_writes.
Qed.

(** ** Ids are not reused *)

Lemma statement_counter (t t' : table) :
  statement t t' -> counter_ok t -> counter_ok t' /\ ids_kept_or_new t t'.
Proof.
  unfold counter_ok, ids_kept_or_new. intros Hs Hc. destruct Hs.
  - rewrite id_mark_insert by reflexivity. simpl.
    rewrite max_rowid_app. simpl. unfold id_mark in *.
    split; [lia|]. split; [lia|].
    intros b Hb. apply in_app_or in Hb. destruct Hb as [Hb|[<-|[]]].
    + left. now exists b.
    + right. simpl. lia.
  - pose proof (max_rowid_filter (fun b => negb (id b =? i)) (rows t)) as Hf.
    unfold id_mark; simpl. split; [lia|]. split; [lia|].
    intros b Hb. apply filter_In in Hb. left. exists b. tauto.
  - pose proof (max_rowid_map_id _ _ (map_id_update t (SqlInt (bool_int b)) i)) as Hm.
    unfold id_mark. cbn [seq sql_update_status] in *.
    change (rows (sql_update_status t (SqlInt (bool_int b)) i))
      with (map (fun b0 => if id b0 =? i
                           then set_read_status
                                  (apply_affinity NUMERIC (SqlInt (bool_int b))) b0
                           else b0) (rows t)) in *.
    split; [lia|]. split; [lia|].
    intros b' Hb. apply in_map_iff in Hb. destruct Hb as (b0 & <- & Hin).
    left. exists b0. split; [exact Hin|]. now destruct (id b0 =? i).
  - unfold id_mark; simpl. pose proof (max_rowid_nonneg (rows t)).
    split; [lia|]. split; [lia|]. intros b [].
Qed.

Lemma ids_kept_or_new_trans (t1 t2 t3 : table) :
  ids_kept_or_new t1 t2 -> ids_kept_or_new t2 t3 -> ids_kept_or_new t1 t3.
Proof.
  intros [H1 H2] [H3 H4]. split; [lia|].
  intros b Hb. destruct (H4 b Hb) as [(b0 & Hin & Hid)|Hnew]; [|right; lia].
  destruct (H2 b0 Hin) as [(b1 & Hin1 & Hid1)|Hnew].
  - left. exists b1. split; [exact Hin1|congruence].
  - right. lia.
Qed.

Lemma writes_counter (t t' : table) :
  writes t t' -> counter_ok t -> counter_ok t' /\ ids_kept_or_new t t'.
Proof.
  induction 1 as [t|a b c Hs Hw IH]; intros Hc.
  - split; [exact Hc|]. split; [lia|]. intros b Hb. left. now exists b.
  - destruct (statement_counter a b Hs Hc) as [Hcb Hab].
    destruct (IH Hcb) as [Hcc Hbc].
    split; [exact Hcc|]. now apply (ids_kept_or_new_trans a b c).
Qed.

(** X2.  Ids are not reused.  After any calls, the id of each book is the
    id of a book that was there before them, or lies above every id handed
    out before; and the mark of ids handed out never goes down.  So the id
    of a removed book, or of a book wiped by an import, does not come
    back. *)
Theorem ids_never_reused (cs : list call) (lib : library) :
  counter_ok (working lib) ->
  counter_ok (working (run_calls cs lib))
  /\ id_mark (working lib) <= id_mark (working (run_calls cs lib))
  /\ (forall b, In b (catalog (run_calls cs lib)) ->
                (exists b0, In b0 (catalog lib) /\ id b0 = id b)
                \/ id_mark (working lib) < id b)
  /\ (forall i, i <= id_mark (working lib) ->
                (forall b0, In b0 (catalog lib) -> id b0 <> i) ->
                forall b, In b (catalog (run_calls cs lib)) -> id b <> i).
Proof.
  intros Hc.
  destruct (writes_counter _ _ (run_calls_writes cs lib) Hc) as [Hc' [Hm Hids]].
  split; [exact Hc'|]. split; [exact Hm|]. split; [exact Hids|].
  intros i Hi Habs b Hb Heq.
  destruct (Hids b Hb) as [(b0 & Hin & Hid)|Hnew]; [|lia].
  apply (Habs b0 Hin). congruence.
Qed.

Lemma ids_never_reused_witness :
  map id (catalog (run_calls
                     [CallRemove 2;
                      CallAdd "2024-07-07 07:07:07" (PyStr "Persuasion")
                              (PyStr "Austen") (PyInt 1817) (PyStr "Fiction")
                              (PyBool false)]
                     two_books))
  = [1; 3]
  /\ Forall (fun b => (exists b0, In b0 (catalog two_books) /\ id b0 = id b)
                      \/ id_mark (working two_books) < id b)
       (catalog (run_calls
                   [CallRemove 2;
                    CallAdd "2024-07-07 07:07:07" (PyStr "Persuasion")
                            (PyStr "Austen") (PyInt 1817) (PyStr "Fiction")
                            (PyBool false)]
                   two_books)).
Proof.
  split; [reflexivity|]. apply Forall_forall.
  apply (ids_never_reused _ two_books). unfold counter_ok. simpl. lia.
Defined.

Lemma ids_stay_unique_witness :
  NoDup (map id (catalog (run_calls
                            [CallRemove 2;
                             CallImport "library_export.json" "y"
                               (one_file "library_export.json"
                                  (PyList [complete_record; complete_record]))]
                            two_books))).
Proof.
  apply ids_stay_unique. repeat constructor; simpl; intuition discriminate.
Defined.

(** ** Rows stay as the columns store them *)

Lemma storable_affinity (a : affinity) (v : sqlval) :
  in_range v = true -> storable a (apply_affinity a v) = true.
Proof.
  unfold storable. intros Hr.
  destruct a, v as [|z|s]; simpl in *; try reflexivity;
    try (rewrite Z.eqb_refl, Hr; reflexivity);
    try (rewrite String.eqb_refl; reflexivity);
    (destruct (int_of_text s) as [z|] eqn:E; simpl;
     [destruct (in_int64 z) eqn:Ez; simpl;
      [rewrite Z.eqb_refl, Ez; reflexivity
      |rewrite E, Ez; simpl; rewrite String.eqb_refl; reflexivity]
     |rewrite E; simpl; rewrite String.eqb_refl; reflexivity]).
Qed.

Lemma affinity_keeps_not_null (a : affinity) (v : sqlval) :
  is_null v = false -> is_null (apply_affinity a v) = false.
Proof.
  destruct a, v as [|z|s]; simpl; try discriminate; try reflexivity;
    intros _; destruct (int_of_text s) as [z|]; try reflexivity;
    destruct (in_int64 z); reflexivity.
Qed.

Lemma well_stored_set_status (b : book) (x : bool) :
  well_stored b = true ->
  well_stored (set_read_status (apply_affinity NUMERIC (SqlInt (bool_int x))) b) = true.
Proof.
  unfold well_stored. simpl. rewrite !andb_true_iff.
  intros [[[[[[[H1 H2] H3] H4] H5] H6] _] H8].
  repeat split; try assumption. now destruct x.
Qed.

Lemma statement_well_stored (t t' : table) :
  statement t t' ->
  forallb well_stored (rows t) = true -> forallb well_stored (rows t') = true.
Proof.
  intros Hs Hw. destruct Hs; [simpl|simpl| |reflexivity].
  - rewrite forallb_app, Hw. simpl. rewrite andb_true_r.
    unfold well_stored, row_of.
    cbn [title author publication_year genre read_status added_date].
    rewrite !affinity_keeps_not_null, !storable_affinity by assumption.
    reflexivity.
  - rewrite forallb_forall in *. intros b Hb. apply filter_In in Hb.
    apply Hw. tauto.
  - rewrite forallb_forall in *. intros b' Hb.
    unfold sql_update_status in Hb. simpl in Hb. apply in_map_iff in Hb.
    destruct Hb as (b0 & <- & Hin). destruct (id b0 =? i).
    + apply (well_stored_set_status b0 b). now apply Hw.
    + now apply Hw.
Qed.

Lemma well_stored_after_calls (cs : list call) (lib : library) :
  forallb well_stored (catalog lib) = true ->
  forallb well_stored (catalog (run_calls cs lib)) = true.
Proof.
  unfold catalog.
  apply (writes_invariant (fun t => forallb well_stored (rows t) = true)
           statement_well_stored).
  apply run_calls_writes.
Qed.

(** ** The read status stays a boolean under the calls of the menu *)

Lemma run_call_boolean (c : call) (lib : library) :
  boolean_call c = true ->
  forallb (fun b => is_boolean (read_status b)) (catalog lib) = true ->
  forallb (fun b => is_boolean (read_status b)) (catalog (run_call c lib)) = true.
Proof.
  unfold catalog. destruct c as [now v1 v2 v3 v4 v5|i|i|f c fs]; simpl;
    try discriminate.
  - destruct v5 as [|r| | | |]; try discriminate. intros _ Hb.
    unfold add_book.
    destruct (execute_insert _ _ _ _ _ _ _) as [e|t'] eqn:E.
    + now destruct (is_sqlite_error e).
    + apply execute_insert_inv in E.
      destruct E as (ti & au & ye & ge & st & da & _ & _ & _ & _ & B5 & _
                     & _ & _ & _ & ->).
      simpl in B5. injection B5 as <-. simpl.
      rewrite forallb_app, Hb. simpl. now destruct r.
  - intros _ Hb. unfold remove_book.
    destruct (bind_value (PyInt i)); [exact Hb|].
    destruct (sql_select_id (working lib) i) as [b0|]; [|exact Hb]. simpl.
    rewrite forallb_forall in *. intros b1 Hin. apply filter_In in Hin.
    apply Hb. tauto.
  - intros _ Hb. unfold update_read_status.
    destruct (bind_value (PyInt i)); [exact Hb|].
    destruct (sql_select_id (working lib) i) as [b0|]; [|exact Hb]. simpl.
    rewrite forallb_forall in *. intros b2 Hin. apply in_map_iff in Hin.
    destruct Hin as (b1 & <- & Hin). destruct (id b1 =? i).
    + simpl. now destruct (sql_truthy (read_status b0)).
    + now apply Hb.
Qed.

(** X4.  Under the calls [main] makes (add with a boolean read status,
    remove, update) the catalog stays well typed: if every row is well
    stored and holds its read status as 0 or 1 before, so it is after. *)
Theorem menu_calls_keep_well_typed (cs : list call) (lib : library) :
  forallb boolean_call cs = true ->
  forallb well_typed (catalog lib) = true ->
  forallb well_typed (catalog (run_calls cs lib)) = true.
Proof.
  intros Hcs Hwt. apply forallb_and in Hwt. destruct Hwt as [Hws Hb].
  assert (Hb' : forallb (fun b => is_boolean (read_status b))
                        (catalog (run_calls cs lib)) = true).
  { clear Hws. revert lib Hb. induction cs as [|c cs IH]; intros lib Hb; simpl.
    - exact Hb.
    - simpl in Hcs. apply andb_true_iff in Hcs. destruct Hcs as [Hc Hcs].
      apply IH; [exact Hcs|]. now apply run_call_boolean. }
  pose proof (well_stored_after_calls cs lib Hws) as Hws'.
  rewrite forallb_forall in *. intros b Hin. unfold well_typed.
  now rewrite (Hws' b Hin), (Hb' b Hin).
Qed.

Lemma menu_calls_keep_well_typed_witness :
  forallb well_typed
    (catalog (run_calls
                [CallAdd "2024-07-07 07:07:07" (PyStr "Persuasion") (PyStr "Austen")
                         (PyInt 1817) (PyStr "Fiction") (PyBool true);
                 CallUpdate 1; CallRemove 2]
                empty_library)) = true.
Proof. apply menu_calls_keep_well_typed; reflexivity. Defined.

(** ** add: one row or nothing *)






(** ** A book keeps its fields for life *)

Lemma statement_old_rows_fixed (t t' : table) :
  statement t t' -> old_rows_fixed t t'.
Proof.
  unfold old_rows_fixed. intros Hs. destruct Hs; intros b' Hin Hid.
  - simpl in Hin. apply in_app_or in Hin. destruct Hin as [Hin|[<-|[]]].
    + now exists b'.
    + simpl in Hid. lia.
  - simpl in Hin. apply filter_In in Hin. exists b'. tauto.
  - unfold sql_update_status in Hin. simpl in Hin. apply in_map_iff in Hin.
    destruct Hin as (b0 & <- & Hin). exists b0. split; [exact Hin|].
    now destruct (id b0 =? i).
  - destruct Hin.
Qed.

Lemma writes_old_rows_fixed (t t' : table) :
  writes t t' -> counter_ok t -> old_rows_fixed t t'.
Proof.
  induction 1 as [t|a b c Hs Hw IH]; intros Hc.
  - intros b' Hin _. now exists b'.
  - destruct (statement_counter a b Hs Hc) as [Hcb [Hmark _]].
    pose proof (statement_old_rows_fixed a b Hs) as Hab.
    specialize (IH Hcb). intros b' Hin Hid.
    destruct (IH b' Hin) as (b1 & Hin1 & Hf1); [lia|].
    destruct (Hab b1 Hin1) as (b0 & Hin0 & Hf0).
    + unfold fixed_fields in Hf1. injection Hf1 as Hid1 _. lia.
    + exists b0. split; [exact Hin0|congruence].
Qed.

(** X6.  Through any calls whatever, a book that is still in the catalog
    under the id it had before has the title, author, publication year,
    genre and added date it had before: only its read status can have
    changed. *)
Theorem book_fields_never_change (cs : list call) (lib : library)
    (b b' : book) :
  counter_ok (working lib) ->
  NoDup (map id (catalog lib)) ->
  In b (catalog lib) ->
  In b' (catalog (run_calls cs lib)) ->
  id b' = id b ->
  title b' = title b /\ author b' = author b
  /\ publication_year b' = publication_year b /\ genre b' = genre b
  /\ added_date b' = added_date b.
Proof.
  intros Hc Hnd Hin Hin' Hid.
  destruct (writes_old_rows_fixed _ _ (run_calls_writes cs lib) Hc b' Hin')
    as (b0 & Hin0 & Hf).
  - rewrite Hid. now apply id_mark_ge.
  - assert (b0 = b).
    { apply (unique_id (catalog lib)); auto.
      unfold fixed_fields in Hf. injection Hf as Hf _. congruence. }
    subst b0. unfold fixed_fields in Hf. injection Hf as _ -> -> -> -> ->.
    repeat split.
Qed.

Lemma book_fields_never_change_witness :
  Forall (fun b' => id b' = id dune ->
                    title b' = title dune /\ added_date b' = added_date dune)
    (catalog (run_calls [CallUpdate 1; CallRemove 2; CallUpdate 1] two_books)).
Proof.
  apply Forall_forall. intros b' Hin Hid.
  destruct (book_fields_never_change
              [CallUpdate 1; CallRemove 2; CallUpdate 1] two_books dune b')
    as (H1 & _ & _ & _ & H5); try assumption.
  - unfold counter_ok. simpl. lia.
  - repeat constructor; simpl; intuition discriminate.
  - now left.
  - now split.
Defined.

(** ** The full listing *)

(** X7.  view_all_books shows the "library is empty" message exactly when
    the catalog is empty; otherwise it lists every book exactly once, in
    ascending order of title, and the status printed for a book is
    "Read" with its mark exactly when the stored read status is truthy. *)
Theorem view_all_books_spec (lib : library) :
  (view_all_books lib = NothingToShow <-> catalog lib = [])
  /\ Permutation (fetched (view_all_books lib)) (catalog lib)
  /\ Sorted by_title (fetched (view_all_books lib))
  /\ List.length (printed_rows (view_all_books lib)) = List.length (catalog lib)
  /\ (forall b, row_status (format_row b) = status_text true
                <-> sql_truthy (read_status b) = true).
Proof.
  unfold view_all_books, catalog. rewrite fetched_show.
  pose proof (sort_by_title_perm (rows (working lib))) as Hp.
  split; [|split; [exact Hp|split; [apply sort_by_title_sorted|split]]].
  - split.
    + intros H. destruct (sort_by_title (rows (working lib))) eqn:E;
        [|discriminate].
      now apply Permutation_nil.
    + intros H. now rewrite H.
  - destruct (sort_by_title (rows (working lib))) eqn:E.
    + simpl. now rewrite <- (Permutation_length Hp).
    + simpl. rewrite <- (Permutation_length Hp). simpl.
      now rewrite length_map.
  - intros b. unfold format_row. simpl.
    destruct (sql_truthy (read_status b)); simpl; split;
      try reflexivity; discriminate.
Qed.

(** ** search: letter case and wildcards *)

Lemma fold_char (c : ascii) :
  (upper c =? "%")%char = (c =? "%")%char
  /\ (upper c =? "_")%char = (c =? "_")%char
  /\ lower (upper c) = lower c
  /\ (lower c =? "%")%char = (c =? "%")%char
  /\ (lower c =? "_")%char = (c =? "_")%char
  /\ lower (lower c) = lower c.
Proof. destruct c as [[] [] [] [] [] [] [] []]; repeat split. Qed.

Lemma fold_nul (c : ascii) :
  (upper c =? "000")%char = (c =? "000")%char
  /\ (lower c =? "000")%char = (c =? "000")%char.
Proof. destruct c as [[] [] [] [] [] [] [] []]; split; reflexivity. Qed.

(** Two pattern characters that LIKE cannot tell apart. *)
Lemma like_same_char (c c' : ascii) (p p' : string) :
  (c' =? "%")%char = (c =? "%")%char ->
  (c' =? "_")%char = (c =? "_")%char ->
  lower c' = lower c ->
  (forall s, like p' s = like p s) ->
  forall s, like (String c' p') s = like (String c p) s.
Proof.
  intros H1 H2 H3 Hp s. cbn [like]. rewrite H1, H2.
  destruct (c =? "%")%char; [now apply existsb_ext_all|].
  destruct (c =? "_")%char.
  - destruct (after_char s); [apply Hp|reflexivity].
  - destruct s as [|d s]; [reflexivity|].
    unfold nocase_eqb. now rewrite H3, Hp.
Qed.

Lemma like_upper (p s : string) : like (upper_string p) s = like p s.
Proof.
  revert s. induction p as [|c p IH]; intros s; [reflexivity|].
  simpl upper_string. destruct (fold_char c) as (H1 & H2 & H3 & _).
  now apply like_same_char.
Qed.

Lemma like_lower (p s : string) : like (lower_string p) s = like p s.
Proof.
  revert s. induction p as [|c p IH]; intros s; [reflexivity|].
  simpl lower_string. destruct (fold_char c) as (_ & _ & _ & H1 & H2 & H3).
  now apply like_same_char.
Qed.

Lemma upper_string_app (a b : string) :
  upper_string (a ++ b) = (upper_string a ++ upper_string b)%string.
Proof. induction a as [|c a IH]; simpl; [reflexivity|now rewrite IH]. Qed.

Lemma lower_string_app (a b : string) :
  lower_string (a ++ b) = (lower_string a ++ lower_string b)%string.
Proof. induction a as [|c a IH]; simpl; [reflexivity|now rewrite IH]. Qed.

Lemma length_upper_string (s : string) :
  String.length (upper_string s) = String.length s.
Proof. induction s as [|c s IH]; simpl; [reflexivity|now rewrite IH]. Qed.

Lemma length_lower_string (s : string) :
  String.length (lower_string s) = String.length s.
Proof. induction s as [|c s IH]; simpl; [reflexivity|now rewrite IH]. Qed.

Lemma c_string_upper (s : string) :
  c_string (upper_string s) = upper_string (c_string s).
Proof.
  induction s as [|c s IH]; simpl; [reflexivity|].
  rewrite (proj1 (fold_nul c)). destruct (c =? "000")%char; [reflexivity|].
  simpl. now rewrite IH.
Qed.

Lemma c_string_lower (s : string) :
  c_string (lower_string s) = lower_string (c_string s).
Proof.
  induction s as [|c s IH]; simpl; [reflexivity|].
  rewrite (proj2 (fold_nul c)). destruct (c =? "000")%char; [reflexivity|].
  simpl. now rewrite IH.
Qed.

Lemma sql_like_upper (v : sqlval) (p : string) :
  sql_like v (upper_string p) = sql_like v p.
Proof.
  unfold sql_like. rewrite c_string_upper.
  destruct v; [reflexivity| |]; apply like_upper.
Qed.

Lemma sql_like_lower (v : sqlval) (p : string) :
  sql_like v (lower_string p) = sql_like v p.
Proof.
  unfold sql_like. rewrite c_string_lower.
  destruct v; [reflexivity| |]; apply like_lower.
Qed.

(** X8.  The case of the ASCII letters (A to Z) of the search term does not
    matter: the term with its letters a to z put in upper case, and the term
    with its letters A to Z put in lower case, give the outcome the term
    gives, for every term, wildcards included. *)
Theorem search_books_ignores_case (term : string) (field : search_field)
    (lib : library) :
  search_books (upper_string term) field lib = search_books term field lib
  /\ search_books (lower_string term) field lib = search_books term field lib.
Proof.
  unfold search_books. split.
  - change ("%" ++ upper_string term ++ "%")%string
      with (upper_string "%" ++ upper_string term ++ upper_string "%")%string.
    rewrite <- !upper_string_app, length_upper_string.
    destruct (rows (working lib)) as [|b0 bs]; [reflexivity|].
    destruct (like_pattern_limit <? _); [reflexivity|].
    do 3 f_equal. apply filter_ext. intros b. apply sql_like_upper.
  - change ("%" ++ lower_string term ++ "%")%string
      with (lower_string "%" ++ lower_string term ++ lower_string "%")%string.
    rewrite <- !lower_string_app, length_lower_string.
    destruct (rows (working lib)) as [|b0 bs]; [reflexivity|].
    destruct (like_pattern_limit <? _); [reflexivity|].
    do 3 f_equal. apply filter_ext. intros b. apply sql_like_lower.
Qed.

(** A wildcard of the term is matched by no other byte than itself. *)
Lemma wildcard_matches_itself (c d : ascii) :
  (c =? "%")%char = true \/ (c =? "_")%char = true ->
  nocase_eqb c d = true -> d = c.
Proof.
  intros [H|H]; apply Ascii.eqb_eq in H; subst c;
    destruct d as [[] [] [] [] [] [] [] []]; intros E; try reflexivity;
    discriminate E.
Qed.

Lemma like_prefix_any (t s : string) :
  prefix_nocase t s = true -> like (t ++ "%") s = true.
Proof.
  revert s. induction t as [|c t IH]; intros s H.
  - apply like_any.
  - destruct s as [|d s]; [discriminate|]. simpl in H.
    apply andb_true_iff in H. destruct H as [Hc Ht].
    specialize (IH s Ht).
    change (String c t ++ "%")%string with (String c (t ++ "%")).
    cbn [like]. destruct (c =? "%")%char eqn:E.
    + rewrite (wildcard_matches_itself c d (or_introl E) Hc).
      apply Ascii.eqb_eq in E. subst c.
      apply existsb_exists. exists s. split; [|exact IH].
      right. apply char_suffixes_self.
    + destruct (c =? "_")%char eqn:E'.
      * rewrite (wildcard_matches_itself c d (or_intror E') Hc).
        apply Ascii.eqb_eq in E'. subst c. exact IH.
      * rewrite Hc. exact IH.
Qed.

Lemma like_contains_any (t s : string) :
  contains_nocase t s = true -> like ("%" ++ t ++ "%") s = true.
Proof.
  change ("%" ++ t ++ "%")%string with (String "%" (t ++ "%")).
  unfold contains_nocase. rewrite like_percent, !existsb_exists.
  intros (x & Hin & Hp). exists x. split; [exact Hin|].
  now apply like_prefix_any.
Qed.

(** X9.  For every term without NUL whose pattern LIKE accepts (at most
    49,998 bytes) and that begins with a character, wildcards or not,
    search ends normally and misses no book: a book of the catalog whose
    chosen field, read up to its first NUL, contains the term (letters of
    ASCII compared without case) is among the results.  Every result is a
    book of the catalog whose chosen field is not NULL, and the results
    come sorted by title. *)
Theorem search_books_misses_nothing (term : string) (field : search_field)
    (lib : library) :
  no_nul term = true ->
  within_like_limit term ->
  starts_char term = true ->
  (exists l, search_books term field lib = Searched l)
  /\ (forall b, In b (catalog lib) ->
                (exists s, field_text (field_value field b) = Some s
                           /\ occurs_in term s) ->
                In b (found (search_books term field lib)))
  /\ (forall b, In b (found (search_books term field lib)) ->
                In b (catalog lib) /\ field_value field b <> SqlNull)
  /\ Sorted by_title (found (search_books term field lib)).
Proof.
  intros Hnul Hl Hs.
  rewrite (search_books_within_limit lib term field Hl).
  cbn [found]. rewrite fetched_show. split; [eauto|]. split; [|split].
  - intros b Hin Hocc. apply (field_contains_complete _ _ Hs) in Hocc.
    rewrite in_sort_by_title. apply filter_In. split; [exact Hin|].
    unfold sql_like. rewrite (c_string_pattern term Hnul).
    unfold field_contains, field_text in Hocc.
    destruct (field_value field b); [discriminate| |];
      now apply like_contains_any.
  - intros b Hin. apply (proj1 (in_sort_by_title _ _)) in Hin.
    apply filter_In in Hin. destruct Hin as [Hin Hlike].
    split; [exact Hin|]. intros Hnull. rewrite Hnull in Hlike. discriminate.
  - apply sort_by_title_sorted.
Qed.

Lemma search_books_misses_nothing_witness :
  In dune (found (search_books "UN" ByTitle two_books)).
Proof.
  assert (Hl : within_like_limit "UN").
  { unfold within_like_limit, like_pattern_limit. simpl. lia. }
  apply (search_books_misses_nothing "UN" ByTitle two_books eq_refl Hl eq_refl).
  - now left.
  - exists "Dune". split; [reflexivity|].
    now exists "D", "un", "e".
Defined.

(** ** statistics: the lists of top genres and top authors *)

Lemma string_compare_trans (a b c : string) :
  String.compare a b <> Gt -> String.compare b c <> Gt -> String.compare a c <> Gt.
Proof.
  revert b c. induction a as [|x a IH]; intros [|y b] [|z c]; simpl;
    try congruence.
  unfold Ascii.compare.
  destruct (N.compare_spec (N_of_ascii x) (N_of_ascii y)) as [Exy|Lxy|Gxy];
    [|intros _|congruence].
  - rewrite Exy.
    destruct (N.compare_spec (N_of_ascii y) (N_of_ascii z)); try congruence.
    apply IH.
  - destruct (N.compare_spec (N_of_ascii y) (N_of_ascii z)) as [Eyz|Lyz|Gyz];
      [intros _|intros _|congruence].
    + rewrite <- Eyz. apply N.compare_lt_iff in Lxy. rewrite Lxy. discriminate.
    + assert (L : (N_of_ascii x < N_of_ascii z)%N) by lia.
      apply N.compare_lt_iff in L. rewrite L. discriminate.
Qed.

Lemma string_leb_trans (a b c : string) :
  String.leb a b = true -> String.leb b c = true -> String.leb a c = true.
Proof.
  unfold String.leb. intros Hab Hbc.
  pose proof (string_compare_trans a b c) as H.
  destruct (String.compare a b); try discriminate;
    destruct (String.compare b c); try discriminate;
    destruct (String.compare a c); try reflexivity;
    exfalso; apply H; congruence.
Qed.

Lemma sqlval_leb_trans (a b c : sqlval) :
  sqlval_leb a b = true -> sqlval_leb b c = true -> sqlval_leb a c = true.
Proof.
  destruct a as [|x|x], b as [|y|y], c as [|z|z]; simpl; try congruence.
  - rewrite !Z.leb_le. lia.
  - apply string_leb_trans.
Qed.

Section TopCounts.
Context {K : Type}.
Variable key_leb : K -> K -> bool.
Hypothesis key_leb_trans :
  forall a b c, key_leb a b = true -> key_leb b c = true -> key_leb a c = true.

Local Abbreviation ascending := (by_key key_leb).
Local Abbreviation descending := (fun a b : K * Z => by_key key_leb b a).
Local Abbreviation by_count := (by_count_then_key_desc key_leb).

Lemma insert_by_count_perm (x : K * Z) (l : list (K * Z)) :
  Permutation (insert_by_count x l) (x :: l).
Proof.
  induction l as [|y l IH]; simpl; [reflexivity|].
  destruct (snd y <=? snd x); [reflexivity|].
  rewrite IH. apply perm_swap.
Qed.

Lemma sort_by_count_desc_perm (l : list (K * Z)) :
  Permutation (sort_by_count_desc l) l.
Proof.
  induction l as [|x l IH]; simpl; [constructor|].
  rewrite insert_by_count_perm. now constructor.
Qed.

Lemma strongly_sorted_app (R : K * Z -> K * Z -> Prop) (a b : list (K * Z)) :
  StronglySorted R (a ++ b) ->
  StronglySorted R a /\ forall x y, In x a -> In y b -> R x y.
Proof.
  induction a as [|h a IH]; simpl; intros Hs.
  - split; [constructor|]. intros x y [].
  - inversion Hs as [|? ? Hl Hall]; subst. destruct (IH Hl) as [Ha Hab].
    split.
    + constructor; [exact Ha|]. rewrite Forall_forall in *.
      intros x Hx. apply Hall. apply in_or_app. now left.
    + intros x y [<-|Hx] Hy; [|now apply Hab].
      rewrite Forall_forall in Hall. apply Hall. apply in_or_app. now right.
Qed.

Lemma strongly_sorted_snoc (R : K * Z -> K * Z -> Prop) (l : list (K * Z))
    (x : K * Z) :
  StronglySorted R l -> Forall (fun y => R y x) l -> StronglySorted R (l ++ [x]).
Proof.
  induction l as [|h l IH]; simpl; intros Hs Hall.
  - repeat constructor.
  - inversion Hs as [|? ? Hl Hh]; subst. inversion Hall as [|? ? Hhx Hlx]; subst.
    constructor; [now apply IH|].
    apply Forall_app. split; [exact Hh|]. now constructor.
Qed.

(** Ascending by key read backwards is descending by key. *)
Lemma sorted_by_key_rev (l : list (K * Z)) :
  Sorted ascending l -> StronglySorted descending (rev l).
Proof.
  intros Hs. apply Sorted_StronglySorted in Hs.
  - induction Hs as [|x l Hl IH Hx]; simpl; [constructor|].
    apply strongly_sorted_snoc; [exact IH|].
    apply Forall_rev. exact Hx.
  - intros a b c. unfold by_key. apply key_leb_trans.
Qed.

(** Putting a group in by its count: it comes before the groups that have
    no more books than it has. *)
Lemma insert_by_count_sorted (x : K * Z) (l : list (K * Z)) :
  StronglySorted by_count l ->
  Forall (fun y => ascending y x) l ->
  StronglySorted by_count (insert_by_count x l).
Proof.
  unfold by_count_then_key_desc.
  induction l as [|y l IH]; simpl; intros Hs Hall.
  - repeat constructor.
  - inversion Hs as [|? ? Hl Hy]; subst. inversion Hall as [|? ? Hyx Hlx]; subst.
    destruct (snd y <=? snd x) eqn:E.
    + apply Z.leb_le in E. constructor; [exact Hs|].
      assert (Hxy : snd y < snd x \/ snd y = snd x /\ key_leb (fst y) (fst x) = true).
      { destruct (Z.eq_dec (snd y) (snd x)); [right|left; lia]. now split. }
      constructor; [exact Hxy|].
      rewrite Forall_forall in *. intros z Hz.
      specialize (Hy z Hz). specialize (Hlx z Hz). unfold by_key in Hlx.
      destruct (Z.eq_dec (snd z) (snd x)); [right; now split|left; lia].
    + apply Z.leb_gt in E. constructor; [now apply IH|].
      eapply Permutation_Forall; [symmetry; apply insert_by_count_perm|].
      constructor; [left; lia|exact Hy].
Qed.

(** The sort by count is stable: groups that come in descending order of
    key leave in descending order of count and, among those of equal
    count, of key. *)
Lemma sort_by_count_desc_sorted (l : list (K * Z)) :
  StronglySorted descending l ->
  StronglySorted by_count (sort_by_count_desc l).
Proof.
  induction 1 as [|x l Hl IH Hx]; simpl; [constructor|].
  apply insert_by_count_sorted; [exact IH|].
  eapply Permutation_Forall; [symmetry; apply sort_by_count_desc_perm|].
  exact Hx.
Qed.

Lemma total_count_perm (l l' : list (K * Z)) :
  Permutation l l' -> total_count l = total_count l'.
Proof.
  induction 1 as [|x l l' Hp IH|x y l|l1 l2 l3 H1 IH1 H2 IH2]; simpl;
    try lia; congruence.
Qed.
End TopCounts.

Lemma books_with_occurrences (f : book -> sqlval) (v : sqlval) (bs : list book) :
  books_with f v bs = occurrences sqlval_eqb v (map f bs).
Proof. unfold books_with, occurrences. now rewrite length_filter_map. Qed.

(** The rows of [GROUP BY f ORDER BY count DESC]: every value of the
    column that some book has, once, with the number of its books, in
    descending order of count and, for equal counts, of value. *)
Lemma counts_by_spec (f : book -> sqlval) (t : table) :
  (forall v n, In (v, n) (counts_by f t)
               <-> n = books_with f v (rows t) /\ 0 < n)
  /\ NoDup (map fst (counts_by f t))
  /\ StronglySorted (by_count_then_key_desc sqlval_leb) (counts_by f t).
Proof.
  destruct (group_by_key_spec sqlval_eqb sqlval_leb sqlval_eqb_eq
              sqlval_leb_total (map f (rows t))) as (Hin & Hnd & Hs).
  unfold counts_by.
  set (grouped := group_by_key sqlval_eqb sqlval_leb (map f (rows t))) in *.
  assert (Hperm : Permutation (sort_by_count_desc (rev grouped)) grouped).
  { rewrite sort_by_count_desc_perm. symmetry. apply Permutation_rev. }
  split; [|split].
  - intros v n. rewrite books_with_occurrences, <- Hin.
    split; apply Permutation_in; [exact Hperm|symmetry; exact Hperm].
  - eapply Permutation_NoDup; [|exact Hnd].
    apply Permutation_map. symmetry. exact Hperm.
  - apply sort_by_count_desc_sorted.
    apply (sorted_by_key_rev sqlval_leb sqlval_leb_trans). exact Hs.
Qed.

(** X10.  "Top Genres" and "Top Authors" each show the first five lines
    (all of them when there are fewer) of the full list of the genres
    (authors): that list holds every genre (author) some book has, once,
    with the number of books that have it, in descending order of that
    number and, where numbers are equal, in descending order of the genre
    (author) itself, NULL last. *)
Theorem top_genres_and_authors_spec (lib : library) (s : statistics) :
  get_statistics lib = Statistics s ->
  (exists full,
     top_genres s = firstn 5 full
     /\ (forall v n, In (v, n) full
                     <-> n = books_with genre v (catalog lib) /\ 0 < n)
     /\ NoDup (map fst full)
     /\ StronglySorted (by_count_then_key_desc sqlval_leb) full)
  /\ (exists full,
        top_authors s = firstn 5 full
        /\ (forall v n, In (v, n) full
                        <-> n = books_with author v (catalog lib) /\ 0 < n)
        /\ NoDup (map fst full)
        /\ StronglySorted (by_count_then_key_desc sqlval_leb) full).
Proof.
  unfold get_statistics. destruct (count_all (working lib) =? 0); [discriminate|].
  intros [= <-]. cbn [top_genres top_authors]. split.
  - exists (counts_by genre (working lib)).
    split; [reflexivity|apply counts_by_spec].
  - exists (counts_by author (working lib)).
    split; [reflexivity|apply counts_by_spec].
Qed.

Lemma top_genres_and_authors_spec_witness :
  exists s, get_statistics two_books = Statistics s
            /\ top_genres s = [(SqlText "Science Fiction", 1); (SqlText "Fiction", 1)]
            /\ exists full,
                 top_authors s = firstn 5 full
                 /\ StronglySorted (by_count_then_key_desc sqlval_leb) full.
Proof.
  eexists. split; [reflexivity|]. split; [reflexivity|].
  destruct (top_genres_and_authors_spec two_books _ eq_refl)
    as (_ & full & H1 & _ & _ & H2).
  exists full. split; [exact H1|exact H2].
Defined.

(** ** statistics: the counts add up *)

Section CountSums.
Context {K : Type}.
Variable key_eqb : K -> K -> bool.
Variable key_leb : K -> K -> bool.
Hypothesis key_eqb_eq : forall a b, key_eqb a b = true <-> a = b.
Variable P : K -> bool.

Local Abbreviation kept := (filter (fun kn : K * Z => P (fst kn))).

Lemma kept_bump (k : K) (g : list (K * Z)) :
  total_count (kept (bump key_eqb k g))
  = total_count (kept g) + (if P k then 1 else 0).
Proof.
  induction g as [|[k' n] g IH]; simpl.
  - destruct (P k); simpl; lia.
  - destruct (key_eqb k k') eqn:E; simpl.
    + apply key_eqb_eq in E. subst k'. destruct (P k); simpl; lia.
    + destruct (P k'); simpl; rewrite IH; lia.
Qed.

Lemma kept_fold (ks : list K) (g : list (K * Z)) :
  total_count (kept (fold_left (fun g k => bump key_eqb k g) ks g))
  = total_count (kept g) + Z.of_nat (List.length (filter P ks)).
Proof.
  revert g. induction ks as [|k ks IH]; intros g; simpl; [lia|].
  rewrite IH, kept_bump. destruct (P k); simpl List.length; lia.
Qed.

Lemma kept_perm (l l' : list (K * Z)) :
  Permutation l l' -> total_count (kept l) = total_count (kept l').
Proof.
  induction 1 as [|x l l' Hp IH|x y l|l1 l2 l3 H1 IH1 H2 IH2]; simpl.
  - reflexivity.
  - destruct (P (fst x)); simpl; lia.
  - destruct (P (fst x)), (P (fst y)); simpl; lia.
  - congruence.
Qed.

Lemma kept_group_by_key (ks : list K) :
  total_count (kept (group_by_key key_eqb key_leb ks))
  = Z.of_nat (List.length (filter P ks)).
Proof.
  unfold group_by_key. rewrite (kept_perm _ _ (sort_by_key_perm key_leb _)).
  unfold tally. rewrite kept_fold. simpl. lia.
Qed.
End CountSums.

Lemma total_count_decade_lines (ds : list (option Z * Z)) :
  total_count (decade_lines ds)
  = total_count (filter (fun kn => is_some (fst kn)) ds).
Proof.
  induction ds as [|[[d|] n] ds IH]; simpl; [reflexivity| |exact IH].
  now rewrite IH.
Qed.

Lemma is_some_decade_of (b : book) : is_some (decade_of b) = has_year b.
Proof. unfold decade_of, has_year. now destruct (publication_year b). Qed.

(** X11.  The counts of the decade lines add up to the number of books
    that have a year: every such book is counted in exactly one decade,
    and a book without a year in none. *)
Theorem decade_counts_add_up (lib : library) (s : statistics) :
  get_statistics lib = Statistics s ->
  total_count (decades s) = Z.of_nat (List.length (filter has_year (catalog lib)))
  /\ total_count (decades s) <= total_books s
  /\ (forallb has_year (catalog lib) = true ->
      total_count (decades s) = total_books s).
Proof.
  unfold get_statistics. destruct (count_all (working lib) =? 0); [discriminate|].
  intros [= <-]. simpl.
  assert (H : total_count (decade_lines (decade_counts (working lib)))
              = Z.of_nat (List.length (filter has_year (catalog lib)))).
  { rewrite total_count_decade_lines. unfold decade_counts.
    rewrite (kept_group_by_key option_Z_eqb option_Z_leb option_Z_eqb_eq).
    rewrite length_filter_map. unfold catalog. do 2 f_equal.
    apply filter_ext. intros b. apply is_some_decade_of. }
  split; [exact H|]. rewrite H. unfold count_all, catalog. split.
  - apply Nat2Z.inj_le, filter_length_le.
  - intros Hall. now rewrite forallb_filter_id.
Qed.

Lemma decade_counts_add_up_witness :
  exists s, get_statistics two_books = Statistics s /\ total_count (decades s) = 2.
Proof.
  eexists. split; [reflexivity|].
  rewrite (proj1 (decade_counts_add_up two_books _ eq_refl)). reflexivity.
Defined.

(** ** statistics do not look at ids *)

Lemma map_through_fields {A : Type} (g : book -> A)
    (h : sqlval * sqlval * sqlval * sqlval * sqlval * sqlval -> A)
    (l l' : list book) :
  (forall b, g b = h (fields_of b)) ->
  map fields_of l = map fields_of l' -> map g l = map g l'.
Proof.
  intros Hg Hl.
  rewrite (map_ext g (fun b => h (fields_of b)) Hg l).
  rewrite (map_ext g (fun b => h (fields_of b)) Hg l').
  rewrite <- !(map_map fields_of h). now rewrite Hl.
Qed.

Lemma length_filter_through_map {A B : Type} (f : A -> B) (p : B -> bool)
    (l l' : list A) :
  map f l = map f l' ->
  List.length (filter (fun x => p (f x)) l)
  = List.length (filter (fun x => p (f x)) l').
Proof.
  intros H.
  rewrite <- (length_filter_map p f l), <- (length_filter_map p f l'), H.
  reflexivity.
Qed.

(** X12.  The statistics depend on the field tuples of the books only, not
    on their ids: two libraries whose catalogs carry the same (title,
    author, publication_year, genre, read_status, added_date) tuples in the
    same order get the same statistics. *)
Theorem get_statistics_ignores_ids (lib lib' : library) :
  map fields_of (catalog lib) = map fields_of (catalog lib') ->
  get_statistics lib = get_statistics lib'.
Proof.
  unfold catalog. intros H.
  assert (Hlen : count_all (working lib) = count_all (working lib')).
  { unfold count_all. f_equal.
    now rewrite <- (length_map fields_of), H, length_map. }
  assert (Hread : count_read (working lib) = count_read (working lib')).
  { unfold count_read. f_equal.
    apply (length_filter_through_map fields_of
             (fun x => sqlval_eqb (snd (fst x)) (SqlInt 1))). exact H. }
  assert (Hg : map genre (rows (working lib)) = map genre (rows (working lib'))).
  { apply (map_through_fields genre (fun x => snd (fst (fst x)))); auto. }
  assert (Ha : map author (rows (working lib)) = map author (rows (working lib'))).
  { apply (map_through_fields author
             (fun x => snd (fst (fst (fst (fst x)))))); auto. }
  assert (Hd : map decade_of (rows (working lib))
               = map decade_of (rows (working lib'))).
  { apply (map_through_fields decade_of
             (fun x => match snd (fst (fst (fst x))) with
                       | SqlNull => None
                       | SqlInt y => Some (Z.quot y 10 * 10)
                       | SqlText s => Some (Z.quot (number_of_text s) 10 * 10)
                       end)); auto. }
  unfold get_statistics, counts_by, decade_counts.
  now rewrite Hlen, Hread, Hg, Ha, Hd.
Qed.

Lemma get_statistics_ignores_ids_witness :
  get_statistics two_books
  = get_statistics (commit {| rows := renumber 40 [dune; emma]; seq := 42 |}).
Proof. apply get_statistics_ignores_ids. reflexivity. Defined.

(** ** import: what a successful import leaves *)

Lemma import_books_done (items : list pyval) (t t' : table) :
  import_books t items = (None, t') ->
  exists new : list book,
    rows t' = rows t ++ new
    /\ List.length new = List.length items
    /\ Forall (fun b => id_mark t < id b /\ has_title_and_author b) new
    /\ Forall (fun j => exists d, j = PyDict d) items.
Proof.
  revert t. induction items as [|j items IH]; simpl; intros t H.
  - injection H as <-. exists []. rewrite app_nil_r. repeat split; constructor.
  - destruct (import_record t j) as [e0|t1] eqn:E; [discriminate|].
    pose proof E as Hrec. apply import_record_inv in E.
    destruct E as (v1 & v2 & v3 & v4 & v5 & v6 & G1 & _ & _ & _ & _ & _ & E).
    apply execute_insert_inv in E.
    destruct E as (ti & au & ye & ge & st & da & _ & _ & _ & _ & _ & _
                   & N1 & N2 & Hm & E).
    destruct (IH _ H) as (new & Hrows & Hlen & Hnew & Hdicts).
    assert (Hmark : id_mark t1 = id_mark t + 1).
    { rewrite E. now apply id_mark_insert. }
    exists (row_of (id_mark t + 1) ti au ye ge st da :: new).
    split; [|split; [|split]].
    + rewrite Hrows, E. simpl. now rewrite <- app_assoc.
    + simpl. now rewrite Hlen.
    + constructor.
      * split; [simpl; lia|].
        split; unfold row_of; cbn [title author]; intros Hnull;
          [apply (affinity_keeps_not_null TEXT) in N1; rewrite Hnull in N1
          |apply (affinity_keeps_not_null TEXT) in N2; rewrite Hnull in N2];
          discriminate.
      * eapply Forall_impl; [|exact Hnew]. intros b [Hb1 Hb2].
        split; [lia|exact Hb2].
    + constructor; [|exact Hdicts].
      destruct j; simpl in G1; try discriminate. eauto.
Qed.

(** X13.  When import answers "imported n": the file held a JSON list of n
    records (n > 0), each of them an object; the answer at the prompt was
    "y" or "Y"; the catalog now holds exactly n books, none of the books
    from before; every id is above all ids handed out before, every title
    and author is not NULL; and the result is committed. *)
Theorem import_library_success (filename confirm : string) (lib lib' : library)
    (fs : filesystem) (n : nat) :
  import_library filename confirm lib fs = (Imported n, lib') ->
  (exists items, fs filename = JsonFile (PyList items)
                 /\ List.length items = n
                 /\ Forall (fun j => exists d, j = PyDict d) items)
  /\ (0 < n)%nat
  /\ lower_string confirm = "y"
  /\ List.length (catalog lib') = n
  /\ Forall (fun b => id_mark (working lib) < id b /\ has_title_and_author b)
            (catalog lib')
  /\ committed lib' = working lib'.
Proof.
  unfold import_library.
  destruct (fs filename) as [| | |j]; try discriminate.
  destruct (truthy j) eqn:Ht; simpl; [|discriminate].
  destruct (py_len j) as [count|] eqn:Hlen; [|discriminate].
  destruct (py_iter j) as [items|] eqn:Hiter; [|discriminate].
  destruct (lower_string confirm =? "y")%string eqn:Hy; simpl; [|discriminate].
  destruct (import_books _ items) as [[e|] t'] eqn:E; [discriminate|].
  intros [= <- <-]. apply import_books_done in E.
  destruct E as (new & Hrows & Hnewlen & Hnew & Hdicts). simpl in Hrows.
  assert (Hmark : id_mark (sql_delete_all (working lib)) = id_mark (working lib)).
  { unfold id_mark, sql_delete_all; simpl.
    pose proof (max_rowid_nonneg (rows (working lib))). lia. }
  assert (Hj : j = PyList items /\ count = List.length items).
  { destruct j as [| | |s|l|d]; simpl in Hlen, Hiter; try discriminate.
    - injection Hiter as <-. destruct s as [|c s]; [discriminate|].
      simpl in Hdicts. inversion Hdicts as [|? ? (d & Hd) _]. discriminate.
    - injection Hiter as <-. injection Hlen as <-. now split.
    - injection Hiter as <-. destruct d as [|[k v] d]; [discriminate|].
      simpl in Hdicts. inversion Hdicts as [|? ? (d' & Hd) _]. discriminate. }
  destruct Hj as [-> ->].
  split; [exists items; auto|]. split.
  { destruct items; [discriminate|simpl; lia]. }
  split; [now apply String.eqb_eq|].
  unfold catalog. simpl. rewrite Hrows. split; [exact Hnewlen|].
  split; [|reflexivity].
  eapply Forall_impl; [|exact Hnew]. intros b [Hb1 Hb2].
  split; [now rewrite <- Hmark|exact Hb2].
Qed.

Lemma import_library_success_witness :
  exists lib',
    import_library "old.json" "Y" two_books
      (one_file "old.json" (PyList [ancient_record; complete_record]))
    = (Imported 2, lib')
    /\ List.length (catalog lib') = 2%nat
    /\ committed lib' = working lib'.
Proof.
  eexists. split; [reflexivity|].
  destruct (import_library_success "old.json" "Y" two_books _
              (one_file "old.json" (PyList [ancient_record; complete_record]))
              2 eq_refl) as (_ & _ & _ & H1 & _ & H2).
  split; [exact H1|exact H2].
Defined.

(** ** import: what a failed import leaves in the file *)

(** X14.  An import that does not answer "imported" changes nothing that
    is committed: closing the program after it and opening the database
    again shows the committed catalog from before the import, whatever the
    connection showed in between. *)
Theorem failed_import_is_not_durable (filename confirm : string)
    (lib lib' : library) (fs : filesystem) (o : import_outcome) :
  import_library filename confirm lib fs = (o, lib') ->
  import_returns o = false ->
  committed lib' = committed lib
  /\ LibraryManager true (close lib') = Some (commit (committed lib))
  /\ (committed lib = working lib ->
      LibraryManager true (close lib') = Some lib).
Proof.
  unfold import_library. intros H Ho.
  assert (Hc : committed lib' = committed lib).
  { destruct (fs filename) as [| | |j]; try (injection H as _ <-; reflexivity).
    destruct (truthy j); simpl in H; [|injection H as _ <-; reflexivity].
    destruct (py_len j), (py_iter j) as [items|];
      try (injection H as _ <-; reflexivity).
    destruct (lower_string confirm =? "y")%string; simpl in H;
      [|injection H as _ <-; reflexivity].
    destruct (import_books _ items) as [[e|] t']; injection H as <- <-;
      [reflexivity|discriminate]. }
  split; [exact Hc|]. unfold LibraryManager, close, setup_db. rewrite Hc.
  split; [reflexivity|].
  intros Hclean. destruct lib as [cm wk]. simpl in *. now subst.
Qed.

Lemma failed_import_is_not_durable_witness :
  LibraryManager true
    (close (snd (import_library "library_export.json" "y" two_books
                   (one_file "library_export.json"
                      (PyList [complete_record; incomplete_record])))))
  = Some two_books.
Proof.
  apply (failed_import_is_not_durable "library_export.json" "y" two_books _
           (one_file "library_export.json"
              (PyList [complete_record; incomplete_record]))
           (ErrorImporting KeyError)); reflexivity.
Defined.

(** ** import: a file that is not a list of objects *)

(** X15.  A file whose JSON value is a non-empty object or a non-empty
    string passes the checks, and with the answer "y" the import clears
    the catalog on the connection and then fails on the first item with a
    [TypeError]; a file whose value is a number other than 0, or [true],
    fails with a [TypeError] at [len], before the prompt, and changes
    nothing. *)
Theorem import_of_a_file_that_is_no_list (filename confirm : string)
    (lib : library) (fs : filesystem) (j : pyval) :
  fs filename = JsonFile j ->
  ((exists kv d, j = PyDict (kv :: d)) \/ (exists c s, j = PyStr (String c s)) ->
   lower_string confirm = "y" ->
   import_library filename confirm lib fs
   = (ErrorImporting TypeError, pending lib (sql_delete_all (working lib)))
   /\ catalog (pending lib (sql_delete_all (working lib))) = [])
  /\ ((exists z, j = PyInt z /\ z <> 0) \/ j = PyBool true ->
      import_library filename confirm lib fs = (ErrorImporting TypeError, lib)).
Proof.
  intros Hf. unfold import_library. rewrite Hf. split.
  - intros Hj Hy. split; [|reflexivity].
    destruct Hj as [([k v] & d & ->)|(c & s & ->)]; simpl;
      rewrite Hy; reflexivity.
  - intros [(z & -> & Hz)| ->]; simpl; [|reflexivity].
    apply Z.eqb_neq in Hz. now rewrite Hz.
Qed.

Lemma import_of_a_file_that_is_no_list_witness :
  import_library "object.json" "y" two_books
    (one_file "object.json" (PyDict [("title", PyStr "Dune")]))
  = (ErrorImporting TypeError, pending two_books (sql_delete_all (working two_books))).
Proof.
  apply (import_of_a_file_that_is_no_list "object.json" "y" two_books
           (one_file "object.json" (PyDict [("title", PyStr "Dune")]))
           (PyDict [("title", PyStr "Dune")]) eq_refl);
    [left; eauto|reflexivity].
Defined.

(** ** export *)

Lemma exported_as_book_dict (b : book) : exported_as (book_dict b) b.
Proof. unfold exported_as, book_dict. repeat split. Qed.

(** X16.  export writes nothing when the catalog is empty ("nothing to
    export") or the path cannot be opened; otherwise it answers "exported"
    and the named file holds one record per book, in the order of the
    catalog, each with the book's id and fields under the seven keys and
    the read status as a JSON boolean.  No other path is ever touched. *)
Theorem export_library_spec (filename : string) (lib : library) (fs : filesystem) :
  (forall p, p <> filename -> snd (export_library filename lib fs) p = fs p)
  /\ (fst (export_library filename lib fs) = NothingToExport <-> catalog lib = [])
  /\ (fst (export_library filename lib fs) <> Exported ->
      forall p, snd (export_library filename lib fs) p = fs p)
  /\ (catalog lib <> [] -> fs filename <> Unopenable ->
      fst (export_library filename lib fs) = Exported
      /\ exists items,
           snd (export_library filename lib fs) filename = JsonFile (PyList items)
           /\ Forall2 exported_as items (catalog lib)).
Proof.
  unfold export_library, catalog.
  destruct (rows (working lib)) as [|b bs] eqn:Erows.
  - simpl. repeat split; try reflexivity; intros; contradiction.
  - set (books := b :: bs).
    assert (Hitems : Forall2 exported_as (map book_dict books) books).
    { induction books as [|x l IH]; simpl; constructor;
        [apply exported_as_book_dict|exact IH]. }
    split; [|split; [|split]].
    + intros p Hp. apply String.eqb_neq in Hp.
      destruct (fs filename); simpl; unfold write_file; now rewrite ?Hp.
    + destruct (fs filename); simpl; split; discriminate.
    + destruct (fs filename); simpl; intros H p; try reflexivity;
        contradiction.
    + intros _ Hopen.
      destruct (fs filename) eqn:E; try contradiction; simpl;
        (split; [reflexivity|]); exists (map book_dict books);
        unfold write_file; rewrite String.eqb_refl; (split; [reflexivity|exact Hitems]).
Qed.

Lemma export_library_spec_witness :
  fst (export_library "library_export.json" two_books (fun _ => NoFile)) = Exported
  /\ exists items,
       snd (export_library "library_export.json" two_books (fun _ => NoFile))
           "library_export.json" = JsonFile (PyList items)
       /\ Forall2 exported_as items (catalog two_books).
Proof.
  apply (export_library_spec "library_export.json" two_books (fun _ => NoFile));
    discriminate.
Defined.

(** ** The prompts of the menu *)

Section PromptFacts.
Variable int : string -> option Z.
Variable current_year : Z.

Lemma genre_selected (inputs rest : list string) (g : string) :
  get_genre_selection int inputs = Some (g, rest) ->
  In g genres
  /\ exists (skipped : list string) (line : string) (k : Z),
       inputs = skipped ++ line :: rest
       /\ Forall (no_genre_number int) skipped
       /\ int line = Some k /\ 1 <= k <= 16
       /\ nth_error genres (Z.to_nat (k - 1)) = Some g.
Proof.
  induction inputs as [|line inputs IH]; cbn [get_genre_selection];
    [discriminate|].
  assert (Hlen : Z.of_nat (List.length genres) = 16) by reflexivity.
  destruct (int line) as [k|] eqn:Ek.
  - destruct ((1 <=? k) && (k <=? Z.of_nat (List.length genres))) eqn:Erange.
    + clear IH.
      apply andb_true_iff in Erange. destruct Erange as [H1 H2].
      apply Z.leb_le in H1, H2.
      assert (Hn : (Z.to_nat (k - 1) < List.length genres)%nat) by lia.
      pose proof (nth_In genres "" Hn) as Hin.
      pose proof (nth_error_nth' genres "" Hn) as Hnth.
      intros [= <- <-].
      split; [exact Hin|].
      exists [], line, k. split; [reflexivity|]. split; [constructor|].
      split; [exact Ek|]. split; [lia|]. exact Hnth.
    + intros H. destruct (IH H) as (Hin & skipped & l & k' & -> & Hsk & Hl & Hk & Hn).
      split; [exact Hin|]. exists (line :: skipped), l, k'.
      split; [reflexivity|]. split; [|auto].
      constructor; [|exact Hsk]. unfold no_genre_number. rewrite Ek.
      apply andb_false_iff in Erange.
      destruct Erange as [E|E]; apply Z.leb_gt in E; lia.
  - intros H. destruct (IH H) as (Hin & skipped & l & k' & -> & Hsk & Hl & Hk & Hn).
    split; [exact Hin|]. exists (line :: skipped), l, k'.
    split; [reflexivity|]. split; [|auto].
    constructor; [|exact Hsk]. unfold no_genre_number. now rewrite Ek.
Qed.

(** X17.  get_genre_selection skips every line that is not a number from
    1 to 16 and returns, for the first line that is such a number [k], the
    k-th entry of its list of sixteen genres; so what it returns is always
    one of the sixteen. *)
Theorem get_genre_selection_spec (inputs rest : list string) (g : string) :
  get_genre_selection int inputs = Some (g, rest) ->
  In g genres
  /\ exists (skipped : list string) (line : string) (k : Z),
       inputs = skipped ++ line :: rest
       /\ Forall (no_genre_number int) skipped
       /\ int line = Some k /\ 1 <= k <= 16
       /\ nth_error genres (Z.to_nat (k - 1)) = Some g.
Proof. apply genre_selected. Qed.

Lemma year_read (inputs rest : list string) (y : Z) :
  read_year int current_year inputs = Some (y, rest) ->
  exists (skipped : list string) (line : string),
    inputs = skipped ++ line :: rest
    /\ Forall (no_year int current_year) skipped
    /\ ((line = "" /\ y = current_year)
        \/ (line <> "" /\ int line = Some y /\ 1000 <= y <= current_year)).
Proof.
  induction inputs as [|line inputs IH]; simpl; [discriminate|].
  destruct (line =? "")%string eqn:Eempty.
  - intros [= <- <-]. apply String.eqb_eq in Eempty.
    exists [], line. simpl. repeat split; [constructor|now left].
  - apply String.eqb_neq in Eempty.
    assert (Hskip : read_year int current_year inputs = Some (y, rest) ->
                    no_year int current_year line ->
                    exists skipped l,
                      line :: inputs = skipped ++ l :: rest
                      /\ Forall (no_year int current_year) skipped
                      /\ ((l = "" /\ y = current_year)
                          \/ (l <> "" /\ int l = Some y /\ 1000 <= y <= current_year))).
    { intros H Hno. destruct (IH H) as (skipped & l & -> & Hsk & Hl).
      exists (line :: skipped), l. repeat split; [|exact Hl].
      now constructor. }
    destruct (int line) as [py|] eqn:Ey.
    + destruct ((py <? 1000) || (current_year <? py)) eqn:Erange.
      * intros H. apply Hskip; [exact H|].
        split; [exact Eempty|]. rewrite Ey.
        apply orb_true_iff in Erange.
        destruct Erange as [E|E]; apply Z.ltb_lt in E; lia.
      * intros [= <- <-]. apply orb_false_iff in Erange.
        destruct Erange as [E1 E2]. apply Z.ltb_ge in E1, E2.
        exists [], line. simpl. repeat split; [constructor|].
        right. repeat split; try assumption; lia.
    + intros H. apply Hskip; [exact H|]. split; [exact Eempty|]. now rewrite Ey.
Qed.

(** X18.  The year prompt skips every line that is neither empty nor a
    number from 1000 to the current year; an empty line gives the current
    year, and any other accepted line a year from 1000 to the current
    year. *)
Theorem read_year_spec (inputs rest : list string) (y : Z) :
  read_year int current_year inputs = Some (y, rest) ->
  exists (skipped : list string) (line : string),
    inputs = skipped ++ line :: rest
    /\ Forall (no_year int current_year) skipped
    /\ ((line = "" /\ y = current_year)
        \/ (line <> "" /\ int line = Some y /\ 1000 <= y <= current_year)).
Proof. apply year_read. Qed.

End PromptFacts.

Lemma get_genre_selection_spec_witness :
  get_genre_selection int_of_text ["x"; "17"; "6"; "2"] = Some ("AI", ["2"])
  /\ In "AI" genres.
Proof.
  split; [reflexivity|].
  apply (get_genre_selection_spec int_of_text ["x"; "17"; "6"; "2"] ["2"] "AI").
  reflexivity.
Defined.

Lemma read_year_spec_witness :
  exists skipped line,
    ["soon"; "2525"; "1984"; "1"] = skipped ++ line :: ["1"]
    /\ Forall (no_year int_of_text 2024) skipped
    /\ ((line = "" /\ 1984 = 2024)
        \/ (line <> "" /\ int_of_text line = Some 1984 /\ 1000 <= 1984 <= 2024)).
Proof.
  apply (read_year_spec int_of_text 2024 ["soon"; "2525"; "1984"; "1"] ["1"] 1984).
  reflexivity.
Defined.

(** ** The menu's "Add New Book" from the lines typed *)

Lemma add_book_from_menu (cy : Z) (now title author g : string) (y : Z) (r : bool)
    (lib lib' : library) (o : add_outcome) :
  title <> "" -> author <> "" -> In g genres ->
  (y = cy \/ 1000 <= y <= cy) ->
  add_book now (PyStr title) (PyStr author) (PyInt y) (PyStr g) (PyBool r) lib
  = (o, lib') ->
  (o <> BookAdded -> lib' = lib)
  /\ forall b, In b (catalog lib') -> In b (catalog lib) \/ menu_book cy now b.
Proof.
  intros Ht Ha Hg Hy. unfold add_book.
  destruct (execute_insert _ _ _ _ _ _ _) as [e|t'] eqn:E.
  - destruct (is_sqlite_error e); intros [= <- <-]; (split; [reflexivity|]);
      intros b Hb; now left.
  - intros [= <- <-]. split; [intros H; now contradiction H|].
    apply execute_insert_inv in E.
    destruct E as (ti & au & ye & ge & st & da & B1 & B2 & B3 & B4 & B5 & B6
                   & _ & _ & _ & ->).
    simpl in B1, B2, B4, B5, B6. injection B1 as <-. injection B2 as <-.
    injection B4 as <-. injection B5 as <-. injection B6 as <-.
    simpl in B3. destruct (in_int64 y); [|discriminate]. injection B3 as <-.
    intros b Hb. unfold catalog in Hb. simpl in Hb. apply in_app_or in Hb.
    destruct Hb as [Hb|[<-|[]]]; [now left|right].
    unfold menu_book, has_nonempty_title_and_author, row_of. simpl.
    split; [split; eexists; (split; [reflexivity|assumption])|].
    split; [exists y; destruct Hy as [->|Hy]; [now right|now left]|].
    split; [exists g; now split|].
    split; [destruct r; auto|reflexivity].
Qed.

(** X19.  Whatever lines are typed at "Add New Book", a book that gets
    into the catalog has a non-empty title and author, a year that is the
    current year or lies between 1000 and the current year, one of the
    sixteen genres, a read status stored as 0 or 1, and the timestamp of
    the call as added date.  An empty title or author cancels with the
    library untouched, and so does every outcome other than "added". *)
Theorem add_new_book_makes_valid_books (int : string -> option Z)
    (current_year : Z) (now : string) (inputs rest : list string)
    (lib lib' : library) (o : shell_add_outcome) :
  add_new_book int current_year now inputs lib = Some (o, rest, lib') ->
  (forall b, In b (catalog lib') ->
             In b (catalog lib) \/ menu_book current_year now b)
  /\ (o <> Called BookAdded -> lib' = lib)
  /\ (exists title author y g r,
         shell_add now title author y g r lib = (o, lib')).
Proof.
  unfold add_new_book.
  destruct inputs as [|title inputs1]; [discriminate|].
  destruct (title =? "")%string eqn:Et.
  { intros [= <- <- <-]. split; [intros b Hb; now left|].
    split; [reflexivity|]. now exists "", "", 0, "", false. }
  destruct inputs1 as [|author inputs2]; [discriminate|].
  destruct (author =? "")%string eqn:Ea.
  { intros [= <- <- <-]. split; [intros b Hb; now left|].
    split; [reflexivity|]. exists title, "", 0, "", false.
    unfold shell_add. now rewrite Et. }
  destruct (read_year int current_year inputs2) as [[y inputs3]|] eqn:Ey;
    [|discriminate].
  destruct (get_genre_selection int inputs3) as [[g inputs4]|] eqn:Eg;
    [|discriminate].
  destruct (read_yes_no inputs4) as [[r inputs5]|] eqn:Er; [|discriminate].
  destruct (add_book now (PyStr title) (PyStr author) (PyInt y) (PyStr g)
              (PyBool r) lib) as [oa la] eqn:Eadd.
  intros [= <- <- <-].
  apply String.eqb_neq in Et, Ea.
  apply year_read in Ey. destruct Ey as (sk & line & _ & _ & Hy).
  apply genre_selected in Eg. destruct Eg as (Hg & _).
  destruct (add_book_from_menu current_year now title author g y r lib la oa)
    as [Hfail Hbooks]; try assumption.
  { destruct Hy as [[_ ->]|(_ & _ & Hy)]; [now left|now right]. }
  split; [exact Hbooks|]. split.
  - intros Hne. apply Hfail. intros ->. now apply Hne.
  - exists title, author, y, g, r. unfold shell_add.
    apply String.eqb_neq in Et, Ea. now rewrite Et, Ea, Eadd.
Qed.

Lemma add_new_book_makes_valid_books_witness :
  exists lib',
    add_new_book int_of_text 2024 "2024-01-01 10:00:00"
      ["Dune"; "Herbert"; "999"; "1965"; "0"; "3"; "maybe"; "N"]
      empty_library
    = Some (Called BookAdded, [], lib')
    /\ Forall (menu_book 2024 "2024-01-01 10:00:00") (catalog lib').
Proof.
  eexists. split; [reflexivity|].
  apply Forall_forall. intros b Hb.
  destruct (add_new_book_makes_valid_books int_of_text 2024 "2024-01-01 10:00:00"
              ["Dune"; "Herbert"; "999"; "1965"; "0"; "3"; "maybe"; "N"] []
              empty_library _ (Called BookAdded) eq_refl) as (H & _).
  destruct (H b Hb) as [[]|Hm]. exact Hm.
Defined.

(** ** The menu's prompts for an id *)


(** ** remove after add *)

Lemma find_in_app {A : Type} (f : A -> bool) (l l' : list A) :
  find f (l ++ l') = match find f l with Some x => Some x | None => find f l' end.
Proof.
  induction l as [|x l IH]; simpl; [reflexivity|].
  now destruct (f x).
Qed.

Lemma filter_keeps_others (i : Z) (l : list book) :
  (forall b, In b l -> id b <> i) ->
  filter (fun b => negb (id b =? i)) l = l.
Proof.
  intros H. apply forallb_filter_id. apply forallb_forall.
  intros b Hb. apply negb_true_iff, Z.eqb_neq. now apply H.
Qed.

(** X21.  Removing the book that add has just created brings the catalog
    back to what it was before the add; only the counter of ids has moved
    on, so the next book gets a still larger id. *)
Theorem remove_undoes_add now v1 v2 v3 v4 v5 (lib lib1 : library) :
  add_book now v1 v2 v3 v4 v5 lib = (BookAdded, lib1) ->
  exists (t : sqlval) (lib2 : library),
    remove_book (id_mark (working lib) + 1) lib1 = (BookRemoved t, lib2)
    /\ catalog lib2 = catalog lib
    /\ id_mark (working lib2) = id_mark (working lib) + 1
    /\ committed lib2 = working lib2.
Proof.
  unfold add_book.
  destruct (execute_insert _ _ _ _ _ _ _) as [e|t'] eqn:E;
    [destruct (is_sqlite_error e); discriminate|].
  intros [= <-]. apply execute_insert_inv in E.
  destruct E as (ti & au & ye & ge & st & da & _ & _ & _ & _ & _ & _
                 & _ & _ & Hm & ->).
  set (m := id_mark (working lib)) in *.
  set (b := row_of (m + 1) ti au ye ge st da).
  assert (H64 : in_int64 (m + 1) = true).
  { unfold in_int64, min_int64. apply andb_true_iff.
    pose proof (max_rowid_nonneg (rows (working lib))).
    unfold m, id_mark in *. split; apply Z.leb_le; lia. }
  assert (Hothers : forall x, In x (rows (working lib)) -> id x <> m + 1).
  { intros x Hx. apply id_mark_ge in Hx. fold m in Hx. lia. }
  assert (Hsel : sql_select_id {| rows := rows (working lib) ++ [b]; seq := m + 1 |}
                               (m + 1) = Some b).
  { unfold sql_select_id. simpl. rewrite find_in_app.
    destruct (find _ (rows (working lib))) as [x|] eqn:Ef.
    - apply find_some in Ef. destruct Ef as [Hx Hid]. apply Z.eqb_eq in Hid.
      now apply Hothers in Hx.
    - simpl. now rewrite Z.eqb_refl. }
  exists (title b). eexists.
  unfold remove_book, bind_value. rewrite H64. simpl working. rewrite Hsel.
  split; [reflexivity|].
  assert (Hrows : filter (fun x => negb (id x =? m + 1)) (rows (working lib) ++ [b])
                  = rows (working lib)).
  { rewrite filter_app. simpl. rewrite Z.eqb_refl. simpl.
    rewrite app_nil_r. now apply filter_keeps_others. }
  split; [exact Hrows|]. split; [|reflexivity].
  unfold id_mark at 1. simpl. rewrite Hrows. fold m.
  unfold m, id_mark. lia.
Qed.

Lemma remove_undoes_add_witness :
  exists (t : sqlval) (lib2 : library),
    remove_book 3
      (snd (add_book "2024-07-07 07:07:07" (PyStr "Persuasion") (PyStr "Austen")
              (PyInt 1817) (PyStr "Fiction") (PyBool false) two_books))
    = (BookRemoved t, lib2)
    /\ catalog lib2 = catalog two_books.
Proof.
  destruct (remove_undoes_add "2024-07-07 07:07:07" (PyStr "Persuasion")
              (PyStr "Austen") (PyInt 1817) (PyStr "Fiction") (PyBool false)
              two_books _ eq_refl) as (t & lib2 & H1 & H2 & _).
  exists t, lib2. split; [exact H1|exact H2].
Defined.

(** ** update and the count of books read *)

Lemma count_read_toggle (l : list book) (b : book) (v : sqlval) :
  NoDup (map id l) -> In b l ->
  Z.of_nat (List.length
              (filter is_read
                 (map (fun b0 => if id b0 =? id b
                                 then set_read_status v b0 else b0) l)))
  + (if is_read b then 1 else 0)
  = Z.of_nat (List.length (filter is_read l))
    + (if sqlval_eqb v (SqlInt 1) then 1 else 0).
Proof.
  induction l as [|h l IH]; simpl; [tauto|].
  intros Hnd Hin. inversion Hnd as [|? ? Hnotin Hnd']; subst.
  destruct Hin as [->|Hin].
  - rewrite Z.eqb_refl.
    assert (Hrest : map (fun b0 => if id b0 =? id b
                                   then set_read_status v b0 else b0) l = l).
    { rewrite <- (map_id l) at 2. apply map_ext_in. intros y Hy.
      destruct (id y =? id b) eqn:E; [|reflexivity].
      apply Z.eqb_eq in E. exfalso. apply Hnotin. rewrite <- E. now apply in_map. }
    rewrite Hrest. unfold is_read at 1. simpl read_status.
    destruct (sqlval_eqb v (SqlInt 1)); destruct (is_read b);
      simpl List.length; lia.
  - destruct (id h =? id b) eqn:E.
    + apply Z.eqb_eq in E. exfalso. apply Hnotin. rewrite E. now apply in_map.
    + specialize (IH Hnd' Hin). destruct (is_read h); simpl List.length; lia.
Qed.

(** X22.  With unique ids, an update of a present book moves the "Books
    Read" count of the statistics by exactly one book: the count after,
    plus one if the book counted as read before, is the count before, plus
    one if the new status is "read"; the total does not move. *)
Theorem update_moves_read_count (book_id : Z) (lib lib' : library)
    (t : sqlval) (new_status : bool) :
  NoDup (map id (catalog lib)) ->
  update_read_status book_id lib = (StatusUpdated t new_status, lib') ->
  exists b, In b (catalog lib) /\ id b = book_id
            /\ new_status = negb (sql_truthy (read_status b))
            /\ count_read (working lib') + (if is_read b then 1 else 0)
               = count_read (working lib) + (if new_status then 1 else 0)
            /\ count_all (working lib') = count_all (working lib).
Proof.
  intros Hnd. unfold update_read_status.
  destruct (bind_value (PyInt book_id)); [discriminate|].
  destruct (sql_select_id (working lib) book_id) as [b|] eqn:Es; [|discriminate].
  intros [= <- <- <-].
  unfold sql_select_id in Es. apply find_some in Es. destruct Es as [Hin Hid].
  apply Z.eqb_eq in Hid. subst book_id.
  exists b. split; [exact Hin|]. split; [reflexivity|]. split; [reflexivity|].
  split.
  - unfold count_read.
    pose proof (count_read_toggle (rows (working lib)) b
                  (apply_affinity NUMERIC
                     (SqlInt (bool_int (negb (sql_truthy (read_status b))))))
                  Hnd Hin) as H.
    replace (sqlval_eqb _ (SqlInt 1)) with (negb (sql_truthy (read_status b))) in H
      by (now destruct (sql_truthy (read_status b))).
    exact H.
  - unfold count_all. simpl. now rewrite length_map.
Qed.

Lemma update_moves_read_count_witness :
  fst (update_read_status 1 two_books) = StatusUpdated (SqlText "Dune") true
  /\ count_read (working (snd (update_read_status 1 two_books))) = 2.
Proof.
  split; [reflexivity|].
  destruct (update_moves_read_count 1 two_books
              (snd (update_read_status 1 two_books)) (SqlText "Dune") true)
    as (b & Hin & Hid & _ & Hcount & _).
  - repeat constructor; simpl; intuition discriminate.
  - reflexivity.
  - destruct Hin as [<-|[<-|[]]]; [|discriminate].
    simpl in Hcount. simpl. lia.
Defined.

(** ** What is committed survives closing *)

(** X23.  A call that answers with success has committed: closing the
    program right after it and opening the database again gives the very
    library the call left, for add, remove, update and import alike.  A
    database that cannot be reached gives no library at all, and a new
    database an empty one. *)
Theorem successful_calls_are_durable :
  (forall now v1 v2 v3 v4 v5 lib lib',
      add_book now v1 v2 v3 v4 v5 lib = (BookAdded, lib') ->
      LibraryManager true (close lib') = Some lib')
  /\ (forall i lib lib' t,
         remove_book i lib = (BookRemoved t, lib') ->
         LibraryManager true (close lib') = Some lib')
  /\ (forall i lib lib' t x,
         update_read_status i lib = (StatusUpdated t x, lib') ->
         LibraryManager true (close lib') = Some lib')
  /\ (forall f c lib fs n lib',
         import_library f c lib fs = (Imported n, lib') ->
         LibraryManager true (close lib') = Some lib')
  /\ (forall d, LibraryManager false d = None)
  /\ LibraryManager true None = Some empty_library.
Proof.
  assert (Hcommit : forall t, LibraryManager true (close (commit t)) = Some (commit t))
    by reflexivity.
  split; [|split; [|split; [|split; [|split]]]].
  - intros now v1 v2 v3 v4 v5 lib lib'. unfold add_book.
    destruct (execute_insert _ _ _ _ _ _ _) as [e|t'];
      [destruct (is_sqlite_error e); discriminate|].
    intros [= <-]. apply Hcommit.
  - intros i lib lib' t. unfold remove_book.
    destruct (bind_value (PyInt i)); [discriminate|].
    destruct (sql_select_id (working lib) i); [|discriminate].
    intros [= _ <-]. apply Hcommit.
  - intros i lib lib' t x. unfold update_read_status.
    destruct (bind_value (PyInt i)); [discriminate|].
    destruct (sql_select_id (working lib) i); [|discriminate].
    intros [= _ _ <-]. apply Hcommit.
  - intros f c lib fs n lib' H.
    assert (Hc : committed lib' = working lib').
    { unfold import_library in H.
      destruct (fs f) as [| | |j]; try discriminate.
      destruct (truthy j); simpl in H; [|discriminate].
      destruct (py_len j), (py_iter j) as [items|]; try discriminate.
      destruct (lower_string c =? "y")%string; simpl in H; [|discriminate].
      destruct (import_books _ items) as [[e|] t']; [discriminate|].
      injection H as _ <-. reflexivity. }
    destruct lib' as [cm wk]. simpl in Hc. subst. reflexivity.
  - reflexivity.
  - reflexivity.
Qed.
